(** * linkedin_bot: the behavioural-simulation engine (pkg/stealth) and the
    daily connection limit (pkg/connection), embedded in Rocq.

    Conventions of the embedding.

    - Go's [int] and [time.Duration] are 64-bit: they are values of [Z] and
      every arithmetic operation of the source wraps with [wrap64].
    - Go's [float64] is the kernel's binary64 type [float]; every operation
      of the source is one IEEE operation, rounded on its own (no fused
      multiply-add, as the compiler emits on amd64).
    - A [string] ranged over with [for _, char := range text] is the list of
      runes the loop yields.
    - [*rand.Rand] is an oracle: an arbitrary sequence of answers, one taken
      per call.  A statement quantified over every [Rand] covers every
      behaviour the documented contract of [Intn] and [Float64] allows.
    - What the code does to the page ([MustInput], [Mouse.Move],
      [window.scrollBy], [time.Sleep]) is recorded, in order, as a list of
      [event]s; a Go panic ends the run and keeps the events so far.
    - The definitions come first, in the order: machine numbers, the page
      and the random source, pkg/config, pkg/stealth, pkg/connection, the
      vocabulary of the statements, sample inputs, and then the code around
      the claims.  The properties follow. *)

From Stdlib Require Import ZArith List Bool Lia Ascii String Floats.
Import ListNotations.
Local Open Scope Z_scope.
Set Warnings "-inexact-float".

(** ** Machine integers *)

Definition wrap64 (z : Z) : Z := (z + 2 ^ 63) mod 2 ^ 64 - 2 ^ 63.
Definition add64 (a b : Z) : Z := wrap64 (a + b).
Definition sub64 (a b : Z) : Z := wrap64 (a - b).
Definition mul64 (a b : Z) : Z := wrap64 (a * b).
Definition neg64 (a : Z) : Z := wrap64 (- a).
(** Go's [/] on integers truncates toward zero. *)
Definition div64 (a b : Z) : Z := wrap64 (Z.quot a b).

Definition int64_range (z : Z) : Prop := - 2 ^ 63 <= z < 2 ^ 63.

(** [time.Millisecond] and [time.Second], in nanoseconds. *)
Definition Millisecond : Z := 1000000.
Definition Second : Z := 1000000000.

(** ** binary64 *)

(** [float64(n)]: the binary64 value nearest to [n]. *)
Definition Z2float (n : Z) : float := SF2Prim (binary_normalize prec emax n 0 false).

(** [int(f)] and [time.Duration(f)]: truncation toward zero.  Go leaves the
    result open when the value does not fit; amd64 yields the least
    [int64], which is what is modelled. *)
Definition trunc (f : float) : Z :=
  match Prim2SF f with
  | S754_zero _ => 0
  | S754_finite s m e =>
      let a := match e with
               | Zneg p => Z.shiftr (Zpos m) (Zpos p)
               | _ => Z.shiftl (Zpos m) e
               end in
      let v := if s then - a else a in
      if (- 2 ^ 63 <=? v) && (v <? 2 ^ 63) then v else - 2 ^ 63
  | _ => - 2 ^ 63
  end.

(** Neither an infinity nor a NaN. *)
Definition finite (x : float) : bool :=
  match Prim2SF x with
  | S754_zero _ | S754_finite _ _ _ => true
  | _ => false
  end.

(** [+0] or [-0]. *)
Definition is_zero (x : float) : bool :=
  match Prim2SF x with
  | S754_zero _ => true
  | _ => false
  end.

(** The same value, or two zeros (which Go's [==] does not tell apart). *)
Definition same_value (x y : float) : Prop :=
  x = y \/ (is_zero x = true /\ is_zero y = true).

(** The standard library's [math.Pow], for a positive integer exponent.
    The special cases are those of the documentation of [math.Pow]; the
    general case is its square-and-multiply loop.  (The library runs the loop
    on the [Frexp] mantissa and rescales with [Ldexp]; both are exact, so
    the value differs only if an intermediate product leaves the normal
    range.) *)
Fixpoint pow_loop (a1 x1 : float) (i : positive) : float :=
  match i with
  | xH => (a1 * x1)%float
  | xO i' => pow_loop a1 (x1 * x1)%float i'
  | xI i' => pow_loop (a1 * x1)%float (x1 * x1)%float i'
  end.

Definition Pow (x : float) (y : positive) : float :=
  if (x =? 1)%float then 1%float
  else if Pos.eqb y 1 then x
  else if PrimFloat.is_nan x then PrimFloat.nan
  else if (x =? 0)%float then
         match y with
         | xI _ => x          (* an odd exponent keeps the sign of the zero *)
         | _ => 0%float
         end
  else pow_loop 1%float x y.

(** ** The page *)

Definition rune := Z.

(** The three uses [HumanType] makes of [el.MustInput]: the character of the
    text (line 88), the wrong character (line 95) and the backspace
    (line 97). *)
Inductive keystroke :=
| Commit (c : rune)
| Typo (c : rune)
| Backspace.

(** The string handed to [MustInput]: the character, ["x"] for the typo
    (rune 120), ["\b"] for the backspace (rune 8). *)
Definition key_text (k : keystroke) : list rune :=
  match k with
  | Commit c => [c]
  | Typo c => [c]
  | Backspace => [8]
  end.

Inductive event :=
| EFocus                        (* el.MustFocus() *)
| EInput (k : keystroke)        (* el.MustInput(key_text k) *)
| ESleep (d : Z)                (* time.Sleep(d), in nanoseconds *)
| EScrollBy (dy : Z)            (* window.scrollBy(0, dy) *)
| EMouseMove (x y : float)      (* page.Mouse.Move(x, y, 0) *)
| EClick.                       (* el.MustClick() *)

(** What [el.MustBox()] returns. *)
Record Box := { X : float; Y : float; Width : float; Height : float }.

(** ** The random source *)

(** One answer of the oracle: [raw] is reduced into the range [Intn] is
    asked for, [unit_float] is what [Float64] returns when it lies in
    [0.0, 1.0). *)
Record draw := { raw : Z; unit_float : float }.

Record Rand := { draws : nat -> draw; pos : nat }.

Definition next (r : Rand) : Rand := {| draws := draws r; pos := S (pos r) |}.
Definition current (r : Rand) : draw := draws r (pos r).

(** What [Float64] answers at [r]: an answer outside [0.0, 1.0) is read
    as 0. *)
Definition unit_draw (r : Rand) : float :=
  let f := unit_float (current r) in
  if (0 <=? f)%float && (f <? 1)%float then f else 0%float.

(** ** Runs: events, then a value or a panic *)

Inductive result (A : Type) :=
| Done (a : A) (r : Rand)
| Panic (msg : string).
Arguments Done {A} a r.
Arguments Panic {A} msg.

Definition M (A : Type) : Type := Rand -> list event * result A.

Definition ret {A} (a : A) : M A := fun r => ([], Done a r).

Definition bind {A B} (m : M A) (f : A -> M B) : M B :=
  fun r =>
    match m r with
    | (t1, Done a r1) =>
        match f a r1 with
        | (t2, o) => (t1 ++ t2, o)
        end
    | (t1, Panic msg) => (t1, Panic msg)
    end.

Notation "x <- m ;; k" := (bind m (fun x => k))
  (at level 61, m at next level, right associativity).
Notation "m ;; k" := (bind m (fun _ => k))
  (at level 61, right associativity).

Definition emit (e : event) : M unit := fun r => ([e], Done tt r).
Definition when (b : bool) (m : M unit) : M unit := if b then m else ret tt.

(** [rng.Intn(n)]: a value of [0, n); it panics when [n <= 0]. *)
Definition Intn (n : Z) : M Z :=
  fun r =>
    if n <=? 0 then ([], Panic "invalid argument to Intn")
    else ([], Done (raw (current r) mod n) (next r)).

(** [rng.Float64()]: a value of [0.0, 1.0). *)
Definition Float64 : M float := fun r => ([], Done (unit_draw r) (next r)).

Definition Sleep (d : Z) : M unit := emit (ESleep d).
Definition MustInput (k : keystroke) : M unit := emit (EInput k).

(** A loop over a slice or a range. *)
Fixpoint for_each {A} (l : list A) (body : A -> M unit) : M unit :=
  match l with
  | [] => ret tt
  | a :: rest => body a ;; for_each rest body
  end.

(** The values [0, 1, ..., n - 1] of [for i := 0; i < n; i++]. *)
Definition upto (n : Z) : list Z := map Z.of_nat (seq 0 (Z.to_nat n)).

(** What a run emitted, and whether it returned. *)
Definition events {A} (run : list event * result A) : list event := fst run.

Definition returns {A} (run : list event * result A) : bool :=
  match snd run with
  | Done _ _ => true
  | Panic _ => false
  end.

(** ** Configuration (pkg/config) *)

Module TimingConfig.
Record t := { Enabled : bool; MinThinkTime : Z; MaxThinkTime : Z;
              ScrollSpeedVariance : float }.
End TimingConfig.

Module MouseMovementConfig.
Record t := { Enabled : bool; BezierCurves : bool;
              OvershootProbability : float; MicroCorrections : bool }.
End MouseMovementConfig.

Module ScrollingConfig.
Record t := { Enabled : bool; VariableSpeed : bool;
              ScrollBackProbability : float }.
End ScrollingConfig.

Module TypingConfig.
Record t := { Enabled : bool; MinKeystrokeDelay : Z; MaxKeystrokeDelay : Z;
              TypoProbability : float }.
End TypingConfig.

Module HoveringConfig.
Record t := { Enabled : bool; HoverProbability : float;
              HoverDurationMin : Z; HoverDurationMax : Z }.
End HoveringConfig.

Module SchedulingConfig.
Record t := { Enabled : bool; BusinessHoursOnly : bool; StartHour : Z;
              EndHour : Z; BreakProbability : float }.
End SchedulingConfig.

Module RateLimitingConfig.
Record t := { Enabled : bool; ConnectionCooldown : Z; MessageCooldown : Z }.
End RateLimitingConfig.

Module StealthConfig.
Record t := { MouseMovement : MouseMovementConfig.t;
              Timing : TimingConfig.t;
              Scrolling : ScrollingConfig.t;
              Typing : TypingConfig.t;
              Hovering : HoveringConfig.t;
              Scheduling : SchedulingConfig.t;
              RateLimiting : RateLimitingConfig.t }.
End StealthConfig.

Module ConnectionConfig.
Record t := { DailyLimit : Z; MinDelay : Z; MaxDelay : Z }.
End ConnectionConfig.

Record Config := { Connections : ConnectionConfig.t; Stealth : StealthConfig.t }.

Definition cfgTyping (cfg : Config) := StealthConfig.Typing (Stealth cfg).
Definition cfgTiming (cfg : Config) := StealthConfig.Timing (Stealth cfg).
Definition cfgScrolling (cfg : Config) := StealthConfig.Scrolling (Stealth cfg).
Definition cfgHovering (cfg : Config) := StealthConfig.Hovering (Stealth cfg).
Definition cfgScheduling (cfg : Config) := StealthConfig.Scheduling (Stealth cfg).
Definition cfgMouse (cfg : Config) := StealthConfig.MouseMovement (Stealth cfg).
Definition cfgRate (cfg : Config) := StealthConfig.RateLimiting (Stealth cfg).

(** ** pkg/stealth *)

(** [ShouldOperate] (lines 47 to 56), with the hour of [time.Now()] as an
    argument. *)
Definition ShouldOperate (cfg : Config) (hour : Z) : bool :=
  if negb (SchedulingConfig.Enabled (cfgScheduling cfg))
     || negb (SchedulingConfig.BusinessHoursOnly (cfgScheduling cfg))
  then true
  else (SchedulingConfig.StartHour (cfgScheduling cfg) <=? hour)
       && (hour <? SchedulingConfig.EndHour (cfgScheduling cfg)).

(** [RandomBreak] (lines 59 to 68). *)
Definition RandomBreak (cfg : Config) : M unit :=
  if negb (SchedulingConfig.Enabled (cfgScheduling cfg)) then ret tt
  else
    u <- Float64 ;;
    when (u <? SchedulingConfig.BreakProbability (cfgScheduling cfg))%float
      (n <- Intn 300 ;;
       Sleep (mul64 (add64 n 60) Second)).

(** The delay of one character (line 91). *)
Definition keystrokeDelay (cfg : Config) : M Z :=
  let lo := TypingConfig.MinKeystrokeDelay (cfgTyping cfg) in
  let hi := TypingConfig.MaxKeystrokeDelay (cfgTyping cfg) in
  n <- Intn (sub64 hi lo) ;;
  ret (mul64 (add64 n lo) Millisecond).

(** One iteration of the loop of [HumanType] (lines 88 to 102). *)
Definition typeChar (cfg : Config) (char : rune) : M unit :=
  MustInput (Commit char) ;;
  when (TypingConfig.Enabled (cfgTyping cfg))
    (delay <- keystrokeDelay cfg ;;
     u <- Float64 ;;
     when (u <? TypingConfig.TypoProbability (cfgTyping cfg))%float
       (MustInput (Typo 120) ;;
        Sleep delay ;;
        MustInput Backspace ;;
        Sleep delay) ;;
     Sleep delay).

(** [HumanType] (lines 84 to 104). *)
Definition HumanType (cfg : Config) (text : list rune) : M unit :=
  emit EFocus ;;
  for_each text (typeChar cfg).

(** One iteration of the loop of [ScrollHumanLike] (lines 117 to 123). *)
Definition scrollStep (cfg : Config) (stepSize : float) : M unit :=
  u <- Float64 ;;
  let variance := (1 + (u - 0.5) * TimingConfig.ScrollSpeedVariance (cfgTiming cfg))%float in
  let actualStep := trunc (stepSize * variance)%float in
  emit (EScrollBy actualStep) ;;
  n <- Intn 200 ;;
  Sleep (mul64 (add64 n 50) Millisecond).

(** The occasional scroll back (lines 127 to 131). *)
Definition scrollBack (cfg : Config) (distance : Z) : M unit :=
  u <- Float64 ;;
  when (u <? ScrollingConfig.ScrollBackProbability (cfgScrolling cfg))%float
    (b <- Intn (div64 distance 4) ;;
     let backDistance := add64 b 10 in
     emit (EScrollBy (neg64 backDistance)) ;;
     p <- Intn 1000 ;;
     Sleep (mul64 (add64 p 500) Millisecond)).

(** [ScrollHumanLike] (lines 107 to 132). *)
Definition ScrollHumanLike (cfg : Config) (distance : Z) : M unit :=
  if negb (ScrollingConfig.Enabled (cfgScrolling cfg)) then emit (EScrollBy distance)
  else
    n <- Intn 10 ;;
    let steps := add64 n 5 in
    let stepSize := (Z2float distance / Z2float steps)%float in
    for_each (upto steps) (fun _ => scrollStep cfg stepSize) ;;
    scrollBack cfg distance.

(** [RandomDelay] (lines 135 to 147). *)
Definition RandomDelay (cfg : Config) : M unit :=
  if negb (TimingConfig.Enabled (cfgTiming cfg)) then ret tt
  else
    let min := TimingConfig.MinThinkTime (cfgTiming cfg) in
    let max := TimingConfig.MaxThinkTime (cfgTiming cfg) in
    let max := if max <=? min then add64 min 1 else max in
    n <- Intn (sub64 max min) ;;
    Sleep (mul64 (add64 n min) Millisecond).

(** [bezierCurve] (lines 215 to 217). *)
Definition bezierCurve (t p0 p1 p2 p3 : float) : float :=
  (Pow (1 - t) 3 * p0 + 3 * Pow (1 - t) 2 * t * p1
   + 3 * (1 - t) * Pow t 2 * p2 + Pow t 3 * p3)%float.

(** The four control values of one coordinate of the path: [currentX],
    [cp1X], [cp2X] and [targetX], or the same in [Y]. *)
Record curve := { p_start : float; p_cp1 : float; p_cp2 : float; p_target : float }.

Definition curve_at (c : curve) (t : float) : float :=
  bezierCurve t (p_start c) (p_cp1 c) (p_cp2 c) (p_target c).

(** The target and the control points (lines 172 to 185); [w] and [h] are
    the viewport size the page reports. *)
Definition planCurves (box : Box) (w h : float) : M (curve * curve) :=
  u1 <- Float64 ;;
  let targetX := (X box + Width box / 2 + (u1 - 0.5) * 20)%float in
  u2 <- Float64 ;;
  let targetY := (Y box + Height box / 2 + (u2 - 0.5) * 20)%float in
  let currentX := (w / 2)%float in
  let currentY := (h / 2)%float in
  u3 <- Float64 ;;
  let cp1X := (currentX + (targetX - currentX) * 0.3 + (u3 - 0.5) * 30)%float in
  u4 <- Float64 ;;
  let cp1Y := (currentY + (targetY - currentY) * 0.3 + (u4 - 0.5) * 20)%float in
  u5 <- Float64 ;;
  let cp2X := (currentX + (targetX - currentX) * 0.6 + (u5 - 0.5) * 30)%float in
  u6 <- Float64 ;;
  let cp2Y := (currentY + (targetY - currentY) * 0.6 + (u6 - 0.5) * 20)%float in
  ret ({| p_start := currentX; p_cp1 := cp1X; p_cp2 := cp2X; p_target := targetX |},
       {| p_start := currentY; p_cp1 := cp1Y; p_cp2 := cp2Y; p_target := targetY |}).

(** The parameter of step [i] (line 189). *)
Definition stepParam (i steps : Z) : float := (Z2float i / Z2float steps)%float.

(** The easing weight and the pause of one step (lines 202 to 204). *)
Definition ease (t : float) : float := (t * t * (3 - 2 * t))%float.

Definition stepSleep (base : Z) (t : float) : Z :=
  trunc (Z2float base * (0.5 + ease t * 0.8) * Z2float Millisecond)%float.

(** The micro-correction of one point (lines 194 to 197). *)
Definition microCorrect (cfg : Config) (x y : float) : M (float * float) :=
  if MouseMovementConfig.MicroCorrections (cfgMouse cfg) then
    u <- Float64 ;;
    if (u <? 0.1)%float then
      a <- Float64 ;;
      b <- Float64 ;;
      ret ((x + (a - 0.5) * 2)%float, (y + (b - 0.5) * 2)%float)
    else ret (x, y)
  else ret (x, y).

(** One iteration of the loop of [moveMouseToElement] (lines 189 to 205). *)
Definition moveStep (cfg : Config) (cx cy : curve) (steps i : Z) : M unit :=
  let t := stepParam i steps in
  xy <- microCorrect cfg (curve_at cx t) (curve_at cy t) ;;
  emit (EMouseMove (fst xy) (snd xy)) ;;
  b <- Intn 6 ;;
  let base := add64 4 b in
  Sleep (stepSleep base t).

(** The loop of [moveMouseToElement]: [for i := 0; i <= steps; i++]. *)
Definition moveAlong (cfg : Config) (cx cy : curve) (steps : Z) : M unit :=
  for_each (upto (steps + 1)) (moveStep cfg cx cy steps).

(** [moveMouseToElement] (lines 171 to 207). *)
Definition moveMouseToElement (cfg : Config) (box : Box) (w h : float) : M unit :=
  cs <- planCurves box w h ;;
  n <- Intn 15 ;;
  let steps := add64 n 25 in
  moveAlong cfg (fst cs) (snd cs) steps.

(** [hoverOverElement] (lines 209 to 212). *)
Definition hoverOverElement (cfg : Config) : M unit :=
  let lo := HoveringConfig.HoverDurationMin (cfgHovering cfg) in
  let hi := HoveringConfig.HoverDurationMax (cfgHovering cfg) in
  n <- Intn (sub64 hi lo) ;;
  Sleep (mul64 (add64 n lo) Millisecond).

(** [HumanClick] (lines 71 to 81). *)
Definition HumanClick (cfg : Config) (box : Box) (w h : float) : M unit :=
  when (MouseMovementConfig.Enabled (cfgMouse cfg)) (moveMouseToElement cfg box w h) ;;
  (if HoveringConfig.Enabled (cfgHovering cfg) then
     u <- Float64 ;;
     when (u <? HoveringConfig.HoverProbability (cfgHovering cfg))%float
       (hoverOverElement cfg)
   else ret tt) ;;
  emit EClick.

(** ** pkg/connection: the daily limit

    The tables of pkg/database are lists of rows.  [sent_at] is kept as a
    timestamp in seconds, and SQLite's [DATE(...)] is the day it falls in.
    A run reads the clock once ([now]).  Whether the request to one profile
    goes through (the browser finds and clicks the buttons, and the [INSERT]
    of [saveConnectionRequest] is accepted) is an answer of the environment
    ([send_ok]); a statement quantified over every [Env] covers every such
    behaviour, the one in which no request is ever recorded included (the
    [INSERT] leaves out [profile_url], which the schema of pkg/database
    declares [NOT NULL]). *)

Module database.
Record Profile := { ID : Z; URL : string; Name : string }.
End database.

Record ConnectionRequestRow := { profile_id : Z; status : string; sent_at : Z }.

Record DB := { profiles : list database.Profile;
               connection_requests : list ConnectionRequestRow }.

Record Env := { now : Z; send_ok : database.Profile -> bool }.

Definition DATE (ts : Z) : Z := ts / 86400.

Definition contacted (db : DB) (p : database.Profile) : bool :=
  existsb (fun row => (profile_id row =? database.ID p)
                      && (String.eqb (status row) "sent" || String.eqb (status row) "accepted"))
          (connection_requests db).

(** [getUncontactedProfiles] (lines 397 to 422). *)
Definition getUncontactedProfiles (db : DB) : list database.Profile :=
  firstn 100 (filter (fun p => negb (contacted db p)) (profiles db)).

(** [WHERE DATE(sent_at) = DATE('now')]. *)
Definition sent_today (env : Env) (row : ConnectionRequestRow) : bool :=
  DATE (sent_at row) =? DATE (now env).

(** [getConnectionsSentToday] (lines 424 to 432). *)
Definition getConnectionsSentToday (env : Env) (db : DB) : Z :=
  wrap64 (Z.of_nat (List.length (filter (sent_today env) (connection_requests db)))).

(** [saveConnectionRequest] (lines 434 to 441). *)
Definition saveConnectionRequest (env : Env) (db : DB) (profileID : Z) (st : string) : DB :=
  {| profiles := profiles db;
     connection_requests :=
       connection_requests db ++ [{| profile_id := profileID; status := st; sent_at := now env |}] |}.

(** [sendConnectionRequest] (lines 326 to 378): [None] is Go's [nil]. *)
Definition sendConnectionRequest (env : Env) (db : DB) (profile : database.Profile)
  : option string * DB :=
  if send_ok env profile
  then (None, saveConnectionRequest env db (database.ID profile) "sent")
  else (Some "connect button not found"%string, db).

(** The loop of [SendConnectionRequests] (lines 295 to 317): the number of
    requests sent and the database after it. *)
Fixpoint sendAll (env : Env) (remaining : Z) (l : list database.Profile)
         (sent : Z) (db : DB) : Z * DB :=
  match l with
  | [] => (sent, db)
  | profile :: rest =>
      if sent >=? remaining then (sent, db)
      else
        match sendConnectionRequest env db profile with
        | (Some _, db') => sendAll env remaining rest sent db'
        | (None, db') => sendAll env remaining rest (add64 sent 1) db'
        end
  end.

(** [SendConnectionRequests] (lines 261 to 324): the error returned, the
    number of requests sent and the database after the call. *)
Definition SendConnectionRequests (cfg : Config) (env : Env) (db : DB)
  : option string * Z * DB :=
  let found := getUncontactedProfiles db in
  if (List.length found =? 0)%nat then (None, 0, db)
  else
    let sentToday := getConnectionsSentToday env db in
    let remaining := sub64 (ConnectionConfig.DailyLimit (Connections cfg)) sentToday in
    if remaining <=? 0 then (Some "daily limit reached"%string, 0, db)
    else
      let '(sent, db') := sendAll env remaining found 0 db in
      (None, sent, db').


(** ** The vocabulary of the statements *)

(** *** Typing plans *)

(** The characters a typing plan commits, typo and backspace events dropped. *)
Fixpoint committed (plan : list event) : list rune :=
  match plan with
  | [] => []
  | EInput (Commit c) :: rest => c :: committed rest
  | _ :: rest => committed rest
  end.

(** The keystrokes of a plan, pauses dropped. *)
Fixpoint keystrokes (plan : list event) : list keystroke :=
  match plan with
  | [] => []
  | EInput k :: rest => k :: keystrokes rest
  | _ :: rest => keystrokes rest
  end.

(** The events of one character: the character, the typo and its correction
    when [typo] holds, and the pause; [d] is the delay of the character. *)
Definition typedBlock (c : rune) (d : Z) (typo : bool) : list event :=
  EInput (Commit c)
  :: (if typo then [EInput (Typo 120); ESleep d; EInput Backspace; ESleep d] else [])
  ++ [ESleep d].

(** One block per character, with the delay and the typo decision of each. *)
Definition typedBlocks (text : list rune) (ds : list (Z * bool)) : list event :=
  List.concat (map (fun p => typedBlock (fst p) (fst (snd p)) (snd (snd p))) (combine text ds)).

(** A delay [HumanType] can draw: [(n + min) ms] with [n] in [0, max - min). *)
Definition keystroke_delay_of (cfg : Config) (d : Z) : Prop :=
  exists n,
    0 <= n < sub64 (TypingConfig.MaxKeystrokeDelay (cfgTyping cfg))
                   (TypingConfig.MinKeystrokeDelay (cfgTyping cfg))
    /\ d = mul64 (add64 n (TypingConfig.MinKeystrokeDelay (cfgTyping cfg))) Millisecond.

(** A typo decision [HumanType] can take: [u < TypoProbability] for a [u]
    of [0.0, 1.0). *)
Definition typo_decision_of (cfg : Config) (b : bool) : Prop :=
  exists u : float,
    ((u <? 1)%float = true)
    /\ b = (u <? TypingConfig.TypoProbability (cfgTyping cfg))%float.

(** The order the specification describes: for each character of the text a
    typo, a backspace, and then the character. *)
Fixpoint typo_then_commit (ks : list keystroke) (text : list rune) : bool :=
  match text, ks with
  | [], [] => true
  | c :: rest, Typo _ :: Backspace :: Commit c' :: ks' => (c =? c') && typo_then_commit ks' rest
  | _, _ => false
  end.

(** The order of the code: the character, then a typo and a backspace. *)
Fixpoint commit_then_typo (ks : list keystroke) (text : list rune) : bool :=
  match text, ks with
  | [], [] => true
  | c :: rest, Commit c' :: Typo _ :: Backspace :: ks' => (c =? c') && commit_then_typo ks' rest
  | _, _ => false
  end.

(** *** Magnitudes

    A binary64 value [m * 2 ^ e] whose mantissa has [d] binary digits is
    below [2 ^ (d + e)] in magnitude: the sum [d + e] measures how large it
    is. *)

(** Zero, or finite and of magnitude below [2 ^ K]. *)
Definition sf_small (K : Z) (x : spec_float) : Prop :=
  match x with
  | S754_zero _ => True
  | S754_finite _ m e => Zpos (digits2_pos m) + e <= K
  | _ => False
  end.

(** Finite and of magnitude at least [2 ^ (L - 1)]. *)
Definition sf_big (L : Z) (y : spec_float) : Prop :=
  match y with
  | S754_finite _ m e => L <= Zpos (digits2_pos m) + e
  | _ => False
  end.

Definition smallb (K : Z) (x : float) : bool :=
  match Prim2SF x with
  | S754_zero _ => true
  | S754_finite _ m e => Zpos (digits2_pos m) + e <=? K
  | _ => false
  end.

(** A coordinate or a size of magnitude below [2 ^ 900]: every step of the
    arithmetic of [planCurves] on such values stays finite. *)
Definition moderate (x : float) : bool := smallb 900 x.

(** *** Trajectories *)

(** The events of a trajectory: each point, then its pause. *)
Definition trajectory (pts : list (float * float)) (ds : list Z) : list event :=
  List.concat (map (fun pd => [EMouseMove (fst (fst pd)) (snd (fst pd)); ESleep (snd pd)])
                   (combine pts ds)).

(** The points and the pauses of a list of events. *)
Fixpoint moves (trace : list event) : list (float * float) :=
  match trace with
  | [] => []
  | EMouseMove x y :: rest => (x, y) :: moves rest
  | _ :: rest => moves rest
  end.

Fixpoint sleeps (trace : list event) : list Z :=
  match trace with
  | [] => []
  | ESleep d :: rest => d :: sleeps rest
  | _ :: rest => sleeps rest
  end.

Definition finite_curve (c : curve) : bool :=
  finite (p_start c) && finite (p_cp1 c) && finite (p_cp2 c) && finite (p_target c).

(** The two curves [moveMouseToElement] draws at [r]. *)
Definition plannedCurves (box : Box) (w h : float) (r : Rand) : curve * curve :=
  match planCurves box w h r with
  | (_, Done cs _) => cs
  | (_, Panic _) =>
      let c := {| p_start := 0; p_cp1 := 0; p_cp2 := 0; p_target := 0 |} in (c, c)
  end.

(** The element's box and the viewport are of moderate size. *)
Definition moderate_input (box : Box) (w h : float) : bool :=
  moderate (X box) && moderate (Y box) && moderate (Width box) && moderate (Height box)
  && moderate w && moderate h.

(** A jitter the micro-correction can add to a coordinate: [(u - 0.5) * 2]
    for a draw [u] of [0.0, 1.0). *)
Definition jitter_of (j : float) : Prop :=
  exists u : float,
    (0 <=? u)%float = true /\ (u <? 1)%float = true /\ j = ((u - 0.5) * 2)%float.

(** A point the path can have at step [i] of [steps]: the point of the
    curves at [t = i / steps], or, with micro-corrections enabled, that
    point moved by a jitter on each coordinate. *)
Definition point_of (cfg : Config) (cx cy : curve) (steps i : Z) (p : float * float) : Prop :=
  let x := curve_at cx (stepParam i steps) in
  let y := curve_at cy (stepParam i steps) in
  p = (x, y)
  \/ (MouseMovementConfig.MicroCorrections (cfgMouse cfg) = true
      /\ exists jx jy : float,
           jitter_of jx /\ jitter_of jy /\ p = ((x + jx)%float, (y + jy)%float)).

(** A pause the path can take at step [i]: the pause of a base of 4 to 9 ms. *)
Definition pause_of (steps i : Z) (d : Z) : Prop :=
  exists b, 4 <= b <= 9 /\ d = stepSleep b (stepParam i steps).

(** The step counts and the bases [moveMouseToElement] can draw. *)
Definition stepsRange : list Z := map (Z.add 25) (upto 15).
Definition baseRange : list Z := map (Z.add 4) (upto 6).

(** [P] holds at every step of every path with every base. *)
Definition check_steps (P : Z -> Z -> Z -> bool) : bool :=
  forallb (fun steps =>
    forallb (fun i => forallb (fun b => P steps i b) baseRange) (upto (steps + 1)))
    stepsRange.

(** A pause of at least 2 ms and at most 11.7 ms. *)
Definition pause_in_bounds (steps i b : Z) : bool :=
  (2 * Millisecond <=? stepSleep b (stepParam i steps))
  && (stepSleep b (stepParam i steps) <=? 11700000).

(** The pause does not shrink from one step to the next, the base being
    the same. *)
Definition pause_grows (steps i b : Z) : bool :=
  (i =? steps)
  || (stepSleep b (stepParam i steps) <=? stepSleep b (stepParam (i + 1) steps)).

(** The parameter is 0 at the first step and 1 at the last. *)
Definition param_ends (steps : Z) : bool :=
  PrimFloat.Leibniz.eqb (stepParam 0 steps) 0 && PrimFloat.Leibniz.eqb (stepParam steps steps) 1.

(** *** Scroll plans *)

(** The events of the forward steps: each delta, then its pause. *)
Definition scrollEvents (sl : list (Z * Z)) : list event :=
  List.concat (map (fun ad => [EScrollBy (fst ad); ESleep (snd ad)]) sl).

(** The deltas of a list of events, and their sum. *)
Fixpoint scrolls (trace : list event) : list Z :=
  match trace with
  | [] => []
  | EScrollBy dy :: rest => dy :: scrolls rest
  | _ :: rest => scrolls rest
  end.

Definition total (l : list Z) : Z := fold_right Z.add 0 l.

(** A forward step [ScrollHumanLike] can take: the delta is the step size
    scaled by the variance of a draw [u] of [0.0, 1.0) and truncated, the
    pause lasts 50 to 249 ms. *)
Definition forward_step_of (cfg : Config) (stepSize : float) (ad : Z * Z) : Prop :=
  (exists u : float,
     (0 <=? u)%float = true /\ (u <? 1)%float = true
     /\ fst ad = trunc (stepSize
                        * (1 + (u - 0.5) * TimingConfig.ScrollSpeedVariance (cfgTiming cfg)))%float)
  /\ 50 * Millisecond <= snd ad <= 249 * Millisecond.

(** The step counts [ScrollHumanLike] can draw. *)
Definition scrollStepsRange : list Z := map (Z.add 5) (upto 10).

(** The step size [distance / steps], truncated, is the integer quotient. *)
Definition even_step (distance steps : Z) : bool :=
  trunc (Z2float distance / Z2float steps) =? distance / steps.

(** [even_step] holds for every distance from 0 to [bound] and every step
    count. *)
Definition check_even_steps (bound : Z) : bool :=
  forallb (fun d => forallb (even_step d) scrollStepsRange) (upto (bound + 1)).

(** *** The database *)

(** The database [SendConnectionRequests] leaves. *)
Definition dbAfter (run : option string * Z * DB) : DB := snd run.

(** ** Sample inputs

    The values are those the README documents: keystrokes of 50 to 200 ms
    with 5% of typos, hovers of 500 to 2000 ms, think time of 1 to 5
    seconds, scroll steps of 70 to 130% (a variance of 0.6) with 20% of
    scroll-backs, business hours from 9 to 17, a break probability of 10%. *)

Definition typingOf (lo hi : Z) (p : float) : TypingConfig.t :=
  {| TypingConfig.Enabled := true; TypingConfig.MinKeystrokeDelay := lo;
     TypingConfig.MaxKeystrokeDelay := hi; TypingConfig.TypoProbability := p |}.

Definition timingOf (lo hi : Z) (v : float) : TimingConfig.t :=
  {| TimingConfig.Enabled := true; TimingConfig.MinThinkTime := lo;
     TimingConfig.MaxThinkTime := hi; TimingConfig.ScrollSpeedVariance := v |}.

Definition hoveringOf (lo hi : Z) : HoveringConfig.t :=
  {| HoveringConfig.Enabled := true; HoveringConfig.HoverProbability := 0.4;
     HoveringConfig.HoverDurationMin := lo; HoveringConfig.HoverDurationMax := hi |}.

Definition configOf (typing : TypingConfig.t) (timing : TimingConfig.t)
           (hovering : HoveringConfig.t) (micro : bool) (scrollBack : float)
           (dailyLimit : Z) : Config :=
  {| Connections := {| ConnectionConfig.DailyLimit := dailyLimit;
                       ConnectionConfig.MinDelay := 2000;
                       ConnectionConfig.MaxDelay := 5000 |};
     Stealth :=
       {| StealthConfig.MouseMovement :=
            {| MouseMovementConfig.Enabled := true;
               MouseMovementConfig.BezierCurves := true;
               MouseMovementConfig.OvershootProbability := 0.1;
               MouseMovementConfig.MicroCorrections := micro |};
          StealthConfig.Timing := timing;
          StealthConfig.Scrolling :=
            {| ScrollingConfig.Enabled := true;
               ScrollingConfig.VariableSpeed := true;
               ScrollingConfig.ScrollBackProbability := scrollBack |};
          StealthConfig.Typing := typing;
          StealthConfig.Hovering := hovering;
          StealthConfig.Scheduling :=
            {| SchedulingConfig.Enabled := true;
               SchedulingConfig.BusinessHoursOnly := true;
               SchedulingConfig.StartHour := 9;
               SchedulingConfig.EndHour := 17;
               SchedulingConfig.BreakProbability := 0.1 |};
          StealthConfig.RateLimiting :=
            {| RateLimitingConfig.Enabled := true;
               RateLimitingConfig.ConnectionCooldown := 60000;
               RateLimitingConfig.MessageCooldown := 30000 |} |} |}.

(** The documented defaults, with a typo probability [p]. *)
Definition configTypo (p : float) : Config :=
  configOf (typingOf 50 200 p) (timingOf 1000 5000 0.6) (hoveringOf 500 2000) false 0.2 3.

(** The documented defaults, with micro-corrections on or off. *)
Definition configMicro (micro : bool) : Config :=
  configOf (typingOf 50 200 0.05) (timingOf 1000 5000 0.6) (hoveringOf 500 2000) micro 0.2 3.

(** The documented defaults, with a scroll speed variance [v] and a
    scroll-back probability [p]. *)
Definition configScroll (v p : float) : Config :=
  configOf (typingOf 50 200 0.05) (timingOf 1000 5000 v) (hoveringOf 500 2000) false p 3.

(** Every delay range degenerate: [max = min]. *)
Definition configDegenerate : Config :=
  configOf (typingOf 100 100 0.05) (timingOf 1000 1000 0.6) (hoveringOf 500 500) false 0.2 3.

(** A source that answers every call with the same draw. *)
Definition constantRand (n : Z) (u : float) : Rand :=
  {| draws := fun _ => {| raw := n; unit_float := u |}; pos := 0 |}.

(** A button of 50 by 20 pixels at (100, 200); the viewport of the samples
    is 1280 by 720. *)
Definition sampleBox : Box := {| X := 100; Y := 200; Width := 50; Height := 20 |}.

(** Five profiles, none contacted. *)
Definition sampleProfile (n : Z) : database.Profile :=
  {| database.ID := n; database.URL := "https://www.linkedin.com/in/p"; database.Name := "P" |}.

Definition sampleDB : DB :=
  {| profiles := map sampleProfile [1; 2; 3; 4; 5]; connection_requests := [] |}.

(** The environment at the timestamp [t] in which every request goes through. *)
Definition envAt (t : Z) : Env := {| now := t; send_ok := fun _ => true |}.

(** A daily limit of 3; two days, 14 and 15 November 2023 (UTC); and the
    database after the run of the first day. *)
Definition quotaConfig : Config := configTypo 0.05.
Definition day1 : Env := envAt 1700000000.
Definition day2 : Env := envAt 1700086400.
Definition dbDay1 : DB := dbAfter (SendConnectionRequests quotaConfig day1 sampleDB).


(** * The code around the claims

    What follows embeds the functions of pkg/stealth, pkg/connection and
    pkg/search that the definitions above leave out, and the caller
    [fillLoginForm] of pkg/auth.

    - A Go [string] is a sequence of bytes: a [string] of Rocq.
    - The sections of [config.Config] that the definitions above do not read
      ([Browser.Viewport], [Stealth.Fingerprint], [LinkedIn], [Search] and
      [Connections.DefaultNote]) are records and arguments of their own.
    - The functions of the standard library the code calls ([strings.Split],
      [strings.Contains], [strings.ReplaceAll], [url.QueryEscape],
      [url.Values]) follow their documentation.
    - What the browser shows (whether a navigation succeeds, the result
      pages of a search, the boxes of the buttons) is an argument; the
      queries to the database succeed, as above. *)

(** ** The standard library: strings *)

Module strings.

(** [strings.Contains(s, sep)] and [strings.Split(s, sep)] for a separator
    of one byte, which is how the code calls them (with [" "] and ["?"]). *)
Fixpoint Contains (s : string) (sep : ascii) : bool :=
  match s with
  | EmptyString => false
  | String c rest => Ascii.eqb c sep || Contains rest sep
  end.

Fixpoint Split (s : string) (sep : ascii) : list string :=
  match s with
  | EmptyString => [EmptyString]
  | String c rest =>
      if Ascii.eqb c sep then EmptyString :: Split rest sep
      else match Split rest sep with
           | part :: parts => String c part :: parts
           | [] => [String c EmptyString]
           end
  end.

(** [strings.ReplaceAll(s, old, new)] for a non-empty [old] (the code passes
    ["{name}"]): the occurrences of [old] are found from left to right and
    do not overlap.  [skip] counts the bytes of an occurrence still to pass. *)
Fixpoint replaceFrom (old new : string) (skip : nat) (s : string) : string :=
  match s with
  | EmptyString => EmptyString
  | String c rest =>
      match skip with
      | S k => replaceFrom old new k rest
      | O =>
          if prefix old s
          then (new ++ replaceFrom old new (String.length old - 1) rest)%string
          else String c (replaceFrom old new 0 rest)
      end
  end.

Definition ReplaceAll (s old new : string) : string := replaceFrom old new 0 s.

End strings.

(** ** The standard library: net/url *)

Module url.

Definition between (lo hi c : ascii) : bool := Ascii.leb lo c && Ascii.leb c hi.

(** [shouldEscape(c, encodeQueryComponent)]: everything but the letters, the
    digits and [-], [_], [.], [~]. *)
Definition shouldEscape (c : ascii) : bool :=
  negb (between "a" "z" c || between "A" "Z" c || between "0" "9" c
        || Ascii.eqb c "-" || Ascii.eqb c "_" || Ascii.eqb c "." || Ascii.eqb c "~").

(** ["0123456789ABCDEF"[n]]. *)
Definition upperhex (n : N) : ascii :=
  nth (N.to_nat n) (list_ascii_of_string "0123456789ABCDEF") "0"%char.

(** [url.QueryEscape(s)]: a space becomes [+], any other byte to escape
    becomes [%XX]. *)
Fixpoint QueryEscape (s : string) : string :=
  match s with
  | EmptyString => EmptyString
  | String c rest =>
      if shouldEscape c then
        if Ascii.eqb c " " then String "+" (QueryEscape rest)
        else String "%" (String (upperhex (N.shiftr (N_of_ascii c) 4))
                           (String (upperhex (N.land (N_of_ascii c) 15)) (QueryEscape rest)))
      else String c (QueryEscape rest)
  end.

(** [url.Values], a [map[string][]string]: one entry per key. *)
Definition Values := list (string * list string).

(** [v.Set(key, value)]: the key holds [value] alone. *)
Fixpoint SetValue (v : Values) (key value : string) : Values :=
  match v with
  | [] => [(key, [value])]
  | (k, vs) :: rest =>
      if String.eqb k key then (k, [value]) :: rest
      else (k, vs) :: SetValue rest key value
  end.

Definition lookup (v : Values) (key : string) : list string :=
  match find (fun kv => String.eqb (fst kv) key) v with
  | Some kv => snd kv
  | None => []
  end.

(** The keys, sorted as [slices.Sort] sorts strings (byte by byte). *)
Fixpoint insertKey (key : string) (keys : list string) : list string :=
  match keys with
  | [] => [key]
  | k :: rest => if String.leb key k then key :: keys else k :: insertKey key rest
  end.

Definition sortedKeys (v : Values) : list string := fold_right insertKey [] (map fst v).

(** [v.Encode()]: [key=value] for every value of every key, the keys
    sorted, joined with [&]. *)
Definition Encode (v : Values) : string :=
  String.concat "&"
    (flat_map (fun k => map (fun x => (QueryEscape k ++ "=" ++ QueryEscape x)%string)
                            (lookup v k))
              (sortedKeys v)).

End url.

(** ** pkg/config: the other sections *)

Module ViewportConfig.
Record t := { Width : Z; Height : Z }.
End ViewportConfig.

Module FingerprintConfig.
Record t := { Enabled : bool; RandomizeUserAgent : bool;
              RandomizeViewport : bool; DisableWebdriverFlag : bool }.
End FingerprintConfig.

Module LinkedInConfig.
Record t := { Email : string; Password : string; BaseURL : string }.
End LinkedInConfig.

Module SearchConfig.
Record t := { MaxResults : Z; ResultsPerPage : Z; PaginationDelay : Z }.
End SearchConfig.

(** ** pkg/stealth: Apply *)

(** What [Apply] does to the page. *)
Inductive setup :=
| SetViewport (width height : Z)   (* page.MustSetViewport(width, height, 1.0, false) *)
| Eval (script : string).          (* page.MustEval(script) *)

(** [applyFingerprintMasking] (lines 149 to 161).  The two draws are those
    of the package-level [rand.Intn], a source of its own: [g]. *)
Definition applyFingerprintMasking (fp : FingerprintConfig.t) (vp : ViewportConfig.t)
           (g : Rand) : list setup * Rand :=
  let '(resized, g2) :=
    if FingerprintConfig.RandomizeViewport fp then
      let width := sub64 (add64 (ViewportConfig.Width vp) (raw (current g) mod 100)) 50 in
      let g1 := next g in
      let height := sub64 (add64 (ViewportConfig.Height vp) (raw (current g1) mod 100)) 50 in
      ([SetViewport width height], next g1)
    else ([], g) in
  let flagged :=
    if FingerprintConfig.DisableWebdriverFlag fp
    then [Eval "Object.defineProperty(navigator, 'webdriver', {get: () => undefined})"]
    else [] in
  (resized ++ flagged, g2).

(** [applyTiming] (lines 167 to 169) does nothing. *)
Definition applyTiming : list setup := [].

(** [Apply] (lines 30 to 44): the error returned ([None] is [nil]), what was
    done to the page and the package-level source after it.  The branch of
    [MouseMovement.Enabled] is empty. *)
Definition Apply (cfg : Config) (fp : FingerprintConfig.t) (vp : ViewportConfig.t)
           (g : Rand) : option string * list setup * Rand :=
  let '(masked, g') :=
    if FingerprintConfig.Enabled fp then applyFingerprintMasking fp vp g else ([], g) in
  let timed := if TimingConfig.Enabled (cfgTiming cfg) then applyTiming else [] in
  (None, masked ++ timed, g').

(** ** pkg/auth: fillLoginForm *)

(** [fillLoginForm] (lines 138 to 155 of pkg/auth/auth.go): the e-mail and
    the password are typed, then the sign-in button, whose box is [signIn],
    is clicked. *)
Definition fillLoginForm (cfg : Config) (email password : list rune)
           (signIn : Box) (w h : float) : M unit :=
  HumanType cfg email ;;
  HumanType cfg password ;;
  HumanClick cfg signIn w h.

(** ** pkg/connection: the note *)

(** [extractFirstName] (lines 389 to 395). *)
Definition extractFirstName (fullName : string) : string :=
  match strings.Split fullName " " with
  | first :: _ => first
  | [] => fullName
  end.

(** [generatePersonalizedNote] (lines 380 to 387); [defaultNote] is
    [config.Connections.DefaultNote]. *)
Definition generatePersonalizedNote (defaultNote : string) (profile : database.Profile)
  : string :=
  strings.ReplaceAll defaultNote "{name}" (extractFirstName (database.Name profile)).

(** ** pkg/search *)

Module SearchParams.
Record t := { JobTitle : string; Location : string; Keywords : string }.
End SearchParams.

Module search.
(** The fields of [Profile] the package sets. *)
Record Profile := { URL : string; Name : string; Headline : string;
                    Location : string; FoundAt : Z }.
End search.

(** [getLocationURN] (lines 605 to 609). *)
Definition getLocationURN (location : string) : string := "urn:li:geo:103644278".

(** The [queryParams] of [buildSearchURL] (lines 586 to 600). *)
Definition searchValues (params : SearchParams.t) : url.Values :=
  let queryParams : url.Values := [] in
  let queryParams :=
    if negb (String.eqb (SearchParams.Keywords params) "")
    then url.SetValue queryParams "keywords" (SearchParams.Keywords params)
    else queryParams in
  let queryParams :=
    if negb (String.eqb (SearchParams.JobTitle params) "")
    then url.SetValue queryParams "title" (SearchParams.JobTitle params)
    else queryParams in
  let queryParams :=
    if negb (String.eqb (SearchParams.Location params) "")
    then url.SetValue queryParams "geoUrn" (getLocationURN (SearchParams.Location params))
    else queryParams in
  url.SetValue queryParams "origin" "SWITCH_SEARCH_VERTICAL".

(** [buildSearchURL] (lines 583 to 603). *)
Definition buildSearchURL (li : LinkedInConfig.t) (params : SearchParams.t) : string :=
  let baseURL := (LinkedInConfig.BaseURL li ++ "/search/results/people/")%string in
  (baseURL ++ "?" ++ url.Encode (searchValues params))%string.

(** The clean-up of the link of a card in [extractProfileFromCard] (lines
    643 to 648). *)
Definition cleanURL (href : string) : string :=
  if strings.Contains href "?" then nth 0 (strings.Split href "?") EmptyString
  else href.

(** [profileExists] (lines 688 to 693). *)
Definition profileExists (db : DB) (u : string) : bool :=
  0 <? Z.of_nat (List.length (filter (fun p => String.eqb (database.URL p) u) (profiles db))).

(** The [id] of a new row ([INTEGER PRIMARY KEY AUTOINCREMENT], no row being
    ever deleted). *)
Definition nextID (db : DB) : Z := 1 + fold_right Z.max 0 (map database.ID (profiles db)).

(** [saveProfile] (lines 695 to 703): [ON CONFLICT(url) DO NOTHING]. *)
Definition saveProfile (db : DB) (profile : search.Profile) : DB :=
  if existsb (fun p => String.eqb (database.URL p) (search.URL profile)) (profiles db)
  then db
  else {| profiles := profiles db
                      ++ [{| database.ID := nextID db;
                             database.URL := search.URL profile;
                             database.Name := search.Name profile |}];
          connection_requests := connection_requests db |}.

(** The result pages of a search: what [extractProfilesFromPage] finds on
    each, and the box of the [Next] button between two of them
    ([hasNextPage] holds on every page but the last). *)
Inductive results :=
| LastPage (cards : list search.Profile)
| MorePages (cards : list search.Profile) (nextButton : Box) (rest : results).

Definition cardsOf (site : results) : list search.Profile :=
  match site with
  | LastPage cards => cards
  | MorePages cards _ _ => cards
  end.

(** What the browser answers during a search, and the clock. *)
Record SearchEnv := { navigate_error : option string;
                      site : results;
                      innerWidth : float;
                      innerHeight : float;
                      foundAt : Z }.

(** The inner loop of [SearchProfiles] (lines 537 to 557). *)
Fixpoint collectProfiles (sc : SearchConfig.t) (env : SearchEnv)
         (pageProfiles : list search.Profile) (profiles : list search.Profile) (db : DB)
  : list search.Profile * DB :=
  match pageProfiles with
  | [] => (profiles, db)
  | profile :: rest =>
      if Z.of_nat (List.length profiles) >=? SearchConfig.MaxResults sc then (profiles, db)
      else if profileExists db (search.URL profile)
      then collectProfiles sc env rest profiles db
      else
        let profile := {| search.URL := search.URL profile;
                          search.Name := search.Name profile;
                          search.Headline := search.Headline profile;
                          search.Location := search.Location profile;
                          search.FoundAt := foundAt env |} in
        collectProfiles sc env rest (profiles ++ [profile]) (saveProfile db profile)
  end.

(** The outer loop of [SearchProfiles] (lines 521 to 574); [goToNextPage]
    (lines 679 to 686) clicks the [Next] button. *)
Fixpoint searchPages (cfg : Config) (sc : SearchConfig.t) (env : SearchEnv)
         (pages : results) (profiles : list search.Profile) (db : DB)
  : M (list search.Profile * DB) :=
  if Z.of_nat (List.length profiles) <? SearchConfig.MaxResults sc then
    let '(profiles, db) := collectProfiles sc env (cardsOf pages) profiles db in
    match pages with
    | LastPage _ => ret (profiles, db)
    | MorePages _ nextButton rest =>
        HumanClick cfg nextButton (innerWidth env) (innerHeight env) ;;
        Sleep (mul64 (SearchConfig.PaginationDelay sc) Millisecond) ;;
        searchPages cfg sc env rest profiles db
    end
  else ret (profiles, db).

(** [SearchProfiles] (lines 497 to 581): the error, the profiles returned
    and the database after the call. *)
Definition SearchProfiles (cfg : Config) (sc : SearchConfig.t) (env : SearchEnv) (db : DB)
  : M (option string * list search.Profile * DB) :=
  match navigate_error env with
  | Some err => ret (Some ("failed to navigate to search page: " ++ err)%string, [], db)
  | None =>
      ScrollHumanLike cfg 1000 ;;
      RandomDelay cfg ;;
      found <- searchPages cfg sc env (site env) [] db ;;
      ret (None, fst found, snd found)
  end.

(** ** The vocabulary of the further statements *)

(** The hover duration range is one [rng.Intn] accepts, or hovering is off. *)
Definition hover_range_ok (cfg : Config) : Prop :=
  HoveringConfig.Enabled (cfgHovering cfg) = false
  \/ 0 < sub64 (HoveringConfig.HoverDurationMax (cfgHovering cfg))
               (HoveringConfig.HoverDurationMin (cfgHovering cfg)).

(** The keystroke delay range is one [rng.Intn] accepts, or typing is off. *)
Definition typing_range_ok (cfg : Config) : Prop :=
  TypingConfig.Enabled (cfgTyping cfg) = false
  \/ 0 < sub64 (TypingConfig.MaxKeystrokeDelay (cfgTyping cfg))
               (TypingConfig.MinKeystrokeDelay (cfgTyping cfg)).

(** The think time range is one [rng.Intn] accepts once [RandomDelay] has
    normalized it, or timing is off: [max - min] fits an [int]. *)
Definition timing_range_ok (cfg : Config) : Prop :=
  TimingConfig.Enabled (cfgTiming cfg) = false
  \/ TimingConfig.MaxThinkTime (cfgTiming cfg) - TimingConfig.MinThinkTime (cfgTiming cfg)
     < 2 ^ 63.

(** The number of clicks of a list of events. *)
Fixpoint clicks (trace : list event) : nat :=
  match trace with
  | [] => O
  | EClick :: rest => S (clicks rest)
  | _ :: rest => clicks rest
  end.

(** An event of the pointer: a move or a pause. *)
Definition pointerOnly (e : event) : bool :=
  match e with
  | EMouseMove _ _ | ESleep _ => true
  | _ => false
  end.

(** What [HumanType] does after the focus: one block per character with
    typing enabled, the characters alone with typing disabled. *)
Definition typedText (cfg : Config) (text : list rune) (ds : list (Z * bool)) : list event :=
  if TypingConfig.Enabled (cfgTyping cfg) then typedBlocks text ds
  else map (fun c => EInput (Commit c)) text.

(** The keystrokes of a text typed with the typo decisions [typos]: each
    character and, where a typo was drawn, the wrong character (rune 120)
    and the backspace right after it. *)
Definition typedKeys (text : list rune) (typos : list bool) : list keystroke :=
  List.concat (map (fun ct : rune * bool =>
                      Commit (fst ct) :: (if snd ct then [Typo 120; Backspace] else []))
                   (combine text typos)).

(** The row [saveConnectionRequest] writes for a request sent to [p]. *)
Definition sentRow (env : Env) (p : database.Profile) : ConnectionRequestRow :=
  {| profile_id := database.ID p; status := "sent"; sent_at := now env |}.

(** The database with further rows in the table of requests. *)
Definition withRequests (db : DB) (rows : list ConnectionRequestRow) : DB :=
  {| profiles := profiles db; connection_requests := connection_requests db ++ rows |}.

(** The parameters of the search URL, in the order of the query: the key
    and the escaped value of each. *)
Definition searchPairs (params : SearchParams.t) : list (string * string) :=
  (if String.eqb (SearchParams.Location params) "" then []
   else [("geoUrn", "urn%3Ali%3Ageo%3A103644278")%string])
  ++ (if String.eqb (SearchParams.Keywords params) "" then []
      else [("keywords"%string, url.QueryEscape (SearchParams.Keywords params))])
  ++ [("origin", "SWITCH_SEARCH_VERTICAL")%string]
  ++ (if String.eqb (SearchParams.JobTitle params) "" then []
      else [("title"%string, url.QueryEscape (SearchParams.JobTitle params))]).

Definition pairText (kv : string * string) : string := (fst kv ++ "=" ++ snd kv)%string.

(** The row of the table of profiles holds the profile a search found. *)
Definition savedAs (row : database.Profile) (p : search.Profile) : Prop :=
  database.URL row = search.URL p /\ database.Name row = search.Name p.

(** The state of a search that started from the database [db0]: the
    profiles found so far are saved, one row each, after the rows of [db0];
    their URLs are distinct and new to [db0]; they are at most
    [MaxResults]. *)
Record collected (sc : SearchConfig.t) (db0 : DB)
       (found : list search.Profile) (db : DB) : Prop :=
  { col_rows : exists rows : list database.Profile,
      profiles db = profiles db0 ++ rows /\ Forall2 savedAs rows found;
    col_requests : connection_requests db = connection_requests db0;
    col_distinct : NoDup (map search.URL found);
    col_new : Forall (fun p => profileExists db0 (search.URL p) = false) found;
    col_bound : Z.of_nat (List.length found) <= Z.max 0 (SearchConfig.MaxResults sc) }.

(** A byte [url.QueryEscape] lets through or produces. *)
Definition querySafe (c : ascii) : bool :=
  negb (url.shouldEscape c) || Ascii.eqb c "+" || Ascii.eqb c "%".

(** ** Further sample inputs *)

(** Hovering and typing disabled, the rest as documented. *)
Definition configPlain : Config :=
  configOf {| TypingConfig.Enabled := false; TypingConfig.MinKeystrokeDelay := 100;
              TypingConfig.MaxKeystrokeDelay := 100; TypingConfig.TypoProbability := 0.05 |}
           (timingOf 1000 5000 0.6)
           {| HoveringConfig.Enabled := false; HoveringConfig.HoverProbability := 0.4;
              HoveringConfig.HoverDurationMin := 500; HoveringConfig.HoverDurationMax := 500 |}
           false 0.2 3.

(** Business hours from 22 to 6. *)
Definition configNight : Config :=
  {| Connections := Connections (configTypo 0.05);
     Stealth :=
       {| StealthConfig.MouseMovement := cfgMouse (configTypo 0.05);
          StealthConfig.Timing := cfgTiming (configTypo 0.05);
          StealthConfig.Scrolling := cfgScrolling (configTypo 0.05);
          StealthConfig.Typing := cfgTyping (configTypo 0.05);
          StealthConfig.Hovering := cfgHovering (configTypo 0.05);
          StealthConfig.Scheduling :=
            {| SchedulingConfig.Enabled := true;
               SchedulingConfig.BusinessHoursOnly := true;
               SchedulingConfig.StartHour := 22;
               SchedulingConfig.EndHour := 6;
               SchedulingConfig.BreakProbability := 0.1 |};
          StealthConfig.RateLimiting := cfgRate (configTypo 0.05) |} |}.

Definition sampleFingerprint : FingerprintConfig.t :=
  {| FingerprintConfig.Enabled := true; FingerprintConfig.RandomizeUserAgent := true;
     FingerprintConfig.RandomizeViewport := true;
     FingerprintConfig.DisableWebdriverFlag := true |}.

Definition sampleViewport : ViewportConfig.t :=
  {| ViewportConfig.Width := 1280; ViewportConfig.Height := 720 |}.

Definition sampleLinkedIn : LinkedInConfig.t :=
  {| LinkedInConfig.Email := "a@b.c"; LinkedInConfig.Password := "secret";
     LinkedInConfig.BaseURL := "https://www.linkedin.com" |}.

(** The search of [runSearch] in main.go. *)
Definition sampleParams : SearchParams.t :=
  {| SearchParams.JobTitle := "Software Engineer"; SearchParams.Location := "San Francisco";
     SearchParams.Keywords := "Python Go" |}.

Definition sampleSearchConfig (maxResults : Z) : SearchConfig.t :=
  {| SearchConfig.MaxResults := maxResults; SearchConfig.ResultsPerPage := 10;
     SearchConfig.PaginationDelay := 2000 |}.

Definition card (u name : string) : search.Profile :=
  {| search.URL := u; search.Name := name; search.Headline := "Engineer";
     search.Location := "Paris"; search.FoundAt := 0 |}.

(** Two result pages; the profile [/in/b] shows on both. *)
Definition sampleSite : results :=
  MorePages [card "/in/a" "A"; card "/in/b" "B"] sampleBox
            (LastPage [card "/in/b" "B"; card "/in/c" "C"; card "/in/d" "D"]).

Definition sampleSearchEnv : SearchEnv :=
  {| navigate_error := None; site := sampleSite;
     innerWidth := 1280; innerHeight := 720; foundAt := 1700000000 |}.

(** The five sample profiles, each sent a request on the first day. *)
Definition dbContacted : DB := withRequests sampleDB (map (sentRow day1) (profiles sampleDB)).

(** A profile named John Smith. *)
Definition johnSmith : database.Profile :=
  {| database.ID := 1; database.URL := "/in/js"; database.Name := "John Smith" |}.

(** * Properties *)

(** ** Machine integers *)


Lemma wrap64_id (z : Z) : - 2 ^ 63 <= z < 2 ^ 63 -> wrap64 z = z.
Proof.
  intros Hz. unfold wrap64. rewrite Z.mod_small by lia. lia.
Qed.

Lemma wrap64_congruent (z : Z) : exists k, wrap64 z = z + k * 2 ^ 64.
Proof.
  exists (- ((z + 2 ^ 63) / 2 ^ 64)). unfold wrap64.
  rewrite (Z.mod_eq (z + 2 ^ 63) (2 ^ 64)) by lia. lia.
Qed.

Lemma wrap64_shift (z k : Z) : wrap64 (z + k * 2 ^ 64) = wrap64 z.
Proof.
  unfold wrap64. replace (z + k * 2 ^ 64 + 2 ^ 63) with (z + 2 ^ 63 + k * 2 ^ 64) by lia.
  rewrite Z_mod_plus_full. reflexivity.
Qed.

Lemma sub64_succ (lo : Z) : sub64 (add64 lo 1) lo = 1.
Proof.
  unfold sub64, add64. destruct (wrap64_congruent (lo + 1)) as [k ->].
  replace (lo + 1 + k * 2 ^ 64 - lo) with (1 + k * 2 ^ 64) by lia.
  rewrite wrap64_shift. reflexivity.
Qed.

Lemma sub64_positive (hi lo : Z) :
  int64_range hi -> int64_range lo -> lo < hi -> hi - lo < 2 ^ 63 -> 0 < sub64 hi lo.
Proof.
  unfold int64_range, sub64. intros Hhi Hlo Hlt Hfit. rewrite wrap64_id; lia.
Qed.

Lemma sub64_not_positive (hi lo : Z) :
  int64_range hi -> int64_range lo -> hi <= lo -> lo - hi <= 2 ^ 63 -> sub64 hi lo <= 0.
Proof.
  unfold int64_range, sub64. intros Hhi Hlo Hle Hfit. rewrite wrap64_id; lia.
Qed.

(** ** Runs *)

Lemma run_bind {A B} (m : M A) (f : A -> M B) (r : Rand) :
  bind m f r =
  match m r with
  | (t1, Done a r1) => (t1 ++ fst (f a r1), snd (f a r1))
  | (t1, Panic msg) => (t1, Panic msg)
  end.
Proof.
  unfold bind. destruct (m r) as [t1 [a r1|msg]]; [destruct (f a r1)|]; reflexivity.
Qed.

Lemma run_Intn (n : Z) (r : Rand) :
  0 < n -> Intn n r = ([], Done (raw (current r) mod n) (next r)).
Proof.
  intros Hn. unfold Intn. destruct (Z.leb_spec n 0); [lia | reflexivity].
Qed.

Lemma run_Intn_panics (n : Z) (r : Rand) :
  n <= 0 -> Intn n r = ([], Panic "invalid argument to Intn").
Proof.
  intros Hn. unfold Intn. destruct (Z.leb_spec n 0); [reflexivity | lia].
Qed.

Lemma Intn_range (n : Z) (r : Rand) :
  0 < n -> 0 <= raw (current r) mod n < n.
Proof. intros Hn. apply Z.mod_pos_bound; assumption. Qed.

Lemma run_Float64 (r : Rand) : Float64 r = ([], Done (unit_draw r) (next r)).
Proof. reflexivity. Qed.

Lemma unit_draw_lt_1 (r : Rand) : (unit_draw r <? 1)%float = true.
Proof.
  unfold unit_draw.
  destruct ((0 <=? unit_float (current r))%float && (unit_float (current r) <? 1)%float) eqn:E.
  - apply andb_true_iff in E. apply E.
  - reflexivity.
Qed.

Lemma unit_draw_ge_0 (r : Rand) : (0 <=? unit_draw r)%float = true.
Proof.
  unfold unit_draw.
  destruct ((0 <=? unit_float (current r))%float && (unit_float (current r) <? 1)%float) eqn:E.
  - apply andb_true_iff in E. apply E.
  - reflexivity.
Qed.

(** One call of the code under a [bind]: a draw of the random source, or an
    event. *)
Ltac draw_float := rewrite run_bind, run_Float64; cbn [fst snd app].
Ltac draw_int := rewrite run_bind, run_Intn by lia; cbn [fst snd app].
Ltac do_emit := rewrite run_bind; unfold emit at 1; cbn [fst snd app].

(** ** binary64 arithmetic

    The facts below are read off the specification of the IEEE operations
    ([SpecFloat]): multiplying by one and adding a zero are exact. *)

Lemma digits_shift52 (m : positive) :
  Zpos (digits2_pos (4503599627370496 * m)) = Zpos (digits2_pos m) + 52.
Proof.
  cbn [Pos.mul digits2_pos]. rewrite !Pos2Z.inj_succ. lia.
Qed.

Lemma SFmul_one_l (s : bool) (m : positive) (e : Z) :
  bounded prec emax m e = true ->
  SFmul prec emax (S754_finite false 4503599627370496 (-52)) (S754_finite s m e)
  = S754_finite s m e.
Proof.
  intros Hb. apply andb_true_iff in Hb. destruct Hb as [Hc He].
  unfold canonical_mantissa in Hc. apply Z.eqb_eq in Hc. apply Z.leb_le in He.
  unfold SFmul. cbn [xorb]. unfold binary_round_aux.
  unfold shr_fexp at 1. unfold Zdigits2 at 1. rewrite digits_shift52.
  replace (Z.pos (digits2_pos m) + 52 + (-52 + e)) with (Z.pos (digits2_pos m) + e) by lia.
  rewrite Hc. replace (e - (-52 + e)) with 52 by lia.
  unfold shr_record_of_loc, shr.
  cbn [Pos.mul iter_pos shr_1 orb].
  cbn [shr_m loc_of_shr_record round_nearest_even].
  unfold shr_fexp, Zdigits2.
  replace (-52 + e + 52) with e by lia.
  rewrite Hc, Z.sub_diag. cbn [shr_record_of_loc shr shr_m].
  unfold emax, prec in *. destruct (Z.leb_spec e (1024 - 53)); [reflexivity | lia].
Qed.

Lemma mul_one_l (x : float) : (1 * x)%float = x.
Proof.
  apply Prim2SF_inj. rewrite mul_spec.
  pose proof (Prim2SF_valid x) as Hv.
  change (Prim2SF 1) with (S754_finite false 4503599627370496 (-52)).
  destruct (Prim2SF x) as [s|s| |s m e]; try reflexivity.
  apply SFmul_one_l. exact Hv.
Qed.

Lemma mul_zero_l (z x : float) :
  is_zero z = true -> finite x = true -> is_zero (z * x) = true.
Proof.
  unfold is_zero, finite. rewrite mul_spec.
  destruct (Prim2SF z), (Prim2SF x); intros; try discriminate; reflexivity.
Qed.

Lemma add_zeros (a b : float) :
  is_zero a = true -> is_zero b = true -> is_zero (a + b) = true.
Proof.
  unfold is_zero. rewrite add_spec.
  destruct (Prim2SF a) as [[|]| | |], (Prim2SF b) as [[|]| | |];
    intros; try discriminate; reflexivity.
Qed.

Lemma add_zero_r (x z : float) :
  finite x = true -> is_zero z = true -> same_value (x + z) x.
Proof.
  intros Hx Hz. unfold same_value.
  destruct (is_zero x) eqn:Hx0.
  - right. split; [apply add_zeros; assumption | reflexivity].
  - left. apply Prim2SF_inj. rewrite add_spec.
    unfold is_zero, finite in *.
    destruct (Prim2SF z), (Prim2SF x); try discriminate; reflexivity.
Qed.

Lemma add_zero_l (z x : float) :
  is_zero z = true -> finite x = true -> same_value (z + x) x.
Proof.
  intros Hz Hx. unfold same_value.
  destruct (is_zero x) eqn:Hx0.
  - right. split; [apply add_zeros; assumption | reflexivity].
  - left. apply Prim2SF_inj. rewrite add_spec.
    unfold is_zero, finite in *.
    destruct (Prim2SF z), (Prim2SF x); try discriminate; reflexivity.
Qed.

Lemma same_value_add_zero (a x z : float) :
  same_value a x -> finite x = true -> is_zero z = true -> same_value (a + z) x.
Proof.
  intros [-> | [Ha Hx0]] Hx Hz.
  - apply add_zero_r; assumption.
  - right. split; [apply add_zeros; assumption | assumption].
Qed.

(** Values that are the same are equal for Go's [==]. *)
Lemma same_value_eqb (x y : float) :
  same_value x y -> finite y = true -> (x =? y)%float = true.
Proof.
  intros [-> | [Hx Hy]] Hfin; rewrite eqb_spec.
  - unfold finite in Hfin. unfold SFeqb.
    destruct (Prim2SF y) as [s|s| |s m e]; try discriminate; [reflexivity|].
    cbn [SFcompare]. rewrite Z.compare_refl, Pos.compare_cont_refl.
    destruct s; reflexivity.
  - unfold is_zero in *.
    destruct (Prim2SF x), (Prim2SF y); try discriminate; reflexivity.
Qed.

(** A draw of [Float64] is never below zero. *)
Lemma unit_draw_not_neg (r : Rand) : (unit_draw r <? 0)%float = false.
Proof.
  pose proof (unit_draw_ge_0 r) as H. revert H.
  rewrite leb_spec, ltb_spec. unfold SFleb, SFltb.
  change (Prim2SF 0) with (S754_zero false).
  destruct (Prim2SF (unit_draw r)) as [s|[|]| |[|] m e]; cbn; intros; congruence.
Qed.

(** ** Magnitudes of binary64 values

    No operation of [planCurves] overflows on values of moderate size.  The
    bounds below follow the rounding of [SpecFloat] step by step: the
    exponent [d + e] of a result is bounded by that of the operands. *)

(** The number of binary digits of a mantissa. *)
Lemma digits2_pos_bounds (p : positive) :
  2 ^ (Zpos (digits2_pos p) - 1) <= Zpos p < 2 ^ Zpos (digits2_pos p).
Proof.
  induction p as [p IH | p IH |]; cbn [digits2_pos].
  - rewrite Pos2Z.inj_succ.
    replace (Z.succ (Z.pos (digits2_pos p)) - 1) with (Z.succ (Z.pos (digits2_pos p) - 1)) by lia.
    rewrite !Z.pow_succ_r by lia. lia.
  - rewrite Pos2Z.inj_succ.
    replace (Z.succ (Z.pos (digits2_pos p)) - 1) with (Z.succ (Z.pos (digits2_pos p) - 1)) by lia.
    rewrite !Z.pow_succ_r by lia. lia.
  - cbn. lia.
Qed.

Lemma Zdigits2_nonneg (m : Z) : 0 <= m -> 0 <= Zdigits2 m.
Proof. destruct m; cbn; lia. Qed.

Lemma Zdigits2_lt_pow (m k : Z) : 0 <= m -> 0 <= k -> m < 2 ^ k -> Zdigits2 m <= k.
Proof.
  intros Hm Hk Hlt. destruct m as [|p|p]; cbn; try lia.
  pose proof (digits2_pos_bounds p) as [Hlo _].
  destruct (Z.le_gt_cases (Zpos (digits2_pos p)) k) as [|Hgt]; [assumption|].
  assert (2 ^ k <= 2 ^ (Zpos (digits2_pos p) - 1)) by (apply Z.pow_le_mono_r; lia).
  lia.
Qed.

Lemma Zdigits2_pow_gt (m : Z) : 0 <= m -> m < 2 ^ Zdigits2 m.
Proof.
  intros Hm. destruct m as [|p|p]; cbn; try lia.
  apply digits2_pos_bounds.
Qed.

Lemma Zdigits2_succ (m : Z) : 0 <= m -> Zdigits2 (m + 1) <= Zdigits2 m + 1.
Proof.
  intros Hm. pose proof (Zdigits2_pow_gt m Hm). pose proof (Zdigits2_nonneg m Hm).
  apply Zdigits2_lt_pow; try lia.
  rewrite Z.pow_add_r by lia. change (2 ^ 1) with 2. lia.
Qed.

(** Right shifts: each takes one digit away. *)
Lemma shr_1_digits (mrs : shr_record) :
  0 <= shr_m mrs ->
  0 <= shr_m (shr_1 mrs)
  /\ (shr_m (shr_1 mrs) = 0 \/ Zdigits2 (shr_m (shr_1 mrs)) + 1 = Zdigits2 (shr_m mrs)).
Proof.
  destruct mrs as [m r s]. cbn [shr_m]. intros Hm.
  destruct m as [|[p|p|]|p]; cbn; lia.
Qed.

Lemma iter_pos_shr_1_digits (n : positive) (mrs : shr_record) :
  0 <= shr_m mrs ->
  0 <= shr_m (iter_pos shr_1 n mrs)
  /\ (shr_m (iter_pos shr_1 n mrs) = 0
      \/ Zdigits2 (shr_m (iter_pos shr_1 n mrs)) + Zpos n = Zdigits2 (shr_m mrs)).
Proof.
  revert mrs. induction n as [n IH | n IH |]; intros mrs Hm; cbn [iter_pos].
  - destruct (shr_1_digits mrs Hm) as [H1 D1].
    destruct (IH _ H1) as [H2 D2]. destruct (IH _ H2) as [H3 D3].
    split; [assumption|].
    destruct D3 as [|D3]; [left; assumption|].
    destruct D2 as [D2|D2].
    { rewrite D2 in D3. cbn in D3. pose proof (Zdigits2_nonneg _ H3). lia. }
    destruct D1 as [D1|D1].
    { rewrite D1 in D2. cbn in D2. pose proof (Zdigits2_nonneg _ H2). lia. }
    right. lia.
  - destruct (IH _ Hm) as [H2 D2]. destruct (IH _ H2) as [H3 D3].
    split; [assumption|].
    destruct D3 as [|D3]; [left; assumption|].
    destruct D2 as [D2|D2].
    { rewrite D2 in D3. cbn in D3. pose proof (Zdigits2_nonneg _ H3). lia. }
    right. lia.
  - destruct (shr_1_digits mrs Hm) as [H1 D1]. split; [assumption|].
    destruct D1; [left|right]; assumption.
Qed.

Lemma shr_record_of_loc_m (m : Z) (l : location) : shr_m (shr_record_of_loc m l) = m.
Proof. destruct l as [|[| |]]; reflexivity. Qed.

(** shr_fexp: the mantissa stays non-negative, digits + exponent does not grow,
    and the exponent is [max e (fexp ...)]. *)
Lemma shr_fexp_digits (m e : Z) (l : location) :
  0 <= m ->
  let '(mrs, e') := shr_fexp prec emax m e l in
  0 <= shr_m mrs
  /\ (shr_m mrs = 0 \/ Zdigits2 (shr_m mrs) + e' = Zdigits2 m + e)
  /\ e' = Z.max e (fexp prec emax (Zdigits2 m + e)).
Proof.
  intros Hm. unfold shr_fexp, shr.
  destruct (fexp prec emax (Zdigits2 m + e) - e) as [|n|n] eqn:En.
  - rewrite shr_record_of_loc_m. split; [assumption|]. split; [right; reflexivity | lia].
  - pose proof (iter_pos_shr_1_digits n (shr_record_of_loc m l)) as H.
    rewrite shr_record_of_loc_m in H. destruct (H Hm) as [H1 D1].
    split; [assumption|]. split; [|lia].
    destruct D1 as [|D1]; [left; assumption | right; lia].
  - rewrite shr_record_of_loc_m. split; [assumption|]. split; [right; reflexivity | lia].
Qed.

(** Rounding adds at most one to the mantissa. *)
Lemma round_nearest_even_bounds (m : Z) (l : location) :
  0 <= m -> m <= round_nearest_even m l <= m + 1.
Proof.
  intros Hm. destruct l as [|[| |]]; cbn; try lia. destruct (Z.even m); lia.
Qed.

Lemma Zdigits2_mono (a b : Z) : 0 <= a <= b -> Zdigits2 a <= Zdigits2 b.
Proof.
  intros [Ha Hab]. pose proof (Zdigits2_pow_gt b ltac:(lia)).
  apply Zdigits2_lt_pow; try lia. apply Zdigits2_nonneg. lia.
Qed.

Lemma fexp_le (a K : Z) : a <= K -> K <= 1024 -> fexp prec emax a <= 971.
Proof. unfold fexp, emin, prec, emax. lia. Qed.

(** Rounding a value below [2 ^ K] gives a value below [2 ^ (K + 1)]. *)
Lemma binary_round_aux_small (s : bool) (m e : Z) (l : location) (K : Z) :
  0 <= m -> Zdigits2 m + e <= K -> e <= 971 -> -1074 <= K <= 1023 ->
  sf_small (K + 1) (binary_round_aux prec emax s m e l).
Proof.
  intros Hm HK He HK'. unfold binary_round_aux.
  pose proof (shr_fexp_digits m e l Hm) as H1.
  destruct (shr_fexp prec emax m e l) as [mrs' e'].
  destruct H1 as (Hm' & D1 & E1).
  set (m1 := round_nearest_even (shr_m mrs') (loc_of_shr_record mrs')).
  pose proof (round_nearest_even_bounds (shr_m mrs') (loc_of_shr_record mrs') Hm') as Hr.
  fold m1 in Hr.
  assert (Hm1 : 0 <= m1) by lia.
  assert (HK1 : Zdigits2 m1 + e' <= K + 1).
  { pose proof (Zdigits2_mono m1 (shr_m mrs' + 1) ltac:(lia)).
    pose proof (Zdigits2_succ (shr_m mrs') Hm').
    destruct D1 as [D1|D1].
    - rewrite D1 in *. cbn in *.
      assert (e' <= K)
        by (pose proof (Zdigits2_nonneg m Hm); unfold fexp, emin, prec, emax in E1; lia).
      lia.
    - lia. }
  assert (He' : e' <= 971).
  { rewrite E1. apply Z.max_lub; [lia|]. apply (fexp_le _ K); lia. }
  pose proof (shr_fexp_digits m1 e' loc_Exact Hm1) as H2.
  destruct (shr_fexp prec emax m1 e' loc_Exact) as [mrs'' e''].
  destruct H2 as (Hm'' & D2 & E2).
  destruct (shr_m mrs'') as [|p|p] eqn:Ep; [exact I | | lia].
  assert (He'' : e'' <= 971).
  { rewrite E2. apply Z.max_lub; [lia|]. apply (fexp_le _ (K + 1)); lia. }
  destruct (Z.leb_spec e'' (emax - prec)) as [_|Hbad]; [|unfold emax, prec in Hbad; lia].
  cbn. destruct D2 as [D2|D2]; [discriminate|]. cbn in D2. lia.
Qed.

Lemma sf_small_mono (K K' : Z) (x : spec_float) : sf_small K x -> K <= K' -> sf_small K' x.
Proof. destruct x; cbn; intros; try assumption; lia. Qed.

Lemma pos_digits_mul (mx my : positive) :
  Zdigits2 (Zpos (mx * my)) <= Zpos (digits2_pos mx) + Zpos (digits2_pos my).
Proof.
  apply Zdigits2_lt_pow; try lia.
  pose proof (digits2_pos_bounds mx) as [_ Hx]. pose proof (digits2_pos_bounds my) as [_ Hy].
  rewrite Z.pow_add_r by lia. rewrite Pos2Z.inj_mul. nia.
Qed.

(** A product is below the product of the bounds, doubled. *)
Lemma SFmul_small (K1 K2 : Z) (x y : spec_float) :
  sf_small K1 x -> sf_small K2 y -> -1074 <= K1 + K2 <= 973 ->
  sf_small (K1 + K2 + 1) (SFmul prec emax x y).
Proof.
  intros Hx Hy HK.
  destruct x as [sx|sx| |sx mx ex], y as [sy|sy| |sy my ey]; cbn [sf_small] in Hx, Hy;
    try contradiction; try exact I.
  cbn [SFmul]. apply binary_round_aux_small; try lia.
  pose proof (pos_digits_mul mx my). lia.
Qed.

(** Left shifts, as used to align two mantissas. *)
Lemma iter_xO (m d : positive) : Zpos (Pos.iter xO m d) = Zpos m * 2 ^ Zpos d.
Proof.
  induction d as [|d IH] using Pos.peano_ind.
  - cbn. lia.
  - rewrite Pos.iter_succ, Pos2Z.inj_succ, Z.pow_succ_r by lia.
    rewrite Pos2Z.inj_xO, IH. lia.
Qed.

Lemma shl_align_value (m : positive) (e e' : Z) :
  e' <= e ->
  Zpos (fst (shl_align m e e')) = Zpos m * 2 ^ (e - e') /\ snd (shl_align m e e') = e'.
Proof.
  intros He. unfold shl_align. destruct (e' - e) as [|d|d] eqn:Ed; try lia.
  - cbn [fst snd]. replace (e - e') with 0 by lia. cbn. lia.
  - cbn [fst snd]. rewrite iter_xO. replace (e - e') with (Zpos d) by lia. lia.
Qed.

Lemma shl_align_digits (m : positive) (e e' : Z) :
  Zdigits2 (Zpos (fst (shl_align m e e'))) + snd (shl_align m e e') <= Zpos (digits2_pos m) + e
  /\ snd (shl_align m e e') <= e.
Proof.
  destruct (Z.le_gt_cases e' e) as [He | He].
  - destruct (shl_align_value m e e' He) as [Hv ->]. split; [|lia].
    assert (Zdigits2 (Zpos (fst (shl_align m e e'))) <= Zpos (digits2_pos m) + (e - e')); [|lia].
    apply Zdigits2_lt_pow; try lia. rewrite Hv.
    pose proof (digits2_pos_bounds m) as [_ Hm].
    rewrite Z.pow_add_r by lia.
    assert (0 < 2 ^ (e - e')) by (apply Z.pow_pos_nonneg; lia). nia.
  - unfold shl_align. destruct (e' - e) eqn:Ed; try lia. cbn. lia.
Qed.

Lemma binary_round_small (s : bool) (m : positive) (e K : Z) :
  Zpos (digits2_pos m) + e <= K -> e <= 971 -> -1074 <= K <= 1023 ->
  sf_small (K + 1) (binary_round prec emax s m e).
Proof.
  intros HK He HK'. unfold binary_round.
  pose proof (shl_align_digits m e (fexp prec emax (Zpos (digits2_pos m) + e))) as [Hd He'].
  destruct (shl_align m e (fexp prec emax (Z.pos (digits2_pos m) + e))) as [mz ez].
  cbn [fst snd] in *. apply binary_round_aux_small; lia.
Qed.

Lemma binary_normalize_small (m e K : Z) (sz : bool) :
  Zdigits2 m + e <= K -> e <= 971 -> -1074 <= K <= 1023 ->
  sf_small (K + 1) (binary_normalize prec emax m e sz).
Proof.
  intros HK He HK'. destruct m as [|p|p]; cbn [binary_normalize].
  - exact I.
  - apply binary_round_small; assumption.
  - apply binary_round_small; assumption.
Qed.

Lemma Zdigits2_abs (m : Z) : Zdigits2 (- m) = Zdigits2 m.
Proof. destruct m; reflexivity. Qed.

Lemma Zdigits2_abs_le (m k : Z) : 0 <= k -> Z.abs m < 2 ^ k -> Zdigits2 m <= k.
Proof.
  intros Hk Hm. destruct (Z.le_gt_cases 0 m).
  - apply Zdigits2_lt_pow; lia.
  - rewrite <- Zdigits2_abs. apply Zdigits2_lt_pow; lia.
Qed.

(** The aligned mantissas of an addition or a subtraction. *)
Lemma aligned_small (mx my : positive) (ex ey K1 K2 : Z) (a b : bool) :
  Zpos (digits2_pos mx) + ex <= K1 -> Zpos (digits2_pos my) + ey <= K2 ->
  let ez := Z.min ex ey in
  Zdigits2 (cond_Zopp a (Zpos (fst (shl_align mx ex ez)))
            + cond_Zopp b (Zpos (fst (shl_align my ey ez)))) + ez
  <= Z.max K1 K2 + 1.
Proof.
  intros Hx Hy ez.
  destruct (shl_align_value mx ex ez ltac:(lia)) as [Vx _].
  destruct (shl_align_value my ey ez ltac:(lia)) as [Vy _].
  rewrite Vx, Vy.
  pose proof (digits2_pos_bounds mx) as [_ Bx]. pose proof (digits2_pos_bounds my) as [_ By].
  set (K := Z.max K1 K2).
  assert (Hpx : Zpos mx * 2 ^ (ex - ez) < 2 ^ (K - ez)).
  { apply Z.lt_le_trans with (2 ^ (Zpos (digits2_pos mx)) * 2 ^ (ex - ez)).
    - assert (0 < 2 ^ (ex - ez)) by (apply Z.pow_pos_nonneg; lia). nia.
    - rewrite <- Z.pow_add_r by lia. apply Z.pow_le_mono_r; lia. }
  assert (Hpy : Zpos my * 2 ^ (ey - ez) < 2 ^ (K - ez)).
  { apply Z.lt_le_trans with (2 ^ (Zpos (digits2_pos my)) * 2 ^ (ey - ez)).
    - assert (0 < 2 ^ (ey - ez)) by (apply Z.pow_pos_nonneg; lia). nia.
    - rewrite <- Z.pow_add_r by lia. apply Z.pow_le_mono_r; lia. }
  assert (Hk : 0 <= K - ez) by lia.
  assert (Zdigits2 (cond_Zopp a (Z.pos mx * 2 ^ (ex - ez))
                    + cond_Zopp b (Z.pos my * 2 ^ (ey - ez))) <= K - ez + 1); [|lia].
  apply Zdigits2_abs_le; [lia|].
  rewrite Z.pow_add_r by lia. change (2 ^ 1) with 2.
  assert (0 < Zpos mx * 2 ^ (ex - ez))
    by (apply Z.mul_pos_pos; [lia | apply Z.pow_pos_nonneg; lia]).
  assert (0 < Zpos my * 2 ^ (ey - ez))
    by (apply Z.mul_pos_pos; [lia | apply Z.pow_pos_nonneg; lia]).
  destruct a, b; cbn [cond_Zopp]; lia.
Qed.

(** A sum or a difference is below four times the larger bound. *)
Lemma SFadd_small (K1 K2 : Z) (x y : spec_float) :
  valid_binary x = true ->
  sf_small K1 x -> sf_small K2 y -> -1074 <= Z.max K1 K2 + 1 <= 1023 ->
  sf_small (Z.max K1 K2 + 2) (SFadd prec emax x y).
Proof.
  intros Hv Hx Hy HK.
  destruct x as [sx|sx| |sx mx ex], y as [sy|sy| |sy my ey]; cbn [sf_small] in Hx, Hy;
    try contradiction.
  - destruct sx, sy; exact I.
  - cbn [SFadd SFsub sf_small]. lia.
  - cbn [SFadd SFsub sf_small]. lia.
  - cbn [SFadd]. unfold valid_binary in Hv. cbn [SpecFloat.valid_binary] in Hv.
    apply andb_true_iff in Hv. destruct Hv as [_ He].
    apply Z.leb_le in He. unfold emax, prec in He.
    replace (Z.max K1 K2 + 2) with (Z.max K1 K2 + 1 + 1) by lia.
    apply binary_normalize_small; try lia.
    apply aligned_small; assumption.
Qed.

Lemma SFsub_small (K1 K2 : Z) (x y : spec_float) :
  valid_binary x = true ->
  sf_small K1 x -> sf_small K2 y -> -1074 <= Z.max K1 K2 + 1 <= 1023 ->
  sf_small (Z.max K1 K2 + 2) (SFsub prec emax x y).
Proof.
  intros Hv Hx Hy HK.
  destruct x as [sx|sx| |sx mx ex], y as [sy|sy| |sy my ey]; cbn [sf_small] in Hx, Hy;
    try contradiction.
  - destruct sx, sy; exact I.
  - cbn [SFadd SFsub sf_small]. lia.
  - cbn [SFadd SFsub sf_small]. lia.
  - cbn [SFsub]. unfold valid_binary in Hv. cbn [SpecFloat.valid_binary] in Hv.
    apply andb_true_iff in Hv. destruct Hv as [_ He].
    apply Z.leb_le in He. unfold emax, prec in He.
    replace (Z.max K1 K2 + 2) with (Z.max K1 K2 + 1 + 1) by lia.
    apply binary_normalize_small; try lia.
    pose proof (aligned_small mx my ex ey K1 K2 sx (negb sy) Hx Hy) as H. cbn zeta in H.
    destruct sy; cbn [negb cond_Zopp] in *; exact H.
Qed.

(** Division: the quotient of the shifted mantissas. *)
Lemma SFdiv_core_small (mx my : positive) (ex ey : Z) :
  let D := (Zpos (digits2_pos mx) + ex) - (Zpos (digits2_pos my) + ey) in
  let '(q, e', l) := SFdiv_core_binary prec emax (Zpos mx) ex (Zpos my) ey in
  0 <= q /\ Zdigits2 q + e' <= Z.max (D + 1) (-1074) /\ e' <= fexp prec emax D.
Proof.
  intros D. unfold SFdiv_core_binary. cbn [Zdigits2]. fold D.
  set (e' := Z.min (fexp prec emax D) (ex - ey)).
  set (s := ex - ey - e').
  assert (Hs : 0 <= s) by (unfold s, e'; lia).
  set (m' := match s with Z.pos _ => Z.shiftl (Z.pos mx) s | 0 => Z.pos mx | Z.neg _ => 0 end).
  assert (Hm' : m' = Zpos mx * 2 ^ s).
  { rewrite <- Z.shiftl_mul_pow2 by lia. unfold m'.
    destruct s as [|p|p]; [reflexivity | reflexivity | lia]. }
  pose proof (Z_div_mod m' (Zpos my) ltac:(lia)) as Hdm.
  destruct (Z.div_eucl m' (Z.pos my)) as [q r]. destruct Hdm as [Hq Hr].
  pose proof (digits2_pos_bounds mx) as [_ Bx]. pose proof (digits2_pos_bounds my) as [By _].
  set (dx := Zpos (digits2_pos mx)) in *. set (dy := Zpos (digits2_pos my)) in *.
  assert (Hp : 0 < 2 ^ s) by (apply Z.pow_pos_nonneg; lia).
  assert (Hq0 : 0 <= q) by nia.
  split; [exact Hq0|]. split; [|unfold e'; lia].
  assert (Hm'lt : m' < 2 ^ (dx + s)).
  { rewrite Hm', Z.pow_add_r by lia. nia. }
  assert (Hpy : 0 < 2 ^ (dy - 1)) by (apply Z.pow_pos_nonneg; lia).
  destruct (Z.le_gt_cases 0 (dx + s - dy + 1)) as [Hk | Hk].
  - assert (Zdigits2 q <= dx + s - dy + 1); [|unfold s, D in *; lia].
    apply Zdigits2_lt_pow; try lia.
    assert (E : 2 ^ (dx + s) = 2 ^ (dx + s - dy + 1) * 2 ^ (dy - 1)).
    { rewrite <- Z.pow_add_r by lia. f_equal. lia. }
    assert (0 < 2 ^ (dx + s - dy + 1)) by (apply Z.pow_pos_nonneg; lia).
    nia.
  - assert (Hq' : q = 0).
    { assert (2 ^ (dx + s) <= 2 ^ (dy - 1)) by (apply Z.pow_le_mono_r; lia). nia. }
    rewrite Hq'. cbn [Zdigits2].
    assert (fexp prec emax D = -1074).
    { unfold fexp, emin, prec, emax. unfold s, e', fexp, emin, prec, emax, D in Hk. lia. }
    unfold e'. lia.
Qed.

(** A quotient, the divisor being at least [2 ^ (L2 - 1)]. *)
Lemma SFdiv_small (K1 L2 : Z) (x y : spec_float) :
  sf_small K1 x -> sf_big L2 y -> -1075 <= K1 - L2 <= 1022 ->
  sf_small (K1 - L2 + 2) (SFdiv prec emax x y).
Proof.
  intros Hx Hy HK.
  destruct x as [sx|sx| |sx mx ex], y as [sy|sy| |sy my ey];
    cbn [sf_small sf_big] in Hx, Hy; try contradiction; try exact I.
  cbn [SFdiv].
  pose proof (SFdiv_core_small mx my ex ey) as H. cbn zeta in H.
  destruct (SFdiv_core_binary prec emax (Z.pos mx) ex (Z.pos my) ey) as [[q e'] l].
  destruct H as (Hq & Hd & He).
  replace (K1 - L2 + 2) with (K1 - L2 + 1 + 1) by lia.
  apply binary_round_aux_small; try lia.
  unfold fexp, emin, prec, emax in He. lia.
Qed.

(** The same bounds, on [float]. *)

Lemma smallb_spec (K : Z) (x : float) : smallb K x = true <-> sf_small K (Prim2SF x).
Proof.
  unfold smallb, sf_small. destruct (Prim2SF x); try (split; [discriminate | contradiction]).
  - split; auto.
  - split; [apply Z.leb_le | apply Z.leb_le].
Qed.

Lemma small_mono (K K' : Z) (x : float) : smallb K x = true -> K <= K' -> smallb K' x = true.
Proof.
  rewrite !smallb_spec. apply sf_small_mono.
Qed.

Lemma small_finite (K : Z) (x : float) : smallb K x = true -> finite x = true.
Proof. unfold smallb, finite. destruct (Prim2SF x); congruence. Qed.

Lemma small_add (K : Z) (x y : float) :
  smallb (K - 2) x = true -> smallb (K - 2) y = true -> -1073 <= K <= 1024 ->
  smallb K (x + y) = true.
Proof.
  rewrite !smallb_spec, add_spec. intros Hx Hy HK.
  apply (sf_small_mono (Z.max (K - 2) (K - 2) + 2)); [|lia].
  apply SFadd_small; try assumption; [apply Prim2SF_valid | lia].
Qed.

Lemma small_sub (K : Z) (x y : float) :
  smallb (K - 2) x = true -> smallb (K - 2) y = true -> -1073 <= K <= 1024 ->
  smallb K (x - y) = true.
Proof.
  rewrite !smallb_spec, sub_spec. intros Hx Hy HK.
  apply (sf_small_mono (Z.max (K - 2) (K - 2) + 2)); [|lia].
  apply SFsub_small; try assumption; [apply Prim2SF_valid | lia].
Qed.

Lemma small_mul (K1 K2 K : Z) (x y : float) :
  smallb K1 x = true -> smallb K2 y = true -> -1074 <= K1 + K2 <= 973 -> K1 + K2 + 1 <= K ->
  smallb K (x * y) = true.
Proof.
  rewrite !smallb_spec, mul_spec. intros Hx Hy HK HK'.
  apply (sf_small_mono (K1 + K2 + 1)); [|assumption].
  apply SFmul_small; assumption.
Qed.

Lemma small_half (K : Z) (x : float) :
  smallb K x = true -> -1073 <= K <= 1023 -> smallb K (x / 2) = true.
Proof.
  rewrite !smallb_spec, div_spec. intros Hx HK.
  apply (sf_small_mono (K - 2 + 2)); [|lia].
  apply SFdiv_small; [assumption | | lia].
  vm_compute. discriminate.
Qed.

(** A value below one, the mantissa of one being [p = 2 ^ 52]. *)
Lemma SFltb_one_small (m p : positive) (e : Z) :
  Z.pos p = 2 ^ 52 ->
  SFltb (S754_finite false m e) (S754_finite false p (-52)) = true ->
  canonical_mantissa prec emax m e = true ->
  Z.pos (digits2_pos m) + e <= 0.
Proof.
  intros Hp Hlt Hc. unfold canonical_mantissa in Hc. apply Z.eqb_eq in Hc.
  unfold fexp, emin, prec, emax in Hc.
  unfold SFltb in Hlt. cbn [SFcompare] in Hlt.
  destruct (Z.compare_spec e (-52)) as [He | He | He]; try discriminate.
  - subst e. destruct (Pos.compare_cont Eq m p) eqn:Hm; try discriminate.
    assert (Hmp : Z.pos m < Z.pos p) by (apply Pos2Z.pos_lt_pos; exact Hm).
    rewrite Hp in Hmp.
    assert (Zdigits2 (Z.pos m) <= 52) as Hd
      by (apply Zdigits2_lt_pow; [apply Pos2Z.is_nonneg | discriminate | exact Hmp]).
    cbn [Zdigits2] in Hd. clear - Hd. lia.
  - clear - Hc He. lia.
Qed.

(** A value of [0.0, 1.0) is below [2 ^ 0]. *)
Lemma small_unit (u : float) :
  (0 <=? u)%float = true -> (u <? 1)%float = true -> smallb 0 u = true.
Proof.
  intros Hge Hlt.
  pose proof (Prim2SF_valid u) as Hv.
  assert (E1 : Prim2SF 1 = S754_finite false 4503599627370496 (-52))
    by (vm_compute; reflexivity).
  assert (E0 : Prim2SF 0 = S754_zero false) by (vm_compute; reflexivity).
  revert Hlt Hge Hv. rewrite ltb_spec, leb_spec, E1, E0. clear E1 E0. unfold smallb.
  destruct (Prim2SF u) as [s|s| |s m e];
    try (unfold SFltb, SFleb; cbn [SFcompare]; congruence).
  - destruct s; unfold SFltb, SFleb; cbn [SFcompare]; congruence.
  - destruct s; [unfold SFltb, SFleb; cbn [SFcompare]; congruence|]. intros Hlt _ Hv.
    unfold valid_binary in Hv. cbn [SpecFloat.valid_binary] in Hv.
    apply andb_true_iff in Hv. destruct Hv as [Hc _].
    apply Z.leb_le. apply (SFltb_one_small m 4503599627370496 e); try assumption.
    vm_compute. reflexivity.
Qed.

Lemma small_unit_draw (r : Rand) : smallb 0 (unit_draw r) = true.
Proof. apply small_unit; [apply unit_draw_ge_0 | apply unit_draw_lt_1]. Qed.

(** [u - 0.5] is finite for a draw [u]. *)
Lemma finite_centred (u : float) :
  (0 <=? u)%float = true -> (u <? 1)%float = true -> finite (u - 0.5) = true.
Proof.
  intros Hge Hlt. apply (small_finite 2). apply small_sub; [| vm_compute; reflexivity | lia].
  apply (small_mono 0); [apply small_unit; assumption | lia].
Qed.

Lemma mul_zero_r (x z : float) :
  finite x = true -> is_zero z = true -> is_zero (x * z) = true.
Proof.
  unfold is_zero, finite. rewrite mul_spec.
  destruct (Prim2SF z), (Prim2SF x); intros; try discriminate; reflexivity.
Qed.

Lemma one_add_zero (z : float) : is_zero z = true -> (1 + z)%float = 1%float.
Proof.
  intros Hz. destruct (add_zero_r 1 z eq_refl Hz) as [H | [_ H]]; [exact H | discriminate].
Qed.

Lemma SFmul_one_r (s : bool) (m : positive) (e : Z) :
  bounded prec emax m e = true ->
  SFmul prec emax (S754_finite s m e) (S754_finite false 4503599627370496 (-52))
  = S754_finite s m e.
Proof.
  intros Hb. rewrite <- (SFmul_one_l s m e Hb) at 2. unfold SFmul.
  rewrite xorb_false_r, (Pos.mul_comm m), (Z.add_comm e). reflexivity.
Qed.

Lemma mul_one_r (x : float) : (x * 1)%float = x.
Proof.
  apply Prim2SF_inj. rewrite mul_spec.
  pose proof (Prim2SF_valid x) as Hv.
  assert (E1 : Prim2SF 1 = S754_finite false 4503599627370496 (-52))
    by (vm_compute; reflexivity).
  rewrite E1.
  destruct (Prim2SF x) as [[|]|[|]| |s m e]; try reflexivity.
  apply SFmul_one_r. exact Hv.
Qed.

(** With a scroll speed variance of zero the variance factor is one. *)
Lemma variance_zero (u v : float) :
  (0 <=? u)%float = true -> (u <? 1)%float = true -> is_zero v = true ->
  (1 + (u - 0.5) * v)%float = 1%float.
Proof.
  intros Hge Hlt Hv. apply one_add_zero. apply mul_zero_r; [|exact Hv].
  apply finite_centred; assumption.
Qed.

(** ** HumanType *)

Section Typing.
Variable cfg : Config.

Let lo := TypingConfig.MinKeystrokeDelay (cfgTyping cfg).
Let hi := TypingConfig.MaxKeystrokeDelay (cfgTyping cfg).

Lemma typeChar_disabled (c : rune) (r : Rand) :
  TypingConfig.Enabled (cfgTyping cfg) = false ->
  typeChar cfg c r = ([EInput (Commit c)], Done tt r).
Proof.
  intros Hoff. unfold typeChar. rewrite Hoff. reflexivity.
Qed.

Lemma typeChar_enabled (c : rune) (r : Rand) :
  TypingConfig.Enabled (cfgTyping cfg) = true ->
  0 < sub64 hi lo ->
  typeChar cfg c r =
  (typedBlock c (mul64 (add64 (raw (current r) mod sub64 hi lo) lo) Millisecond)
              (unit_draw (next r) <? TypingConfig.TypoProbability (cfgTyping cfg))%float,
   Done tt (next (next r))).
Proof.
  intros Hon Hrange. unfold typeChar, keystrokeDelay. rewrite Hon.
  fold lo hi. unfold when at 1.
  rewrite !run_bind. unfold MustInput at 1, emit at 1.
  rewrite !run_bind, (run_Intn _ _ Hrange). cbn [fst snd ret app].
  rewrite run_bind, run_Float64.
  destruct (unit_draw (next r) <? TypingConfig.TypoProbability (cfgTyping cfg))%float;
    reflexivity.
Qed.


(** The loop of [HumanType] with typing disabled: the characters alone. *)
Lemma typing_disabled_run (text : list rune) (r : Rand) :
  TypingConfig.Enabled (cfgTyping cfg) = false ->
  for_each text (typeChar cfg) r = (map (fun c => EInput (Commit c)) text, Done tt r).
Proof.
  intros Hoff. revert r. induction text as [|c rest IH]; intros r.
  - reflexivity.
  - cbn [for_each map]. rewrite run_bind, (typeChar_disabled c r Hoff), IH. reflexivity.
Qed.

(** The loop of [HumanType] with typing enabled and a proper delay range:
    one block per character, each with one delay and one typo decision. *)
Lemma typing_enabled_run (text : list rune) (r : Rand) :
  TypingConfig.Enabled (cfgTyping cfg) = true ->
  0 < sub64 hi lo ->
  exists (ds : list (Z * bool)) (r' : Rand),
    List.length ds = List.length text
    /\ Forall (fun p => keystroke_delay_of cfg (fst p) /\ typo_decision_of cfg (snd p)) ds
    /\ for_each text (typeChar cfg) r = (typedBlocks text ds, Done tt r').
Proof.
  intros Hon Hrange. revert r. induction text as [|c rest IH]; intros r.
  - exists [], r. repeat split; constructor.
  - destruct (IH (next (next r))) as (ds & r' & Hlen & Hall & Hrun).
    exists ((mul64 (add64 (raw (current r) mod sub64 hi lo) lo) Millisecond,
             (unit_draw (next r) <? TypingConfig.TypoProbability (cfgTyping cfg))%float)
            :: ds), r'.
    split; [|split].
    + cbn [List.length]. rewrite Hlen. reflexivity.
    + constructor; [|exact Hall]. cbn [fst snd]. split.
      * exists (raw (current r) mod sub64 hi lo). split; [|reflexivity].
        apply Intn_range; assumption.
      * exists (unit_draw (next r)). split; [apply unit_draw_lt_1 | reflexivity].
    + cbn [for_each]. rewrite run_bind, (typeChar_enabled c r Hon Hrange), Hrun.
      reflexivity.
Qed.

Lemma committed_app (p q : list event) : committed (p ++ q) = committed p ++ committed q.
Proof.
  induction p as [|e p IH]; [reflexivity|].
  destruct e as [|[c| |]| | | |]; cbn; rewrite ?IH; reflexivity.
Qed.

Lemma committed_typedBlock (c : rune) (d : Z) (b : bool) :
  committed (typedBlock c d b) = [c].
Proof. destruct b; reflexivity. Qed.

Lemma committed_typedBlocks (text : list rune) (ds : list (Z * bool)) :
  List.length ds = List.length text -> committed (typedBlocks text ds) = text.
Proof.
  revert ds. induction text as [|c rest IH]; intros [|d ds] Hlen; try discriminate.
  - reflexivity.
  - unfold typedBlocks. cbn [combine map List.concat fst snd].
    rewrite committed_app, committed_typedBlock. cbn [app]. f_equal.
    apply IH. injection Hlen as Hlen. exact Hlen.
Qed.

Lemma committed_commits (text : list rune) :
  committed (map (fun c => EInput (Commit c)) text) = text.
Proof. induction text as [|c rest IH]; cbn; [|rewrite IH]; reflexivity. Qed.

End Typing.

Lemma HumanType_run (cfg : Config) (text : list rune) (r : Rand) :
  HumanType cfg text r =
  (EFocus :: fst (for_each text (typeChar cfg) r), snd (for_each text (typeChar cfg) r)).
Proof. unfold HumanType. rewrite run_bind. reflexivity. Qed.


(** C2. For every text, the empty one included, and every typo probability,
    [HumanType] produces a plan whose committed characters, typo and
    backspace events dropped, are the text in order; the empty text gives the
    empty plan.  The keystroke delay range is a proper one ([max > min], the
    only ranges [rng.Intn] accepts) unless typing is disabled or the text is
    empty. *)
Theorem HumanType_commits_text (cfg : Config) (text : list rune) (r : Rand) :
  text = [] \/ TypingConfig.Enabled (cfgTyping cfg) = false
  \/ 0 < sub64 (TypingConfig.MaxKeystrokeDelay (cfgTyping cfg))
               (TypingConfig.MinKeystrokeDelay (cfgTyping cfg)) ->
  exists (plan : list event) (r' : Rand),
    HumanType cfg text r = (EFocus :: plan, Done tt r')
    /\ committed plan = text
    /\ (text = [] -> plan = []).
Proof.
  intros [Hnil | [Hoff | Hrange]].
  - subst text. exists [], r. repeat split.
  - exists (map (fun c => EInput (Commit c)) text), r.
    rewrite HumanType_run, (typing_disabled_run cfg text r Hoff).
    repeat split; [apply committed_commits | intros ->; reflexivity].
  - destruct (TypingConfig.Enabled (cfgTyping cfg)) eqn:Hon.
    + destruct (typing_enabled_run cfg text r Hon Hrange) as (ds & r' & Hlen & _ & Hrun).
      exists (typedBlocks text ds), r'.
      rewrite HumanType_run, Hrun.
      repeat split; [apply committed_typedBlocks; exact Hlen |].
      intros ->. destruct ds; [reflexivity | discriminate].
    + exists (map (fun c => EInput (Commit c)) text), r.
      rewrite HumanType_run, (typing_disabled_run cfg text r Hon).
      repeat split; [apply committed_commits | intros ->; reflexivity].
Qed.

Lemma HumanType_commits_text_witness :
  exists (plan : list event) (r' : Rand),
    HumanType (configTypo 0.05) [104; 105] (constantRand 7 0.01) = (EFocus :: plan, Done tt r')
    /\ committed plan = [104; 105]
    /\ ([104; 105] = @nil rune -> plan = []).
Proof.
  apply (HumanType_commits_text (configTypo 0.05) [104; 105] (constantRand 7 0.01)).
  right. right. vm_compute. reflexivity.
Defined.



Lemma all_typos (cfg : Config) (ds : list (Z * bool)) :
  TypingConfig.TypoProbability (cfgTyping cfg) = 1%float ->
  Forall (fun p => keystroke_delay_of cfg (fst p) /\ typo_decision_of cfg (snd p)) ds ->
  ds = map (fun d => (d, true)) (map fst ds).
Proof.
  intros Hp Hall. induction Hall as [|[d b] ds [_ (u & Hu & Hb)] _ IH]; [reflexivity|].
  cbn [map fst snd] in *. rewrite Hp, Hu in Hb. subst b. f_equal. exact IH.
Qed.

Lemma keystrokes_app (p q : list event) : keystrokes (p ++ q) = keystrokes p ++ keystrokes q.
Proof.
  induction p as [|e p IH]; [reflexivity|].
  destruct e; cbn; rewrite ?IH; reflexivity.
Qed.

Lemma commit_then_typo_blocks (text : list rune) (ds : list Z) :
  List.length ds = List.length text ->
  commit_then_typo (keystrokes (typedBlocks text (map (fun d => (d, true)) ds))) text = true.
Proof.
  revert ds. induction text as [|c rest IH]; intros [|d ds] Hlen; try discriminate.
  - reflexivity.
  - unfold typedBlocks. cbn [map combine List.concat fst snd].
    rewrite keystrokes_app. cbn [typedBlock keystrokes app commit_then_typo].
    rewrite Z.eqb_refl. cbn [andb]. apply IH. injection Hlen as Hlen. exact Hlen.
Qed.

(** C1, as amended.  With typing enabled, a typo probability of 1 and a
    proper delay range, [HumanType] commits every character of the text and
    follows it with exactly one typo keystroke and one backspace (the typo
    comes after the character, not before it); the committed characters are
    the text. *)
Theorem HumanType_typo_after_every_commit (cfg : Config) (text : list rune) (r : Rand) :
  TypingConfig.Enabled (cfgTyping cfg) = true ->
  TypingConfig.TypoProbability (cfgTyping cfg) = 1%float ->
  0 < sub64 (TypingConfig.MaxKeystrokeDelay (cfgTyping cfg))
            (TypingConfig.MinKeystrokeDelay (cfgTyping cfg)) ->
  exists (ds : list Z) (r' : Rand),
    let plan := typedBlocks text (map (fun d => (d, true)) ds) in
    List.length ds = List.length text
    /\ HumanType cfg text r = (EFocus :: plan, Done tt r')
    /\ commit_then_typo (keystrokes plan) text = true
    /\ committed plan = text.
Proof.
  intros Hon Hp Hrange.
  destruct (typing_enabled_run cfg text r Hon Hrange) as (ds & r' & Hlen & Hall & Hrun).
  exists (map fst ds), r'. cbn zeta.
  rewrite <- (all_typos cfg ds Hp Hall).
  assert (Hlen' : List.length (map fst ds) = List.length text)
    by (rewrite length_map; exact Hlen).
  split; [exact Hlen'|]. split; [|split].
  - rewrite HumanType_run, Hrun. reflexivity.
  - rewrite (all_typos cfg ds Hp Hall). apply commit_then_typo_blocks. exact Hlen'.
  - apply committed_typedBlocks. exact Hlen.
Qed.

Lemma HumanType_typo_after_every_commit_witness :
  exists (ds : list Z) (r' : Rand),
    let plan := typedBlocks [104; 105] (map (fun d => (d, true)) ds) in
    List.length ds = 2%nat
    /\ HumanType (configTypo 1) [104; 105] (constantRand 7 0.5) = (EFocus :: plan, Done tt r')
    /\ commit_then_typo (keystrokes plan) [104; 105] = true
    /\ committed plan = [104; 105].
Proof.
  apply (HumanType_typo_after_every_commit (configTypo 1) [104; 105] (constantRand 7 0.5)).
  - reflexivity.
  - reflexivity.
  - vm_compute. reflexivity.
Defined.

(** C1, as stated, fails: with a typo probability of 1 the plan for the text
    "a" starts with the character, and the typo and the backspace follow it. *)
Lemma HumanType_typo_before_commit_counterexample :
  HumanType (configTypo 1) [97] (constantRand 7 0.5)
  = ([EFocus; EInput (Commit 97); EInput (Typo 120); ESleep 57000000;
      EInput Backspace; ESleep 57000000; ESleep 57000000],
     Done tt (next (next (constantRand 7 0.5))))
  /\ typo_then_commit
       (keystrokes (events (HumanType (configTypo 1) [97] (constantRand 7 0.5)))) [97] = false.
Proof. split; vm_compute; reflexivity. Qed.

(** ** Delay ranges: RandomDelay, HumanType, hoverOverElement *)

(** C8, at the failing input.  With every delay range degenerate
    ([max = min]) [RandomDelay] treats the range as [min, min + 1) and
    pauses, while [HumanType] and [hoverOverElement] hand [rng.Intn] the
    empty range and panic. *)
Theorem degenerate_range_not_normalized :
  RandomDelay configDegenerate (constantRand 7 0.5)
  = ([ESleep 1000000000], Done tt (next (constantRand 7 0.5)))
  /\ HumanType configDegenerate [97] (constantRand 7 0.5)
     = ([EFocus; EInput (Commit 97)], Panic "invalid argument to Intn")
  /\ hoverOverElement configDegenerate (constantRand 7 0.5)
     = ([], Panic "invalid argument to Intn").
Proof. repeat split. Qed.

(** [RandomDelay] never panics on a degenerate or inverted range. *)
Lemma RandomDelay_normalizes (cfg : Config) (r : Rand) :
  TimingConfig.MaxThinkTime (cfgTiming cfg) <= TimingConfig.MinThinkTime (cfgTiming cfg) ->
  TimingConfig.Enabled (cfgTiming cfg) = true ->
  RandomDelay cfg r
  = ([ESleep (mul64 (wrap64 (TimingConfig.MinThinkTime (cfgTiming cfg))) Millisecond)],
     Done tt (next r)).
Proof.
  intros Hdeg Hon. unfold RandomDelay. rewrite Hon. cbn [negb].
  destruct (Z.leb_spec (TimingConfig.MaxThinkTime (cfgTiming cfg))
                       (TimingConfig.MinThinkTime (cfgTiming cfg))) as [_|Hlt]; [|lia].
  set (lo := TimingConfig.MinThinkTime (cfgTiming cfg)).
  pose proof (sub64_succ lo) as Hone.
  rewrite run_bind, Hone, run_Intn by lia. rewrite Z.mod_1_r.
  unfold Sleep, emit. cbn [fst snd app]. unfold add64. rewrite Z.add_0_l. reflexivity.
Qed.

Lemma hoverOverElement_panics_on_degenerate_range (cfg : Config) (r : Rand) :
  sub64 (HoveringConfig.HoverDurationMax (cfgHovering cfg))
        (HoveringConfig.HoverDurationMin (cfgHovering cfg)) <= 0 ->
  hoverOverElement cfg r = ([], Panic "invalid argument to Intn").
Proof.
  intros Hrange. unfold hoverOverElement.
  rewrite run_bind, (run_Intn_panics _ _ Hrange). reflexivity.
Qed.

(** ** ShouldOperate and RandomBreak *)

(** With business hours from 9 to 17, hour 10 is allowed and hour 20 is not;
    with scheduling disabled every hour is. *)
Lemma ShouldOperate_business_hours (cfg : Config) (hour : Z) :
  ShouldOperate cfg hour
  = negb (SchedulingConfig.Enabled (cfgScheduling cfg)
          && SchedulingConfig.BusinessHoursOnly (cfgScheduling cfg))
    || ((SchedulingConfig.StartHour (cfgScheduling cfg) <=? hour)
        && (hour <? SchedulingConfig.EndHour (cfgScheduling cfg))).
Proof.
  unfold ShouldOperate.
  destruct (SchedulingConfig.Enabled (cfgScheduling cfg)),
    (SchedulingConfig.BusinessHoursOnly (cfgScheduling cfg)); reflexivity.
Qed.

Example ShouldOperate_at_10_and_20 :
  ShouldOperate (configTypo 0.05) 10 = true /\ ShouldOperate (configTypo 0.05) 20 = false.
Proof. split; reflexivity. Qed.


Lemma RandomBreak_disabled (cfg : Config) (r : Rand) :
  SchedulingConfig.Enabled (cfgScheduling cfg) = false ->
  RandomBreak cfg r = ([], Done tt r).
Proof. intros Hoff. unfold RandomBreak. rewrite Hoff. reflexivity. Qed.

(** A break, when one is taken, lasts from 60 to 359 seconds. *)
Lemma RandomBreak_duration (cfg : Config) (r : Rand) (d : Z) :
  In (ESleep d) (events (RandomBreak cfg r)) ->
  60 * Second <= d <= 359 * Second.
Proof.
  unfold RandomBreak.
  destruct (SchedulingConfig.Enabled (cfgScheduling cfg)); cbn [negb]; [|intros []].
  draw_float.
  destruct (unit_draw r <? SchedulingConfig.BreakProbability (cfgScheduling cfg))%float;
    cbn [when]; [|intros []].
  rewrite run_bind, run_Intn by lia. cbn. intros [Hd|[]].
  injection Hd as <-.
  pose proof (Intn_range 300 (next r) eq_refl) as Hn.
  unfold current, next in Hn. cbn [draws pos] in Hn.
  unfold mul64, add64, Second.
  rewrite (wrap64_id (_ + 60)) by lia. rewrite wrap64_id by lia. lia.
Qed.

(** C9, at the failing input.  The scheduling is enabled, the break trial
    succeeds and [rng.Intn(300)] answers 299: the break lasts 359 seconds,
    past the 300 seconds (5 minutes) the comment of the code and the
    specification give as the upper end. *)
Theorem RandomBreak_exceeds_five_minutes :
  RandomBreak (configTypo 0.05) (constantRand 299 0)
  = ([ESleep (359 * Second)], Done tt (next (next (constantRand 299 0))))
  /\ 300 * Second < 359 * Second.
Proof. split; reflexivity. Qed.

(** ** moveMouseToElement *)

Lemma In_upto (n i : Z) : 0 <= i < n -> In i (upto n).
Proof.
  intros Hi. unfold upto. apply in_map_iff. exists (Z.to_nat i).
  split; [lia | apply in_seq; lia].
Qed.

Lemma upto_range (n i : Z) : In i (upto n) -> 0 <= i < n.
Proof.
  unfold upto. intros Hi. apply in_map_iff in Hi. destruct Hi as (k & <- & Hk).
  apply in_seq in Hk. lia.
Qed.

Lemma In_offset (a n x : Z) : a <= x < a + n -> In x (map (Z.add a) (upto n)).
Proof.
  intros Hx. apply in_map_iff. exists (x - a). split; [lia | apply In_upto; lia].
Qed.

Lemma upto_succ (n : Z) : 0 <= n -> upto (n + 1) = upto n ++ [n].
Proof.
  intros Hn. unfold upto.
  replace (Z.to_nat (n + 1)) with (S (Z.to_nat n)) by lia.
  rewrite seq_S, map_app. cbn [map Nat.add]. rewrite Z2Nat.id by lia. reflexivity.
Qed.

Lemma upto_cons (n : Z) : 0 < n -> exists rest, upto n = 0 :: rest.
Proof.
  intros Hn. unfold upto. destruct (Z.to_nat n) eqn:E; [lia|].
  cbn [seq map]. eexists. reflexivity.
Qed.

Lemma check_steps_sound (P : Z -> Z -> Z -> bool) :
  check_steps P = true ->
  forall steps i b, 25 <= steps <= 39 -> 0 <= i <= steps -> 4 <= b <= 9 ->
                    P steps i b = true.
Proof.
  unfold check_steps. intros Hall steps i b Hs Hi Hb.
  rewrite forallb_forall in Hall.
  specialize (Hall steps (In_offset 25 15 steps ltac:(lia))).
  rewrite forallb_forall in Hall.
  specialize (Hall i (In_upto (steps + 1) i ltac:(lia))).
  rewrite forallb_forall in Hall.
  exact (Hall b (In_offset 4 6 b ltac:(lia))).
Qed.

(** Every pause [moveMouseToElement] can take is between 2 and 11.7 ms. *)
Lemma stepSleep_bounds (steps i b : Z) :
  25 <= steps <= 39 -> 0 <= i <= steps -> 4 <= b <= 9 ->
  2 * Millisecond <= stepSleep b (stepParam i steps) <= 11700000.
Proof.
  intros Hs Hi Hb.
  assert (Hall : check_steps pause_in_bounds = true) by (vm_compute; reflexivity).
  pose proof (check_steps_sound _ Hall steps i b Hs Hi Hb) as H.
  unfold pause_in_bounds in H. apply andb_true_iff in H. destruct H as [H1 H2].
  apply Z.leb_le in H1. apply Z.leb_le in H2. lia.
Qed.

(** With the same base, the pause grows from each step to the next: the
    path is fastest at its start and slowest at its end. *)
Lemma stepSleep_monotone (steps i b : Z) :
  25 <= steps <= 39 -> 0 <= i < steps -> 4 <= b <= 9 ->
  stepSleep b (stepParam i steps) <= stepSleep b (stepParam (i + 1) steps).
Proof.
  intros Hs Hi Hb.
  assert (Hall : check_steps pause_grows = true) by (vm_compute; reflexivity).
  pose proof (check_steps_sound _ Hall steps i b Hs ltac:(lia) Hb) as H.
  unfold pause_grows in H. apply orb_true_iff in H. destruct H as [H | H].
  - apply Z.eqb_eq in H. lia.
  - apply Z.leb_le in H. exact H.
Qed.

Lemma stepParam_ends (steps : Z) :
  25 <= steps <= 39 -> stepParam 0 steps = 0%float /\ stepParam steps steps = 1%float.
Proof.
  intros Hs.
  assert (Hall : forallb param_ends stepsRange = true) by (vm_compute; reflexivity).
  rewrite forallb_forall in Hall.
  specialize (Hall steps (In_offset 25 15 steps ltac:(lia))).
  unfold param_ends in Hall. apply andb_true_iff in Hall. destruct Hall as [H0 H1].
  split; apply FloatAxioms.Leibniz.eqb_spec; assumption.
Qed.

(** At [t = 0] the curve is at its first control value. *)
Lemma bezierCurve_start (p0 p1 p2 p3 : float) :
  finite p0 = true -> finite p1 = true -> finite p2 = true -> finite p3 = true ->
  same_value (bezierCurve 0 p0 p1 p2 p3) p0.
Proof.
  intros H0 H1 H2 H3. unfold bezierCurve.
  change (Pow (1 - 0) 3) with 1%float.
  change (3 * Pow (1 - 0) 2 * 0)%float with 0%float.
  change (3 * (1 - 0) * Pow 0 2)%float with 0%float.
  change (Pow 0 3) with 0%float.
  rewrite mul_one_l.
  repeat apply same_value_add_zero; try assumption;
    try (apply mul_zero_l; [reflexivity | assumption]).
  left. reflexivity.
Qed.

(** At [t = 1] the curve is at its last control value. *)
Lemma bezierCurve_end (p0 p1 p2 p3 : float) :
  finite p0 = true -> finite p1 = true -> finite p2 = true -> finite p3 = true ->
  same_value (bezierCurve 1 p0 p1 p2 p3) p3.
Proof.
  intros H0 H1 H2 H3. unfold bezierCurve.
  change (Pow (1 - 1) 3) with 0%float.
  change (3 * Pow (1 - 1) 2 * 1)%float with 0%float.
  change (3 * (1 - 1) * Pow 1 2)%float with 0%float.
  change (Pow 1 3) with 1%float.
  rewrite mul_one_l.
  apply add_zero_l; [|assumption].
  repeat apply add_zeros; apply mul_zero_l; try reflexivity; assumption.
Qed.

Lemma finite_curve_parts (c : curve) :
  finite_curve c = true ->
  finite (p_start c) = true /\ finite (p_cp1 c) = true
  /\ finite (p_cp2 c) = true /\ finite (p_target c) = true.
Proof.
  unfold finite_curve. intros H.
  repeat (apply andb_true_iff in H; destruct H as [H ?]). auto.
Qed.

Lemma curve_at_start (c : curve) :
  finite_curve c = true -> (curve_at c 0 =? p_start c)%float = true.
Proof.
  intros H. destruct (finite_curve_parts c H) as (H0 & H1 & H2 & H3).
  apply same_value_eqb; [apply bezierCurve_start|]; assumption.
Qed.

Lemma curve_at_end (c : curve) :
  finite_curve c = true -> (curve_at c 1 =? p_target c)%float = true.
Proof.
  intros H. destruct (finite_curve_parts c H) as (H0 & H1 & H2 & H3).
  apply same_value_eqb; [apply bezierCurve_end|]; assumption.
Qed.

Section Trajectory.
Variable cfg : Config.
Variables cx cy : curve.
Variable steps : Z.

Let point_of := point_of cfg cx cy steps.
Let pause_of := pause_of steps.

Lemma microCorrect_run (x y : float) (r : Rand) :
  exists (p : float * float) (r' : Rand),
    microCorrect cfg x y r = ([], Done p r')
    /\ (p = (x, y)
        \/ (MouseMovementConfig.MicroCorrections (cfgMouse cfg) = true
            /\ exists jx jy : float,
                 jitter_of jx /\ jitter_of jy /\ p = ((x + jx)%float, (y + jy)%float))).
Proof.
  unfold microCorrect.
  destruct (MouseMovementConfig.MicroCorrections (cfgMouse cfg)).
  - rewrite run_bind, run_Float64.
    destruct (unit_draw r <? 0.1)%float.
    + rewrite !run_bind, !run_Float64. cbn [fst snd app].
      rewrite !run_bind, !run_Float64. cbn [fst snd app ret].
      eexists _, _. split; [reflexivity|]. right. split; [reflexivity|].
      exists ((unit_draw (next r) - 0.5) * 2)%float,
             ((unit_draw (next (next r)) - 0.5) * 2)%float.
      repeat split; eexists; (split; [apply unit_draw_ge_0 |
                              split; [apply unit_draw_lt_1 | reflexivity]]).
    + cbn [fst snd app ret]. eexists _, _. split; [reflexivity | left; reflexivity].
  - exists (x, y), r. split; [reflexivity | left; reflexivity].
Qed.

Lemma moveStep_run (i : Z) (r : Rand) :
  exists (p : float * float) (d : Z) (r' : Rand),
    moveStep cfg cx cy steps i r = ([EMouseMove (fst p) (snd p); ESleep d], Done tt r')
    /\ point_of i p /\ pause_of i d.
Proof.
  unfold moveStep.
  destruct (microCorrect_run (curve_at cx (stepParam i steps))
                             (curve_at cy (stepParam i steps)) r)
    as (p & r1 & Hrun & Hp).
  exists p, (stepSleep (add64 4 (raw (current r1) mod 6)) (stepParam i steps)), (next r1).
  split; [|split].
  - rewrite run_bind, Hrun. cbn [fst snd app].
    do_emit. draw_int. reflexivity.
  - exact Hp.
  - exists (add64 4 (raw (current r1) mod 6)). split; [|reflexivity].
    pose proof (Intn_range 6 r1 eq_refl) as Hn.
    unfold add64. rewrite wrap64_id; lia.
Qed.

Lemma moveSteps_run (l : list Z) (r : Rand) :
  exists (pts : list (float * float)) (ds : list Z) (r' : Rand),
    for_each l (moveStep cfg cx cy steps) r = (trajectory pts ds, Done tt r')
    /\ Forall2 point_of l pts /\ Forall2 pause_of l ds.
Proof.
  revert r. induction l as [|i l IH]; intros r.
  - exists [], [], r. repeat split; constructor.
  - destruct (moveStep_run i r) as (p & d & r1 & Hstep & Hp & Hd).
    destruct (IH r1) as (pts & ds & r' & Hrun & Hpts & Hds).
    exists (p :: pts), (d :: ds), r'. split; [|split].
    + cbn [for_each]. rewrite run_bind, Hstep, Hrun. reflexivity.
    + constructor; assumption.
    + constructor; assumption.
Qed.

End Trajectory.

Lemma planCurves_run (box : Box) (w h : float) (r : Rand) :
  planCurves box w h r
  = ([], Done (plannedCurves box w h r) (next (next (next (next (next (next r))))))).
Proof. reflexivity. Qed.

Lemma Forall2_Forall_r {A B} (R : A -> B -> Prop) (P : B -> Prop) (l : list A) (l' : list B) :
  Forall2 R l l' -> (forall a b, In a l -> R a b -> P b) -> Forall P l'.
Proof.
  intros H. induction H as [|a b l l' Hab _ IH]; intros HP; constructor.
  - apply (HP a b); [left; reflexivity | exact Hab].
  - apply IH. intros a' b' Hin. apply HP. right. exact Hin.
Qed.

Lemma length_upto (n : Z) : 0 <= n -> Z.of_nat (List.length (upto n)) = n.
Proof. intros Hn. unfold upto. rewrite length_map, length_seq. lia. Qed.

(** The control points [planCurves] computes from an element and a
    viewport of moderate size are finite. *)

Lemma small_jitter (r : Rand) (k : float) :
  smallb 5 k = true -> smallb 8 ((unit_draw r - 0.5) * k) = true.
Proof.
  intros Hk. apply (small_mul 2 5); [| exact Hk | lia | lia].
  apply small_sub; [| vm_compute; reflexivity | lia].
  apply (small_mono 0); [apply small_unit_draw | lia].
Qed.

Lemma small_target (a b : float) (r : Rand) :
  moderate a = true -> moderate b = true ->
  smallb 904 (a + b / 2 + (unit_draw r - 0.5) * 20) = true.
Proof.
  unfold moderate. intros Ha Hb.
  apply small_add; [| | lia].
  - apply small_add; [exact Ha | | lia]. apply small_half; [exact Hb | lia].
  - apply (small_mono 8); [apply small_jitter; vm_compute; reflexivity | lia].
Qed.

Lemma small_control (c t k j : float) (r : Rand) :
  moderate c = true -> smallb 904 t = true -> smallb 0 k = true -> smallb 5 j = true ->
  smallb 911 (c / 2 + (t - c / 2) * k + (unit_draw r - 0.5) * j) = true.
Proof.
  unfold moderate. intros Hc Ht Hk Hj.
  assert (Hc2 : smallb 900 (c / 2) = true) by (apply small_half; [exact Hc | lia]).
  apply small_add; [| | lia].
  - apply small_add; [apply (small_mono 900); [exact Hc2 | lia] | | lia].
    apply (small_mul 906 0); [| exact Hk | lia | lia].
    apply small_sub; [exact Ht | apply (small_mono 900); [exact Hc2 | lia] | lia].
  - apply (small_mono 8); [apply small_jitter; exact Hj | lia].
Qed.

Lemma plannedCurves_finite (box : Box) (w h : float) (r : Rand) :
  moderate_input box w h = true ->
  finite_curve (fst (plannedCurves box w h r)) = true
  /\ finite_curve (snd (plannedCurves box w h r)) = true.
Proof.
  unfold moderate_input. intros H.
  repeat (apply andb_true_iff in H; destruct H as [H ?]).
  unfold plannedCurves, planCurves.
  repeat (rewrite run_bind, run_Float64; cbn [fst snd app]).
  unfold ret. cbn [fst snd p_start p_cp1 p_cp2 p_target finite_curve].
  unfold finite_curve. cbn [p_start p_cp1 p_cp2 p_target].
  split; repeat (apply andb_true_iff; split);
    first [ apply (small_finite 900); apply small_half; [assumption | lia]
          | apply (small_finite 904); apply small_target; assumption
          | apply (small_finite 911); apply small_control;
            [assumption | apply small_target; assumption
             | vm_compute; reflexivity | vm_compute; reflexivity] ].
Qed.

(** C3, as amended.  For an element and a viewport of moderate size
    (coordinates and sizes below [2 ^ 900] in magnitude, so that the
    control points are finite), [moveMouseToElement] produces a trajectory
    of [steps + 1] points with [steps] between 25 and 39 (so 26 to 40
    points), every pause of which is strictly positive (at least 2 ms); the
    point of step [i] is the point of the curves at [t = i / steps] or, with
    micro-corrections enabled, that point moved by a jitter; with
    micro-corrections disabled the first point equals the start (the
    viewport centre) and the last point equals the target. *)
Theorem moveMouseToElement_trajectory (cfg : Config) (box : Box) (w h : float) (r : Rand) :
  moderate_input box w h = true ->
  exists (steps : Z) (first : float * float) (middle : list (float * float))
         (last : float * float) (ds : list Z) (r' : Rand),
    moveMouseToElement cfg box w h r
    = (trajectory (first :: middle ++ [last]) ds, Done tt r')
    /\ 25 <= steps <= 39
    /\ Z.of_nat (List.length (first :: middle ++ [last])) = steps + 1
    /\ List.length ds = List.length (first :: middle ++ [last])
    /\ Forall (fun d => 2 * Millisecond <= d) ds
    /\ Forall2 (point_of cfg (fst (plannedCurves box w h r)) (snd (plannedCurves box w h r))
                         steps)
               (upto (steps + 1)) (first :: middle ++ [last])
    /\ (MouseMovementConfig.MicroCorrections (cfgMouse cfg) = false ->
        (fst first =? w / 2)%float = true
        /\ (snd first =? h / 2)%float = true
        /\ (fst last =? p_target (fst (plannedCurves box w h r)))%float = true
        /\ (snd last =? p_target (snd (plannedCurves box w h r)))%float = true).
Proof.
  intros Hin. destruct (plannedCurves_finite box w h r Hin) as [Hcx Hcy].
  set (cx := fst (plannedCurves box w h r)) in *.
  set (cy := snd (plannedCurves box w h r)) in *.
  set (r6 := next (next (next (next (next (next r)))))).
  set (steps := add64 (raw (current r6) mod 15) 25).
  assert (Hsteps : 25 <= steps <= 39).
  { pose proof (Intn_range 15 r6 eq_refl) as Hn.
    unfold steps, add64. rewrite wrap64_id; lia. }
  destruct (moveSteps_run cfg cx cy steps (upto (steps + 1)) (next r6))
    as (pts & ds & r' & Hrun & Hpts & Hds).
  destruct (upto_cons steps ltac:(lia)) as [inner Hinner].
  assert (Hl : upto (steps + 1) = 0 :: inner ++ [steps])
    by (rewrite upto_succ, Hinner by lia; reflexivity).
  assert (Hpts' := Hpts). rewrite Hl in Hpts'.
  inversion Hpts' as [|i0 first l0 pts' Hfirst Hrest]; subst.
  apply Forall2_app_inv_l in Hrest.
  destruct Hrest as (middle & lastl & Hmiddle & Hlast & ->).
  inversion Hlast as [|i1 last l1 nil' Hlastp Hnil]; subst.
  inversion Hnil; subst.
  exists steps, first, middle, last, ds, r'.
  split; [|split; [exact Hsteps|split; [|split; [|split; [|split; [exact Hpts|]]]]]].
  - unfold moveMouseToElement. rewrite run_bind, planCurves_run.
    cbn [fst snd app]. draw_int. unfold moveAlong. fold r6 steps cx cy.
    rewrite Hrun. reflexivity.
  - rewrite <- (Forall2_length Hpts). apply length_upto. lia.
  - rewrite <- (Forall2_length Hds), <- (Forall2_length Hpts). reflexivity.
  - apply (Forall2_Forall_r _ _ _ _ Hds). intros i d Hi (b & Hb & ->).
    apply upto_range in Hi. apply stepSleep_bounds; lia.
  - intros Hmc.
    destruct Hfirst as [-> | [Hno _]]; [|congruence].
    destruct Hlastp as [-> | [Hno _]]; [|congruence].
    destruct (stepParam_ends steps Hsteps) as [-> ->]. cbn [fst snd].
    repeat split.
    + apply (curve_at_start cx Hcx).
    + apply (curve_at_start cy Hcy).
    + apply (curve_at_end cx Hcx).
    + apply (curve_at_end cy Hcy).
Qed.

Lemma moveMouseToElement_trajectory_witness :
  exists (steps : Z) (first : float * float) (middle : list (float * float))
         (last : float * float) (ds : list Z) (r' : Rand),
    moveMouseToElement (configMicro false) sampleBox 1280 720 (constantRand 18 0.5)
    = (trajectory (first :: middle ++ [last]) ds, Done tt r')
    /\ 25 <= steps <= 39
    /\ Z.of_nat (List.length (first :: middle ++ [last])) = steps + 1
    /\ List.length ds = List.length (first :: middle ++ [last])
    /\ Forall (fun d => 2 * Millisecond <= d) ds
    /\ Forall2 (point_of (configMicro false)
                         (fst (plannedCurves sampleBox 1280 720 (constantRand 18 0.5)))
                         (snd (plannedCurves sampleBox 1280 720 (constantRand 18 0.5)))
                         steps)
               (upto (steps + 1)) (first :: middle ++ [last])
    /\ (MouseMovementConfig.MicroCorrections (cfgMouse (configMicro false)) = false ->
        (fst first =? 1280 / 2)%float = true
        /\ (snd first =? 720 / 2)%float = true
        /\ (fst last
            =? p_target (fst (plannedCurves sampleBox 1280 720 (constantRand 18 0.5))))%float
           = true
        /\ (snd last
            =? p_target (snd (plannedCurves sampleBox 1280 720 (constantRand 18 0.5))))%float
           = true).
Proof.
  apply (moveMouseToElement_trajectory
           (configMicro false) sampleBox 1280 720 (constantRand 18 0.5));
    vm_compute; reflexivity.
Defined.

(** C3, as stated, fails: with micro-corrections enabled and a jitter drawn
    at the first step, the first point of the trajectory is (639, 359) while
    the start, the centre of the 1280 by 720 viewport, is (640, 360). *)
Lemma moveMouseToElement_first_point_counterexample :
  moderate_input sampleBox 1280 720 = true
  /\ returns (moveMouseToElement (configMicro true) sampleBox 1280 720 (constantRand 0 0)) = true
  /\ hd_error (moves (events
       (moveMouseToElement (configMicro true) sampleBox 1280 720 (constantRand 0 0))))
     = Some (639%float, 359%float)
  /\ (1280 / 2 = 640)%float /\ (720 / 2 = 360)%float
  /\ (639 =? 640)%float = false /\ (359 =? 360)%float = false.
Proof. repeat split; vm_compute; reflexivity. Qed.

(** C4, at the failing input.  On a path of 28 steps with the base pause of
    4 ms at every step, the pause is 2 ms at the first step ([t = 0]),
    3.6 ms at the middle step ([t = 0.5]) and 5.2 ms at the last step
    ([t = 1]): the pointer is fastest at the start of the path, not slower
    at both ends. *)
Theorem moveMouseToElement_pause_smallest_at_start :
  let ds := sleeps (events
    (moveMouseToElement (configMicro false) sampleBox 1280 720 (constantRand 18 0.5))) in
  List.length ds = 29%nat
  /\ nth 0 ds 0 = 2000000
  /\ nth 14 ds 0 = 3600000
  /\ nth 28 ds 0 = 5200000
  /\ nth 0 ds 0 < nth 14 ds 0.
Proof. vm_compute. repeat split; reflexivity. Qed.

(** ** ScrollHumanLike *)

Section Scrolling.
Variable cfg : Config.

Lemma scrollStep_run (stepSize : float) (r : Rand) :
  exists ad : Z * Z,
    scrollStep cfg stepSize r = ([EScrollBy (fst ad); ESleep (snd ad)], Done tt (next (next r)))
    /\ forward_step_of cfg stepSize ad.
Proof.
  exists (trunc (stepSize * (1 + (unit_draw r - 0.5)
                              * TimingConfig.ScrollSpeedVariance (cfgTiming cfg)))%float,
          mul64 (add64 (raw (current (next r)) mod 200) 50) Millisecond).
  split.
  - unfold scrollStep. draw_float. do_emit. draw_int. reflexivity.
  - split; cbn [fst snd].
    + exists (unit_draw r).
      split; [apply unit_draw_ge_0 | split; [apply unit_draw_lt_1 | reflexivity]].
    + pose proof (Intn_range 200 (next r) eq_refl) as Hn.
      unfold mul64, add64, Millisecond.
      rewrite (wrap64_id (_ + 50)) by lia. rewrite wrap64_id by lia. lia.
Qed.

Lemma scrollSteps_run {A} (stepSize : float) (l : list A) (r : Rand) :
  exists (sl : list (Z * Z)) (r' : Rand),
    for_each l (fun _ => scrollStep cfg stepSize) r = (scrollEvents sl, Done tt r')
    /\ List.length sl = List.length l
    /\ Forall (forward_step_of cfg stepSize) sl.
Proof.
  revert r. induction l as [|a l IH]; intros r.
  - exists [], r. repeat split; constructor.
  - destruct (scrollStep_run stepSize r) as (ad & Hstep & Had).
    destruct (IH (next (next r))) as (sl & r' & Hrun & Hlen & Hall).
    exists (ad :: sl), r'. split; [|split].
    + cbn [for_each]. rewrite run_bind, Hstep, Hrun. reflexivity.
    + cbn [List.length]. rewrite Hlen. reflexivity.
    + constructor; assumption.
Qed.

Lemma scrollBack_none (distance : Z) (r : Rand) :
  (unit_draw r <? ScrollingConfig.ScrollBackProbability (cfgScrolling cfg))%float = false ->
  scrollBack cfg distance r = ([], Done tt (next r)).
Proof.
  intros Hno. unfold scrollBack. draw_float. rewrite Hno. reflexivity.
Qed.

Lemma scrollBack_some (distance : Z) (r : Rand) :
  (unit_draw r <? ScrollingConfig.ScrollBackProbability (cfgScrolling cfg))%float = true ->
  4 <= distance < 2 ^ 63 ->
  exists b p : Z,
    scrollBack cfg distance r
    = ([EScrollBy (- b); ESleep p], Done tt (next (next (next r))))
    /\ 10 <= b <= Z.quot distance 4 + 9
    /\ 500 * Millisecond <= p <= 1499 * Millisecond.
Proof.
  intros Hyes Hd.
  assert (Hq : 1 <= Z.quot distance 4 < 2 ^ 61).
  { rewrite Z.quot_div_nonneg by lia. split.
    - apply Z.div_le_lower_bound; lia.
    - apply Z.div_lt_upper_bound; lia. }
  assert (Hq' : div64 distance 4 = Z.quot distance 4)
    by (unfold div64; apply wrap64_id; lia).
  pose proof (Intn_range (Z.quot distance 4) (next r) ltac:(lia)) as Hb.
  pose proof (Intn_range 1000 (next (next r)) eq_refl) as Hp.
  exists (raw (current (next r)) mod Z.quot distance 4 + 10),
         ((raw (current (next (next r))) mod 1000 + 500) * Millisecond).
  split; [|split; [lia | unfold Millisecond; lia]].
  unfold scrollBack. draw_float. rewrite Hyes. cbn [when].
  rewrite Hq'. draw_int. do_emit. draw_int. cbn [Sleep emit].
  unfold neg64, mul64, add64, Millisecond.
  rewrite (wrap64_id (_ + 10)) by lia.
  rewrite (wrap64_id (- _)) by lia.
  rewrite (wrap64_id (_ + 500)) by lia.
  rewrite wrap64_id by lia. reflexivity.
Qed.

Lemma ScrollHumanLike_run (distance : Z) (r : Rand) :
  ScrollingConfig.Enabled (cfgScrolling cfg) = true ->
  exists (steps : Z) (sl : list (Z * Z)) (r1 : Rand),
    5 <= steps <= 14
    /\ Z.of_nat (List.length sl) = steps
    /\ Forall (forward_step_of cfg (Z2float distance / Z2float steps)%float) sl
    /\ ScrollHumanLike cfg distance r
       = (scrollEvents sl ++ fst (scrollBack cfg distance r1),
          snd (scrollBack cfg distance r1)).
Proof.
  intros Hon.
  set (steps := add64 (raw (current r) mod 10) 5).
  assert (Hsteps : 5 <= steps <= 14).
  { pose proof (Intn_range 10 r eq_refl) as Hn.
    unfold steps, add64. rewrite wrap64_id; lia. }
  destruct (scrollSteps_run (Z2float distance / Z2float steps)%float (upto steps) (next r))
    as (sl & r1 & Hrun & Hlen & Hall).
  exists steps, sl, r1. split; [exact Hsteps|]. split; [|split; [exact Hall|]].
  - rewrite Hlen. apply length_upto. lia.
  - unfold ScrollHumanLike. rewrite Hon. cbn [negb].
    draw_int. fold steps. rewrite run_bind, Hrun. reflexivity.
Qed.

End Scrolling.

(** With a scroll speed variance of zero every forward step scrolls by the
    truncated step size. *)
Lemma forward_step_even (cfg : Config) (stepSize : float) (ad : Z * Z) :
  is_zero (TimingConfig.ScrollSpeedVariance (cfgTiming cfg)) = true ->
  forward_step_of cfg stepSize ad -> fst ad = trunc stepSize.
Proof.
  intros Hv [(u & Hge & Hlt & ->) _].
  rewrite variance_zero by assumption. rewrite mul_one_r. reflexivity.
Qed.

Lemma check_even_steps_sound (bound distance steps : Z) :
  check_even_steps bound = true -> 0 <= distance <= bound -> 5 <= steps <= 14 ->
  trunc (Z2float distance / Z2float steps) = distance / steps.
Proof.
  unfold check_even_steps. intros Hall Hd Hs.
  rewrite forallb_forall in Hall.
  specialize (Hall distance (In_upto (bound + 1) distance ltac:(lia))).
  rewrite forallb_forall in Hall.
  specialize (Hall steps (In_offset 5 10 steps ltac:(lia))).
  apply Z.eqb_eq. exact Hall.
Qed.

Lemma scrolls_scrollEvents (sl : list (Z * Z)) : scrolls (scrollEvents sl) = map fst sl.
Proof.
  induction sl as [|ad sl IH]; [reflexivity|].
  unfold scrollEvents in *. cbn [map List.concat app scrolls]. rewrite IH. reflexivity.
Qed.

Lemma total_repeat (q : Z) (n : nat) : total (repeat q n) = Z.of_nat n * q.
Proof.
  induction n as [|n IH]; [reflexivity|].
  cbn [repeat]. unfold total in *. cbn [fold_right]. rewrite IH. lia.
Qed.

Lemma map_all_eq {A B} (f : A -> B) (b : B) (l : list A) :
  Forall (fun a => f a = b) l -> map f l = repeat b (List.length l).
Proof.
  induction 1 as [|a l Ha _ IH]; [reflexivity|].
  cbn [map List.length repeat]. rewrite Ha, IH. reflexivity.
Qed.

(** [steps] times the integer quotient falls short of the distance by less
    than [steps]. *)
Lemma even_sum (distance steps : Z) :
  0 <= distance -> 0 < steps ->
  distance - steps < steps * (distance / steps) <= distance.
Proof.
  intros Hd Hs. pose proof (Z.div_mod distance steps ltac:(lia)).
  pose proof (Z.mod_pos_bound distance steps Hs). lia.
Qed.

(** C5, as amended.  With scrolling enabled and a scroll-back probability of
    0, [ScrollHumanLike] appends no scroll-back segment: the plan is 5 to 14
    forward steps, each scrolling by the step size [distance / steps]
    scaled by the variance of its own draw and truncated, each followed by a
    pause of 50 to 249 ms.  When moreover the scroll speed variance is zero
    and the distance is between 0 and 10000, every delta is the integer
    quotient of the distance by the number of steps: the deltas add up to
    at most the distance and to more than the distance less one per step,
    and none is negative.  (A variance other than zero is not compensated:
    the sum is then not tied to the distance.) *)
Theorem ScrollHumanLike_without_scroll_back (cfg : Config) (distance : Z) (r : Rand) :
  ScrollingConfig.Enabled (cfgScrolling cfg) = true ->
  ScrollingConfig.ScrollBackProbability (cfgScrolling cfg) = 0%float ->
  exists (steps : Z) (sl : list (Z * Z)) (r' : Rand),
    ScrollHumanLike cfg distance r = (scrollEvents sl, Done tt r')
    /\ 5 <= steps <= 14
    /\ Z.of_nat (List.length sl) = steps
    /\ Forall (forward_step_of cfg (Z2float distance / Z2float steps)%float) sl
    /\ (is_zero (TimingConfig.ScrollSpeedVariance (cfgTiming cfg)) = true ->
        0 <= distance <= 10000 ->
        let deltas := scrolls (events (ScrollHumanLike cfg distance r)) in
        deltas = repeat (distance / steps) (Z.to_nat steps)
        /\ distance - steps < total deltas <= distance
        /\ Forall (fun d => 0 <= d) deltas).
Proof.
  intros Hon Hp.
  destruct (ScrollHumanLike_run cfg distance r Hon) as (steps & sl & r1 & Hs & Hlen & Hall & Hrun).
  assert (Hrun' : ScrollHumanLike cfg distance r = (scrollEvents sl, Done tt (next r1))).
  { rewrite Hrun, scrollBack_none.
    - cbn [fst snd]. rewrite app_nil_r. reflexivity.
    - rewrite Hp. apply unit_draw_not_neg. }
  exists steps, sl, (next r1).
  split; [exact Hrun' | split; [exact Hs | split; [exact Hlen | split; [exact Hall|]]]].
  intros Hv Hd deltas.
  assert (Hdeltas : deltas = repeat (distance / steps) (Z.to_nat steps)).
  { unfold deltas. rewrite Hrun'. unfold events. cbn [fst].
    rewrite scrolls_scrollEvents.
    replace (Z.to_nat steps) with (List.length sl) by lia.
    apply map_all_eq. revert Hall. apply Forall_impl.
    intros ad Had. rewrite (forward_step_even cfg _ ad Hv Had).
    apply (check_even_steps_sound 10000); [vm_compute; reflexivity | exact Hd | exact Hs]. }
  split; [exact Hdeltas|]. rewrite Hdeltas. split.
  - rewrite total_repeat, Z2Nat.id by lia. apply even_sum; lia.
  - apply Forall_forall. intros d Hin. apply repeat_spec in Hin. subst d.
    apply Z.div_pos; lia.
Qed.

Lemma ScrollHumanLike_without_scroll_back_witness :
  exists (steps : Z) (sl : list (Z * Z)) (r' : Rand),
    ScrollHumanLike (configScroll 0 0) 1000 (constantRand 0 0) = (scrollEvents sl, Done tt r')
    /\ 5 <= steps <= 14
    /\ Z.of_nat (List.length sl) = steps
    /\ Forall (forward_step_of (configScroll 0 0) (Z2float 1000 / Z2float steps)%float) sl
    /\ (is_zero (TimingConfig.ScrollSpeedVariance (cfgTiming (configScroll 0 0))) = true ->
        0 <= 1000 <= 10000 ->
        let deltas := scrolls (events (ScrollHumanLike (configScroll 0 0) 1000
                                                       (constantRand 0 0))) in
        deltas = repeat (1000 / steps) (Z.to_nat steps)
        /\ 1000 - steps < total deltas <= 1000
        /\ Forall (fun d => 0 <= d) deltas).
Proof.
  apply (ScrollHumanLike_without_scroll_back (configScroll 0 0) 1000 (constantRand 0 0));
    reflexivity.
Defined.

(** The plan of the specification's scenario with a variance of zero: five
    steps of 200 for a distance of 1000. *)
Example ScrollHumanLike_even_plan :
  scrolls (events (ScrollHumanLike (configScroll 0 0) 1000 (constantRand 0 0)))
  = [200; 200; 200; 200; 200].
Proof. vm_compute. reflexivity. Qed.

(** C5, as stated, fails: for a distance of 1000, a scroll speed variance of
    0.5 and a scroll-back probability of 0, the five steps drawn scroll by
    150 each and the deltas add up to 750; with a variance of 4 a forward
    delta is negative. *)
Lemma ScrollHumanLike_sum_counterexample :
  returns (ScrollHumanLike (configScroll 0.5 0) 1000 (constantRand 0 0)) = true
  /\ scrolls (events (ScrollHumanLike (configScroll 0.5 0) 1000 (constantRand 0 0)))
     = [150; 150; 150; 150; 150]
  /\ total (scrolls (events (ScrollHumanLike (configScroll 0.5 0) 1000 (constantRand 0 0))))
     = 750
  /\ scrolls (events (ScrollHumanLike (configScroll 4 0) 1000 (constantRand 0 0)))
     = [-200; -200; -200; -200; -200].
Proof. repeat split; vm_compute; reflexivity. Qed.






(** A distance of 1000 with no variance: twelve steps of 83 and a
    scroll-back of 17. *)
Example ScrollHumanLike_back_scroll_plan :
  scrolls (events (ScrollHumanLike (configScroll 0 1) 1000 (constantRand 7 0.5)))
  = [83; 83; 83; 83; 83; 83; 83; 83; 83; 83; 83; 83; -17].
Proof. vm_compute. reflexivity. Qed.


(** ** SendConnectionRequests *)

Section DailyLimit.
Variable env : Env.


Lemma filter_none {A} (f : A -> bool) (l : list A) :
  Forall (fun a => f a = false) l -> filter f l = [].
Proof.
  intros H. induction H as [|a l Ha _ IH]; [reflexivity|].
  cbn [filter]. rewrite Ha, IH. reflexivity.
Qed.


End DailyLimit.







(** The scenario of the specification, with a limit of 3, five profiles and
    an environment in which every request goes through: the first call of
    the day sends three requests, a further call on that day is rejected,
    and a call on the following day reads a count of 0 and sends the
    remaining two. *)
Example daily_limit_scenario :
  SendConnectionRequests quotaConfig day1 sampleDB = (None, 3, dbDay1)
  /\ getConnectionsSentToday day1 dbDay1 = 3
  /\ SendConnectionRequests quotaConfig day1 dbDay1
     = (Some "daily limit reached"%string, 0, dbDay1)
  /\ getConnectionsSentToday day2 dbDay1 = 0
  /\ fst (SendConnectionRequests quotaConfig day2 dbDay1) = (None, 2).
Proof. repeat split; vm_compute; reflexivity. Qed.

(** * The code around the claims: properties

    Each property below is read off the code: what a function does at the
    edge of its domain, what it keeps invariant, how two functions compose
    and what it never does. *)

(** ** ShouldOperate, RandomBreak, RandomDelay, hoverOverElement *)

(** X1.  With scheduling enabled and restricted to business hours, a window
    whose end hour is not after its start hour (22 to 6, say) lets no hour
    through: [ShouldOperate] answers no at every hour. *)
Theorem ShouldOperate_empty_window (cfg : Config) (hour : Z) :
  SchedulingConfig.Enabled (cfgScheduling cfg) = true ->
  SchedulingConfig.BusinessHoursOnly (cfgScheduling cfg) = true ->
  SchedulingConfig.EndHour (cfgScheduling cfg) <= SchedulingConfig.StartHour (cfgScheduling cfg) ->
  ShouldOperate cfg hour = false.
Proof.
  intros Hon Hbh Hwin. unfold ShouldOperate. rewrite Hon, Hbh. cbn [negb orb].
  apply andb_false_iff.
  destruct (Z.leb_spec (SchedulingConfig.StartHour (cfgScheduling cfg)) hour);
    [right; apply Z.ltb_ge; lia | left; reflexivity].
Qed.

Lemma ShouldOperate_empty_window_witness : ShouldOperate configNight 23 = false.
Proof.
  apply (ShouldOperate_empty_window configNight 23); [reflexivity | reflexivity | ].
  cbn. lia.
Defined.

(** X2.  [RandomBreak] never panics; it either does nothing or sleeps once,
    for 60 to 359 seconds; with scheduling disabled it does nothing and
    draws nothing. *)
Theorem RandomBreak_run (cfg : Config) (r : Rand) :
  exists (t : list event) (r' : Rand),
    RandomBreak cfg r = (t, Done tt r')
    /\ (t = [] \/ exists d, t = [ESleep d] /\ 60 * Second <= d <= 359 * Second)
    /\ (SchedulingConfig.Enabled (cfgScheduling cfg) = false -> t = [] /\ r' = r).
Proof.
  unfold RandomBreak.
  destruct (SchedulingConfig.Enabled (cfgScheduling cfg)); cbn [negb].
  - draw_float.
    destruct (unit_draw r <? SchedulingConfig.BreakProbability (cfgScheduling cfg))%float;
      cbn [when].
    + draw_int. unfold Sleep, emit.
      eexists _, _. split; [reflexivity|]. split; [|discriminate].
      right. eexists. split; [reflexivity|].
      pose proof (Intn_range 300 (next r) eq_refl) as Hn.
      unfold mul64, add64, Second.
      rewrite (wrap64_id (_ + 60)) by lia. rewrite wrap64_id by lia. lia.
    + eexists _, _. split; [reflexivity|]. split; [left; reflexivity | discriminate].
  - exists [], r. split; [reflexivity|].
    split; [left; reflexivity | intros _; split; reflexivity].
Qed.

(** X3.  With timing enabled and think times of at most [2 ^ 40] ms in
    magnitude, [RandomDelay] sleeps exactly once, for [min + n] ms with
    [0 <= n < max - min] when [min < max], and for [min] ms when the range
    is degenerate or inverted ([max <= min]). *)
Theorem RandomDelay_pause (cfg : Config) (r : Rand) :
  TimingConfig.Enabled (cfgTiming cfg) = true ->
  - 2 ^ 40 <= TimingConfig.MinThinkTime (cfgTiming cfg) <= 2 ^ 40 ->
  - 2 ^ 40 <= TimingConfig.MaxThinkTime (cfgTiming cfg) <= 2 ^ 40 ->
  exists n : Z,
    RandomDelay cfg r
    = ([ESleep ((TimingConfig.MinThinkTime (cfgTiming cfg) + n) * Millisecond)],
       Done tt (next r))
    /\ 0 <= n
    /\ (TimingConfig.MinThinkTime (cfgTiming cfg) < TimingConfig.MaxThinkTime (cfgTiming cfg) ->
        n < TimingConfig.MaxThinkTime (cfgTiming cfg) - TimingConfig.MinThinkTime (cfgTiming cfg))
    /\ (TimingConfig.MaxThinkTime (cfgTiming cfg) <= TimingConfig.MinThinkTime (cfgTiming cfg) ->
        n = 0).
Proof.
  intros Hon Hlo Hhi. unfold RandomDelay. rewrite Hon. cbn [negb].
  set (lo := TimingConfig.MinThinkTime (cfgTiming cfg)) in *.
  set (hi := TimingConfig.MaxThinkTime (cfgTiming cfg)) in *.
  assert (H40 : 2 ^ 40 = 1099511627776) by reflexivity.
  set (hi' := if hi <=? lo then add64 lo 1 else hi).
  assert (Hhi' : hi' = if hi <=? lo then lo + 1 else hi).
  { unfold hi'. destruct (hi <=? lo); [|reflexivity]. unfold add64. apply wrap64_id. lia. }
  assert (Hrange : sub64 hi' lo = hi' - lo /\ 0 < hi' - lo <= 2 ^ 41 + 1).
  { rewrite Hhi'. destruct (Z.leb_spec hi lo).
    - unfold sub64. rewrite wrap64_id by lia. lia.
    - unfold sub64. rewrite wrap64_id by lia.
      change (2 ^ 41) with 2199023255552. lia. }
  destruct Hrange as [Hsub Hpos].
  change (2 ^ 41) with 2199023255552 in Hpos. clearbody hi'.
  pose proof (Intn_range (hi' - lo) r ltac:(lia)) as Hn.
  exists (raw (current r) mod (hi' - lo)).
  split; [|split; [lia | split]].
  - rewrite Hsub. draw_int. unfold Sleep, emit, mul64, add64, Millisecond.
    rewrite (wrap64_id (_ + lo)) by lia. rewrite wrap64_id by lia.
    rewrite (Z.add_comm lo). reflexivity.
  - intros Hlt. destruct (Z.leb_spec hi lo); lia.
  - intros Hle. destruct (Z.leb_spec hi lo); lia.
Qed.

Lemma RandomDelay_pause_witness :
  exists n : Z,
    RandomDelay (configTypo 0.05) (constantRand 7 0.5)
    = ([ESleep ((1000 + n) * Millisecond)], Done tt (next (constantRand 7 0.5)))
    /\ 0 <= n
    /\ (1000 < 5000 -> n < 5000 - 1000)
    /\ (5000 <= 1000 -> n = 0).
Proof.
  apply (RandomDelay_pause (configTypo 0.05) (constantRand 7 0.5));
    [reflexivity | cbn; lia | cbn; lia].
Defined.

(** X4.  With a proper hover range ([min < max], both of at most [2 ^ 40]
    ms in magnitude), [hoverOverElement] sleeps exactly once, for [min + n]
    ms with [0 <= n < max - min]: the hover never lasts [max] ms. *)
Theorem hoverOverElement_pause (cfg : Config) (r : Rand) :
  - 2 ^ 40 <= HoveringConfig.HoverDurationMin (cfgHovering cfg) ->
  HoveringConfig.HoverDurationMin (cfgHovering cfg)
  < HoveringConfig.HoverDurationMax (cfgHovering cfg) ->
  HoveringConfig.HoverDurationMax (cfgHovering cfg) <= 2 ^ 40 ->
  exists n : Z,
    hoverOverElement cfg r
    = ([ESleep ((HoveringConfig.HoverDurationMin (cfgHovering cfg) + n) * Millisecond)],
       Done tt (next r))
    /\ 0 <= n < HoveringConfig.HoverDurationMax (cfgHovering cfg)
               - HoveringConfig.HoverDurationMin (cfgHovering cfg).
Proof.
  intros Hlo Hlt Hhi. unfold hoverOverElement.
  set (lo := HoveringConfig.HoverDurationMin (cfgHovering cfg)) in *.
  set (hi := HoveringConfig.HoverDurationMax (cfgHovering cfg)) in *.
  assert (H40 : 2 ^ 40 = 1099511627776) by reflexivity.
  assert (Hsub : sub64 hi lo = hi - lo) by (unfold sub64; apply wrap64_id; lia).
  pose proof (Intn_range (hi - lo) r ltac:(lia)) as Hn.
  exists (raw (current r) mod (hi - lo)). split; [|lia].
  rewrite Hsub. draw_int. unfold Sleep, emit, mul64, add64, Millisecond.
  rewrite (wrap64_id (_ + lo)) by lia. rewrite wrap64_id by lia.
  rewrite (Z.add_comm lo). reflexivity.
Qed.

Lemma hoverOverElement_pause_witness :
  exists n : Z,
    hoverOverElement (configTypo 0.05) (constantRand 7 0.5)
    = ([ESleep ((500 + n) * Millisecond)], Done tt (next (constantRand 7 0.5)))
    /\ 0 <= n < 2000 - 500.
Proof.
  apply (hoverOverElement_pause (configTypo 0.05) (constantRand 7 0.5)); cbn; lia.
Defined.

(** ** moveMouseToElement and HumanClick *)

Lemma clicks_app (p q : list event) : clicks (p ++ q) = (clicks p + clicks q)%nat.
Proof.
  induction p as [|e p IH]; [reflexivity|].
  destruct e; cbn [app clicks]; rewrite IH; reflexivity.
Qed.

Lemma clicks_trajectory (pts : list (float * float)) (ds : list Z) :
  clicks (trajectory pts ds) = O.
Proof.
  unfold trajectory. induction (combine pts ds) as [|pd l IH]; [reflexivity|].
  cbn [map List.concat app clicks]. exact IH.
Qed.

Lemma pointerOnly_trajectory (pts : list (float * float)) (ds : list Z) :
  forallb pointerOnly (trajectory pts ds) = true.
Proof.
  unfold trajectory. induction (combine pts ds) as [|pd l IH]; [reflexivity | exact IH].
Qed.

Lemma pointerOnly_inert (t : list event) :
  forallb pointerOnly t = true -> clicks t = O /\ keystrokes t = [] /\ committed t = [].
Proof.
  induction t as [|e t IH]; [repeat split|].
  cbn [forallb]. intros H. apply andb_true_iff in H. destruct H as [He Ht].
  destruct e; try discriminate; exact (IH Ht).
Qed.

Lemma sleeps_trajectory (pts : list (float * float)) (ds : list Z) :
  List.length pts = List.length ds -> sleeps (trajectory pts ds) = ds.
Proof.
  revert ds. induction pts as [|p pts IH]; intros [|d ds] Hlen; try discriminate.
  - reflexivity.
  - unfold trajectory in *. cbn [combine map List.concat app sleeps fst snd].
    f_equal. apply IH. injection Hlen as Hlen. exact Hlen.
Qed.

(** [moveMouseToElement] returns whatever the box and the viewport: a
    trajectory of [steps + 1] pauses, each of 2 to 11.7 ms. *)
Lemma moveMouseToElement_run (cfg : Config) (box : Box) (w h : float) (r : Rand) :
  exists (steps : Z) (pts : list (float * float)) (ds : list Z) (r' : Rand),
    moveMouseToElement cfg box w h r = (trajectory pts ds, Done tt r')
    /\ 25 <= steps <= 39
    /\ List.length pts = List.length ds
    /\ Z.of_nat (List.length ds) = steps + 1
    /\ Forall (fun d => 2 * Millisecond <= d <= 11700000) ds.
Proof.
  set (cx := fst (plannedCurves box w h r)).
  set (cy := snd (plannedCurves box w h r)).
  set (r6 := next (next (next (next (next (next r)))))).
  set (steps := add64 (raw (current r6) mod 15) 25).
  assert (Hsteps : 25 <= steps <= 39).
  { pose proof (Intn_range 15 r6 eq_refl) as Hn.
    unfold steps, add64. rewrite wrap64_id; lia. }
  destruct (moveSteps_run cfg cx cy steps (upto (steps + 1)) (next r6))
    as (pts & ds & r' & Hrun & Hpts & Hds).
  exists steps, pts, ds, r'.
  split; [|split; [exact Hsteps | split; [|split]]].
  - unfold moveMouseToElement. rewrite run_bind, planCurves_run.
    cbn [fst snd app]. draw_int. unfold moveAlong. fold r6 steps cx cy.
    rewrite Hrun. reflexivity.
  - rewrite <- (Forall2_length Hpts), <- (Forall2_length Hds). reflexivity.
  - rewrite <- (Forall2_length Hds). apply length_upto. lia.
  - apply (Forall2_Forall_r _ _ _ _ Hds). intros i d Hi (b & Hb & ->).
    apply upto_range in Hi. apply stepSleep_bounds; lia.
Qed.

Lemma total_bounds (lo hi : Z) (l : list Z) :
  Forall (fun d => lo <= d <= hi) l ->
  Z.of_nat (List.length l) * lo <= total l <= Z.of_nat (List.length l) * hi.
Proof.
  induction 1 as [|d l Hd _ IH]; [cbn; lia|].
  unfold total in *. cbn [fold_right List.length]. lia.
Qed.

(** X5.  [moveMouseToElement] always returns, whatever the box of the
    element and the viewport (infinite or NaN coordinates included); its
    pauses add up to between 52 and 468 ms; it never clicks. *)
Theorem moveMouseToElement_duration (cfg : Config) (box : Box) (w h : float) (r : Rand) :
  returns (moveMouseToElement cfg box w h r) = true
  /\ 52 * Millisecond <= total (sleeps (events (moveMouseToElement cfg box w h r)))
     <= 468 * Millisecond
  /\ clicks (events (moveMouseToElement cfg box w h r)) = O.
Proof.
  destruct (moveMouseToElement_run cfg box w h r)
    as (steps & pts & ds & r' & Hrun & Hsteps & Hlen & Hn & Hall).
  rewrite Hrun. unfold events, returns. cbn [fst snd].
  split; [reflexivity|]. split; [|apply clicks_trajectory].
  rewrite (sleeps_trajectory pts ds Hlen).
  pose proof (total_bounds _ _ ds Hall) as Ht. unfold Millisecond in *. nia.
Qed.

(** The pointer part of [HumanClick]: it returns, and only moves and
    pauses. *)
Lemma HumanClick_move (cfg : Config) (box : Box) (w h : float) (r : Rand) :
  exists (t : list event) (r' : Rand),
    when (MouseMovementConfig.Enabled (cfgMouse cfg)) (moveMouseToElement cfg box w h) r
    = (t, Done tt r')
    /\ clicks t = O /\ committed t = [] /\ forallb pointerOnly t = true.
Proof.
  destruct (moveMouseToElement_run cfg box w h r) as (steps & pts & ds & r1 & Hrun & _).
  assert (Hinert : forall t : list event,
             forallb pointerOnly t = true ->
             clicks t = O /\ committed t = [] /\ forallb pointerOnly t = true).
  { intros t Ht. destruct (pointerOnly_inert t Ht) as (Hc & _ & Hk). repeat split; assumption. }
  destruct (MouseMovementConfig.Enabled (cfgMouse cfg)); cbn [when].
  - exists (trajectory pts ds), r1.
    split; [exact Hrun | apply Hinert, pointerOnly_trajectory].
  - exists [], r. repeat split.
Qed.

(** [HumanClick] with a hover range [rng.Intn] accepts: the pointer moves,
    the hover, and then the click. *)
Lemma HumanClick_run (cfg : Config) (box : Box) (w h : float) (r : Rand) :
  hover_range_ok cfg ->
  exists (pre : list event) (r' : Rand),
    HumanClick cfg box w h r = (pre ++ [EClick], Done tt r')
    /\ clicks pre = O /\ committed pre = [] /\ forallb pointerOnly pre = true.
Proof.
  intros Hok. unfold HumanClick.
  destruct (HumanClick_move cfg box w h r) as (t0 & r0 & Hmove & _ & _ & Hp0).
  assert (Htail : exists (t : list event) (r' : Rand),
     ((if HoveringConfig.Enabled (cfgHovering cfg) then
        u <- Float64 ;;
        when (u <? HoveringConfig.HoverProbability (cfgHovering cfg))%float
             (hoverOverElement cfg)
      else ret tt) ;; emit EClick) r0 = (t ++ [EClick], Done tt r')
     /\ forallb pointerOnly t = true).
  { destruct (HoveringConfig.Enabled (cfgHovering cfg)) eqn:Hon.
    - destruct Hok as [Hoff | Hrange]; [congruence|].
      rewrite run_bind. draw_float.
      destruct (unit_draw r0 <? HoveringConfig.HoverProbability (cfgHovering cfg))%float;
        cbn [when].
      + unfold hoverOverElement. draw_int. unfold Sleep, emit. cbn [fst snd app].
        eexists [_], _. split; reflexivity.
      + exists [], (next r0). split; reflexivity.
    - exists [], r0. split; reflexivity. }
  destruct Htail as (t & r' & Htail & Hp).
  assert (Hpre : forallb pointerOnly (t0 ++ t) = true)
    by (rewrite forallb_app, Hp0, Hp; reflexivity).
  destruct (pointerOnly_inert _ Hpre) as (Hc & _ & Hk).
  exists (t0 ++ t), r'. split; [|split; [exact Hc | split; [exact Hk | exact Hpre]]].
  rewrite run_bind, Hmove. cbn [fst snd]. rewrite Htail. cbn [fst snd].
  rewrite app_assoc. reflexivity.
Qed.

(** When the hover and the click panic, nothing was done after the pointer
    moves. *)
Lemma HumanClick_tail_panic (cfg : Config) (r : Rand) (t : list event) (msg : string) :
  ((if HoveringConfig.Enabled (cfgHovering cfg) then
      u <- Float64 ;;
      when (u <? HoveringConfig.HoverProbability (cfgHovering cfg))%float
           (hoverOverElement cfg)
    else ret tt) ;; emit EClick) r = (t, Panic msg) ->
  t = [].
Proof.
  destruct (HoveringConfig.Enabled (cfgHovering cfg)).
  - rewrite run_bind. draw_float.
    destruct (unit_draw r <? HoveringConfig.HoverProbability (cfgHovering cfg))%float;
      cbn [when].
    + unfold hoverOverElement.
      destruct (Z.lt_ge_cases 0 (sub64 (HoveringConfig.HoverDurationMax (cfgHovering cfg))
                                       (HoveringConfig.HoverDurationMin (cfgHovering cfg))))
        as [Hrange | Hrange].
      * rewrite run_bind, (run_Intn _ _ Hrange). cbn. discriminate.
      * rewrite run_bind, (run_Intn_panics _ _ Hrange). cbn. congruence.
    + cbn. discriminate.
  - cbn. discriminate.
Qed.

(** X6.  [HumanClick] clicks exactly once, as its last action, whenever the
    hover range is a proper one or hovering is disabled; and when it panics
    (the hover drew from an empty range) the element was not clicked. *)
Theorem HumanClick_clicks_last (cfg : Config) (box : Box) (w h : float) (r : Rand) :
  (hover_range_ok cfg ->
   exists (pre : list event) (r' : Rand),
     HumanClick cfg box w h r = (pre ++ [EClick], Done tt r') /\ clicks pre = O)
  /\ (forall (t : list event) (msg : string),
        HumanClick cfg box w h r = (t, Panic msg) -> clicks t = O).
Proof.
  split.
  - intros Hok. destruct (HumanClick_run cfg box w h r Hok) as (pre & r' & Hrun & Hc & _).
    exists pre, r'. split; assumption.
  - intros t msg. unfold HumanClick.
    destruct (HumanClick_move cfg box w h r) as (t0 & r0 & Hmove & Hc0 & _).
    rewrite run_bind, Hmove. cbn [fst snd].
    destruct ((_ ;; emit EClick) r0) as [t1 [a r'|msg1]] eqn:Htail; [discriminate|].
    intros Heq. injection Heq as <- _.
    apply HumanClick_tail_panic in Htail. subst t1.
    rewrite app_nil_r. exact Hc0.
Qed.

(** X7.  For finite control values, [bezierCurve] is at its first control
    value at [t = 0] and at its last at [t = 1] (equal for Go's [==]). *)
Theorem bezierCurve_endpoints (p0 p1 p2 p3 : float) :
  finite p0 = true -> finite p1 = true -> finite p2 = true -> finite p3 = true ->
  (bezierCurve 0 p0 p1 p2 p3 =? p0)%float = true
  /\ (bezierCurve 1 p0 p1 p2 p3 =? p3)%float = true.
Proof.
  intros H0 H1 H2 H3. split; apply same_value_eqb; try assumption.
  - apply bezierCurve_start; assumption.
  - apply bezierCurve_end; assumption.
Qed.

Lemma bezierCurve_endpoints_witness :
  (bezierCurve 0 640 700 750 125 =? 640)%float = true
  /\ (bezierCurve 1 640 700 750 125 =? 125)%float = true.
Proof. apply (bezierCurve_endpoints 640 700 750 125); reflexivity. Defined.

(** ** HumanType *)

(** X8.  With typing disabled, [HumanType] focuses the element and inputs
    the characters of the text, one by one and nothing else: no pause, no
    typo, no draw from the random source (so no panic either, whatever the
    delay range). *)
Theorem HumanType_typing_disabled (cfg : Config) (text : list rune) (r : Rand) :
  TypingConfig.Enabled (cfgTyping cfg) = false ->
  HumanType cfg text r = (EFocus :: map (fun c => EInput (Commit c)) text, Done tt r).
Proof.
  intros Hoff. rewrite HumanType_run, (typing_disabled_run cfg text r Hoff). reflexivity.
Qed.

Lemma HumanType_typing_disabled_witness :
  HumanType configPlain [104; 105] (constantRand 7 0.5)
  = (EFocus :: map (fun c => EInput (Commit c)) [104; 105], Done tt (constantRand 7 0.5)).
Proof.
  apply (HumanType_typing_disabled configPlain [104; 105] (constantRand 7 0.5)).
  reflexivity.
Defined.

(** A value that is not below zero is not below a value that is not above
    zero. *)
Lemma ltb_not_positive (u p : float) :
  (0 <=? u)%float = true -> (0 <? p)%float = false -> (u <? p)%float = false.
Proof.
  rewrite leb_spec, !ltb_spec.
  assert (E0 : Prim2SF 0 = S754_zero false) by (vm_compute; reflexivity).
  rewrite E0. unfold SFleb, SFltb.
  destruct (Prim2SF u) as [su|[|]| |[|] mu eu], (Prim2SF p) as [sp|[|]| |[|] mp ep];
    cbn [SFcompare]; try congruence; try discriminate.
Qed.

Lemma typing_without_typo (cfg : Config) (text : list rune) (r : Rand) :
  TypingConfig.Enabled (cfgTyping cfg) = true ->
  0 < sub64 (TypingConfig.MaxKeystrokeDelay (cfgTyping cfg))
            (TypingConfig.MinKeystrokeDelay (cfgTyping cfg)) ->
  (0 <? TypingConfig.TypoProbability (cfgTyping cfg))%float = false ->
  exists (ds : list Z) (r' : Rand),
    List.length ds = List.length text
    /\ for_each text (typeChar cfg) r
       = (typedBlocks text (map (fun d => (d, false)) ds), Done tt r').
Proof.
  intros Hon Hrange Hp. revert r. induction text as [|c rest IH]; intros r.
  - exists [], r. split; reflexivity.
  - destruct (IH (next (next r))) as (ds & r' & Hlen & Hrun).
    eexists (_ :: ds), r'. split.
    + cbn [List.length]. rewrite Hlen. reflexivity.
    + cbn [for_each]. rewrite run_bind, (typeChar_enabled cfg c r Hon Hrange), Hrun.
      rewrite (ltb_not_positive _ _ (unit_draw_ge_0 (next r)) Hp). reflexivity.
Qed.

Lemma keystrokes_plain_blocks (text : list rune) (ds : list Z) :
  List.length ds = List.length text ->
  keystrokes (typedBlocks text (map (fun d => (d, false)) ds)) = map Commit text.
Proof.
  revert ds. induction text as [|c rest IH]; intros [|d ds] Hlen; try discriminate.
  - reflexivity.
  - unfold typedBlocks in *. cbn [map combine List.concat fst snd].
    rewrite keystrokes_app. cbn [typedBlock keystrokes app]. f_equal.
    apply IH. injection Hlen as Hlen. exact Hlen.
Qed.

(** X9.  With typing enabled, a proper delay range and a typo probability
    that is not above zero (zero, a negative value or NaN), [HumanType]
    returns and makes no typo: its keystrokes are the characters of the
    text alone. *)
Theorem HumanType_no_typo (cfg : Config) (text : list rune) (r : Rand) :
  TypingConfig.Enabled (cfgTyping cfg) = true ->
  0 < sub64 (TypingConfig.MaxKeystrokeDelay (cfgTyping cfg))
            (TypingConfig.MinKeystrokeDelay (cfgTyping cfg)) ->
  (0 <? TypingConfig.TypoProbability (cfgTyping cfg))%float = false ->
  returns (HumanType cfg text r) = true
  /\ keystrokes (events (HumanType cfg text r)) = map Commit text.
Proof.
  intros Hon Hrange Hp.
  destruct (typing_without_typo cfg text r Hon Hrange Hp) as (ds & r' & Hlen & Hrun).
  rewrite HumanType_run, Hrun. unfold returns, events. cbn [fst snd keystrokes].
  split; [reflexivity | apply keystrokes_plain_blocks; exact Hlen].
Qed.

Lemma HumanType_no_typo_witness :
  returns (HumanType (configTypo 0) [104; 105] (constantRand 7 0)) = true
  /\ keystrokes (events (HumanType (configTypo 0) [104; 105] (constantRand 7 0)))
     = map Commit [104; 105].
Proof.
  apply (HumanType_no_typo (configTypo 0) [104; 105] (constantRand 7 0));
    vm_compute; reflexivity.
Defined.

Lemma sleeps_app (p q : list event) : sleeps (p ++ q) = sleeps p ++ sleeps q.
Proof.
  induction p as [|e p IH]; [reflexivity|].
  destruct e; cbn [app sleeps]; rewrite IH; reflexivity.
Qed.

Lemma sleeps_typedBlocks (P : Z -> Prop) (text : list rune) (ds : list (Z * bool)) :
  Forall (fun p => P (fst p)) ds -> Forall P (sleeps (typedBlocks text ds)).
Proof.
  intros Hall. revert text. induction Hall as [|[d b] ds Hd _ IH]; intros [|c rest].
  - constructor.
  - constructor.
  - constructor.
  - unfold typedBlocks in *. cbn [combine map List.concat fst snd].
    rewrite sleeps_app. apply Forall_app. split; [|apply IH].
    cbn [fst] in Hd. destruct b; cbn; repeat constructor; assumption.
Qed.

(** X10.  With typing enabled and a proper delay range ([min < max], both
    of at most [2 ^ 40] ms in magnitude), [HumanType] returns and every
    pause of its plan lasts at least [min] ms and less than [max] ms. *)
Theorem HumanType_pauses (cfg : Config) (text : list rune) (r : Rand) :
  TypingConfig.Enabled (cfgTyping cfg) = true ->
  - 2 ^ 40 <= TypingConfig.MinKeystrokeDelay (cfgTyping cfg) ->
  TypingConfig.MinKeystrokeDelay (cfgTyping cfg)
  < TypingConfig.MaxKeystrokeDelay (cfgTyping cfg) ->
  TypingConfig.MaxKeystrokeDelay (cfgTyping cfg) <= 2 ^ 40 ->
  returns (HumanType cfg text r) = true
  /\ Forall (fun d => TypingConfig.MinKeystrokeDelay (cfgTyping cfg) * Millisecond <= d
                      < TypingConfig.MaxKeystrokeDelay (cfgTyping cfg) * Millisecond)
            (sleeps (events (HumanType cfg text r))).
Proof.
  intros Hon Hlo Hlt Hhi.
  set (lo := TypingConfig.MinKeystrokeDelay (cfgTyping cfg)) in *.
  set (hi := TypingConfig.MaxKeystrokeDelay (cfgTyping cfg)) in *.
  assert (H40 : 2 ^ 40 = 1099511627776) by reflexivity.
  assert (Hsub : sub64 hi lo = hi - lo) by (unfold sub64; apply wrap64_id; lia).
  destruct (typing_enabled_run cfg text r Hon ltac:(fold lo hi; lia))
    as (ds & r' & Hlen & Hall & Hrun).
  rewrite HumanType_run, Hrun. unfold returns, events. cbn [fst snd sleeps].
  split; [reflexivity|]. apply sleeps_typedBlocks.
  revert Hall. apply Forall_impl. intros [d b] [(n & Hn & Hd) _]. cbn [fst] in *.
  fold lo hi in Hn, Hd. rewrite Hsub in Hn. subst d.
  unfold mul64, add64, Millisecond.
  rewrite (wrap64_id (_ + lo)) by lia. rewrite wrap64_id by lia. lia.
Qed.

Lemma HumanType_pauses_witness :
  returns (HumanType (configTypo 0.05) [104; 105] (constantRand 7 0.01)) = true
  /\ Forall (fun d => 50 * Millisecond <= d < 200 * Millisecond)
            (sleeps (events (HumanType (configTypo 0.05) [104; 105] (constantRand 7 0.01)))).
Proof.
  apply (HumanType_pauses (configTypo 0.05) [104; 105] (constantRand 7 0.01));
    [reflexivity | cbn; lia | cbn; lia | cbn; lia].
Defined.

(** ** ScrollHumanLike on a short distance *)

(** X11.  With scrolling enabled and a distance below 4 (zero and negative
    distances included), [distance / 4] is not positive: the forward steps
    are made, and then the call returns if no scroll-back is drawn and
    panics in [rng.Intn] if one is; no scroll-back is ever made. *)
Theorem ScrollHumanLike_short_distance (cfg : Config) (distance : Z) (r : Rand) :
  ScrollingConfig.Enabled (cfgScrolling cfg) = true ->
  - 2 ^ 63 <= distance < 4 ->
  exists (sl : list (Z * Z)) (r1 : Rand),
    5 <= Z.of_nat (List.length sl) <= 14
    /\ ScrollHumanLike cfg distance r
       = (scrollEvents sl,
          if (unit_draw r1 <? ScrollingConfig.ScrollBackProbability (cfgScrolling cfg))%float
          then Panic "invalid argument to Intn"
          else Done tt (next r1)).
Proof.
  intros Hon Hd.
  destruct (ScrollHumanLike_run cfg distance r Hon) as (steps & sl & r1 & Hs & Hlen & _ & Hrun).
  exists sl, r1. split; [lia|]. rewrite Hrun.
  destruct (unit_draw r1 <? ScrollingConfig.ScrollBackProbability (cfgScrolling cfg))%float
    eqn:Hdraw.
  - unfold scrollBack. rewrite run_bind, run_Float64. cbn [fst snd app].
    rewrite Hdraw. cbn [when].
    assert (Hq : div64 distance 4 <= 0).
    { unfold div64.
      assert (- 2 ^ 61 <= Z.quot distance 4 <= 0).
      { split.
        - apply Z.quot_le_lower_bound; lia.
        - destruct (Z.le_gt_cases 0 distance).
          + rewrite Z.quot_small; lia.
          + apply Z.quot_le_upper_bound; lia. }
      rewrite wrap64_id; lia. }
    rewrite run_bind, (run_Intn_panics _ _ Hq). cbn [fst snd].
    rewrite app_nil_r. reflexivity.
  - rewrite (scrollBack_none cfg distance r1 Hdraw). cbn [fst snd].
    rewrite app_nil_r. reflexivity.
Qed.

Lemma ScrollHumanLike_short_distance_witness :
  exists (sl : list (Z * Z)) (r1 : Rand),
    5 <= Z.of_nat (List.length sl) <= 14
    /\ ScrollHumanLike (configScroll 0.6 1) 3 (constantRand 0 0)
       = (scrollEvents sl,
          if (unit_draw r1 <? ScrollingConfig.ScrollBackProbability
                                (cfgScrolling (configScroll 0.6 1)))%float
          then Panic "invalid argument to Intn"
          else Done tt (next r1)).
Proof.
  apply (ScrollHumanLike_short_distance (configScroll 0.6 1) 3 (constantRand 0 0));
    [reflexivity | split; [vm_compute; discriminate | lia]].
Defined.

(** ** Apply *)

(** X12.  [Apply] returns no error.  With a viewport of at most [2 ^ 62]
    pixels, the viewport it sets is the configured one moved by -50 to +49
    pixels on each side; with fingerprint masking disabled it does nothing
    and draws nothing; and the setting [RandomizeUserAgent] has no effect on
    what it does. *)
Theorem Apply_viewport (cfg : Config) (fp : FingerprintConfig.t) (vp : ViewportConfig.t)
        (g : Rand) :
  - 2 ^ 62 <= ViewportConfig.Width vp <= 2 ^ 62 ->
  - 2 ^ 62 <= ViewportConfig.Height vp <= 2 ^ 62 ->
  exists (done : list setup) (g' : Rand),
    Apply cfg fp vp g = (None, done, g')
    /\ (forall width height : Z,
          In (SetViewport width height) done ->
          ViewportConfig.Width vp - 50 <= width <= ViewportConfig.Width vp + 49
          /\ ViewportConfig.Height vp - 50 <= height <= ViewportConfig.Height vp + 49)
    /\ (FingerprintConfig.Enabled fp = false -> done = [] /\ g' = g)
    /\ Apply cfg fp vp g
       = Apply cfg {| FingerprintConfig.Enabled := FingerprintConfig.Enabled fp;
                      FingerprintConfig.RandomizeUserAgent :=
                        negb (FingerprintConfig.RandomizeUserAgent fp);
                      FingerprintConfig.RandomizeViewport :=
                        FingerprintConfig.RandomizeViewport fp;
                      FingerprintConfig.DisableWebdriverFlag :=
                        FingerprintConfig.DisableWebdriverFlag fp |} vp g.
Proof.
  intros Hw Hh. unfold Apply, applyTiming.
  assert (Hjit : forall (v : Z) (q : Rand), - 2 ^ 62 <= v <= 2 ^ 62 ->
             v - 50 <= sub64 (add64 v (raw (current q) mod 100)) 50 <= v + 49).
  { intros v q Hv. pose proof (Intn_range 100 q eq_refl) as Hn.
    unfold sub64, add64. rewrite (wrap64_id (v + _)) by lia. rewrite wrap64_id by lia. lia. }
  destruct (FingerprintConfig.Enabled fp) eqn:Hon.
  - unfold applyFingerprintMasking. cbn [FingerprintConfig.RandomizeViewport
      FingerprintConfig.DisableWebdriverFlag FingerprintConfig.Enabled].
    destruct (FingerprintConfig.RandomizeViewport fp),
      (FingerprintConfig.DisableWebdriverFlag fp),
      (TimingConfig.Enabled (cfgTiming cfg));
      cbn [app]; eexists _, _; (split; [reflexivity|]);
      (split; [|split; [discriminate | reflexivity]]);
      intros width height Hin; cbn [In] in Hin;
      repeat match goal with
             | H : _ \/ _ |- _ => destruct H
             | H : False |- _ => destruct H
             | H : Eval _ = SetViewport _ _ |- _ => discriminate H
             | H : SetViewport _ _ = SetViewport _ _ |- _ => injection H as <- <-
             end;
      (split; [apply (Hjit _ g) | apply (Hjit _ (next g))]; assumption).
  - cbn [FingerprintConfig.Enabled].
    destruct (TimingConfig.Enabled (cfgTiming cfg)); cbn [app];
      exists [], g; (split; [reflexivity|]);
      (split; [intros ? ? []|]); (split; [intros _; split; reflexivity | reflexivity]).
Qed.

Lemma Apply_viewport_witness :
  exists (done : list setup) (g' : Rand),
    Apply (configTypo 0.05) sampleFingerprint sampleViewport (constantRand 7 0) = (None, done, g')
    /\ (forall width height : Z,
          In (SetViewport width height) done ->
          1280 - 50 <= width <= 1280 + 49 /\ 720 - 50 <= height <= 720 + 49)
    /\ (FingerprintConfig.Enabled sampleFingerprint = false ->
        done = [] /\ g' = constantRand 7 0)
    /\ Apply (configTypo 0.05) sampleFingerprint sampleViewport (constantRand 7 0)
       = Apply (configTypo 0.05)
               {| FingerprintConfig.Enabled := true;
                  FingerprintConfig.RandomizeUserAgent := negb true;
                  FingerprintConfig.RandomizeViewport := true;
                  FingerprintConfig.DisableWebdriverFlag := true |}
               sampleViewport (constantRand 7 0).
Proof.
  apply (Apply_viewport (configTypo 0.05) sampleFingerprint sampleViewport (constantRand 7 0));
    cbn; lia.
Defined.

(** ** fillLoginForm *)

Lemma clicks_typedBlocks (text : list rune) (ds : list (Z * bool)) :
  clicks (typedBlocks text ds) = O.
Proof.
  unfold typedBlocks. induction (combine text ds) as [|[c [d b]] l IH]; [reflexivity|].
  cbn [map List.concat fst snd]. rewrite clicks_app, IH.
  destruct b; reflexivity.
Qed.

Lemma clicks_commits (text : list rune) :
  clicks (map (fun c => EInput (Commit c)) text) = O.
Proof. induction text as [|c rest IH]; [reflexivity | exact IH]. Qed.

Lemma keystrokes_typedBlocks (text : list rune) (ds : list (Z * bool)) :
  keystrokes (typedBlocks text ds) = typedKeys text (map snd ds).
Proof.
  revert ds. induction text as [|c rest IH]; intros [|[d b] ds]; try reflexivity.
  unfold typedBlocks, typedKeys in *. cbn [map combine List.concat fst snd].
  rewrite keystrokes_app, IH. destruct b; reflexivity.
Qed.

Lemma keystrokes_commits (text : list rune) :
  keystrokes (map (fun c => EInput (Commit c)) text)
  = typedKeys text (map snd (map (fun _ : rune => (0, false)) text)).
Proof.
  induction text as [|c rest IH]; [reflexivity|].
  unfold typedKeys in *. cbn [map combine List.concat fst snd keystrokes app]. rewrite IH.
  reflexivity.
Qed.

(** [HumanType] with a delay range [rng.Intn] accepts: the focus, and then
    the text typed, a backspace right after each typo. *)
Lemma HumanType_plan (cfg : Config) (text : list rune) (r : Rand) :
  typing_range_ok cfg ->
  exists (ds : list (Z * bool)) (r' : Rand),
    HumanType cfg text r = (EFocus :: typedText cfg text ds, Done tt r')
    /\ List.length ds = List.length text
    /\ keystrokes (typedText cfg text ds) = typedKeys text (map snd ds)
    /\ committed (typedText cfg text ds) = text
    /\ clicks (typedText cfg text ds) = O.
Proof.
  intros Hok. rewrite HumanType_run. unfold typedText.
  destruct (TypingConfig.Enabled (cfgTyping cfg)) eqn:Hon.
  - destruct Hok as [Hoff | Hrange]; [congruence|].
    destruct (typing_enabled_run cfg text r Hon Hrange) as (ds & r' & Hlen & _ & Hrun).
    rewrite Hrun. exists ds, r'.
    split; [reflexivity|]. split; [exact Hlen|]. split; [apply keystrokes_typedBlocks|].
    split; [apply committed_typedBlocks; exact Hlen | apply clicks_typedBlocks].
  - rewrite (typing_disabled_run cfg text r Hon).
    exists (map (fun _ : rune => (0, false)) text), r.
    split; [reflexivity|]. split; [apply length_map|]. split; [apply keystrokes_commits|].
    split; [apply committed_commits | apply clicks_commits].
Qed.

(** X13.  With delay and hover ranges [rng.Intn] accepts, [fillLoginForm]
    returns, and does this and nothing else: it focuses a field and types
    the e-mail, focuses a field and types the password, each character
    followed, where a typo is drawn, by the wrong character and a backspace
    right after it; it then only moves the pointer and pauses; and it clicks
    exactly once, last. *)
Theorem fillLoginForm_types_credentials (cfg : Config) (email password : list rune)
        (signIn : Box) (w h : float) (r : Rand) :
  typing_range_ok cfg -> hover_range_ok cfg ->
  exists (emailPlan passwordPlan : list (Z * bool)) (pointer : list event) (r' : Rand),
    fillLoginForm cfg email password signIn w h r
    = (EFocus :: typedText cfg email emailPlan
       ++ EFocus :: typedText cfg password passwordPlan
       ++ pointer ++ [EClick], Done tt r')
    /\ List.length emailPlan = List.length email
    /\ List.length passwordPlan = List.length password
    /\ keystrokes (typedText cfg email emailPlan) = typedKeys email (map snd emailPlan)
    /\ keystrokes (typedText cfg password passwordPlan)
       = typedKeys password (map snd passwordPlan)
    /\ committed (typedText cfg email emailPlan) = email
    /\ committed (typedText cfg password passwordPlan) = password
    /\ forallb pointerOnly pointer = true
    /\ committed pointer = []
    /\ clicks (typedText cfg email emailPlan ++ typedText cfg password passwordPlan ++ pointer)
       = O.
Proof.
  intros Htyping Hhover. unfold fillLoginForm.
  destruct (HumanType_plan cfg email r Htyping) as (ds1 & r1 & H1 & Hl1 & Hs1 & Hc1 & Hk1).
  destruct (HumanType_plan cfg password r1 Htyping) as (ds2 & r2 & H2 & Hl2 & Hs2 & Hc2 & Hk2).
  destruct (HumanClick_run cfg signIn w h r2 Hhover) as (p3 & r3 & H3 & Hk3 & Hc3 & Hp3).
  exists ds1, ds2, p3, r3. split; [|repeat split; try assumption].
  - rewrite run_bind, H1. cbn [fst snd]. rewrite run_bind, H2. cbn [fst snd].
    rewrite H3. cbn [fst snd app]. reflexivity.
  - rewrite !clicks_app, Hk1, Hk2, Hk3. reflexivity.
Qed.

Lemma fillLoginForm_types_credentials_witness :
  exists (emailPlan passwordPlan : list (Z * bool)) (pointer : list event) (r' : Rand),
    fillLoginForm (configTypo 0.05) [97; 64; 98] [112; 119] sampleBox 1280 720
                  (constantRand 7 0.5)
    = (EFocus :: typedText (configTypo 0.05) [97; 64; 98] emailPlan
       ++ EFocus :: typedText (configTypo 0.05) [112; 119] passwordPlan
       ++ pointer ++ [EClick], Done tt r')
    /\ List.length emailPlan = List.length [97; 64; 98]
    /\ List.length passwordPlan = List.length [112; 119]
    /\ keystrokes (typedText (configTypo 0.05) [97; 64; 98] emailPlan)
       = typedKeys [97; 64; 98] (map snd emailPlan)
    /\ keystrokes (typedText (configTypo 0.05) [112; 119] passwordPlan)
       = typedKeys [112; 119] (map snd passwordPlan)
    /\ committed (typedText (configTypo 0.05) [97; 64; 98] emailPlan) = [97; 64; 98]
    /\ committed (typedText (configTypo 0.05) [112; 119] passwordPlan) = [112; 119]
    /\ forallb pointerOnly pointer = true
    /\ committed pointer = []
    /\ clicks (typedText (configTypo 0.05) [97; 64; 98] emailPlan
               ++ typedText (configTypo 0.05) [112; 119] passwordPlan ++ pointer)
       = O.
Proof.
  apply (fillLoginForm_types_credentials (configTypo 0.05) [97; 64; 98] [112; 119]
           sampleBox 1280 720 (constantRand 7 0.5));
    right; vm_compute; reflexivity.
Defined.

(** The keystrokes of the sample login with a typo at every character. *)
Example fillLoginForm_keystrokes :
  keystrokes (events (fillLoginForm (configTypo 1) [97; 98] [99] sampleBox 1280 720
                                    (constantRand 7 0.5)))
  = [Commit 97; Typo 120; Backspace; Commit 98; Typo 120; Backspace;
     Commit 99; Typo 120; Backspace].
Proof. vm_compute. reflexivity. Qed.

(** ** Strings: Split and ReplaceAll *)

(** The first part of a split is the longest prefix without the separator. *)
Lemma Split_first (s : string) (sep : ascii) :
  exists (first : string) (parts : list string) (rest : string),
    strings.Split s sep = first :: parts
    /\ s = (first ++ rest)%string
    /\ strings.Contains first sep = false
    /\ (rest = EmptyString \/ exists r, rest = String sep r).
Proof.
  induction s as [|c s IH].
  - exists EmptyString, [], EmptyString. repeat split. left. reflexivity.
  - cbn [strings.Split]. destruct (Ascii.eqb_spec c sep) as [-> | Hne].
    + exists EmptyString, (strings.Split s sep), (String sep s).
      repeat split. right. exists s. reflexivity.
    + destruct IH as (first & parts & rest & Hs & Heq & Hno & Hrest).
      rewrite Hs. exists (String c first), parts, rest.
      split; [reflexivity|]. split; [cbn; rewrite <- Heq; reflexivity|].
      split; [|exact Hrest].
      cbn [strings.Contains]. rewrite Hno.
      destruct (Ascii.eqb_spec c sep); [contradiction | reflexivity].
Qed.

Lemma Contains_app (a b : string) (c : ascii) :
  strings.Contains (a ++ b) c = strings.Contains a c || strings.Contains b c.
Proof.
  induction a as [|x a IH]; [reflexivity|].
  cbn [append strings.Contains]. rewrite IH, orb_assoc. reflexivity.
Qed.

Lemma Split_whole (s : string) (sep : ascii) :
  strings.Contains s sep = false -> strings.Split s sep = [s].
Proof.
  induction s as [|c s IH]; intros Hno; [reflexivity|].
  cbn [strings.Contains] in Hno. apply orb_false_iff in Hno. destruct Hno as [Hc Hno].
  cbn [strings.Split]. rewrite Hc, (IH Hno). reflexivity.
Qed.

Lemma Split_app (a b : string) (sep : ascii) :
  strings.Contains a sep = false ->
  strings.Split (a ++ String sep b) sep = a :: strings.Split b sep.
Proof.
  induction a as [|c a IH]; intros Hno.
  - cbn [append strings.Split]. rewrite Ascii.eqb_refl. reflexivity.
  - cbn [strings.Contains] in Hno. apply orb_false_iff in Hno. destruct Hno as [Hc Hno].
    cbn [append strings.Split]. rewrite Hc, (IH Hno). reflexivity.
Qed.

(** Splitting what was joined gives the parts back. *)
Lemma Split_concat (sep : ascii) (parts : list string) :
  parts <> [] ->
  Forall (fun p => strings.Contains p sep = false) parts ->
  strings.Split (String.concat (String sep EmptyString) parts) sep = parts.
Proof.
  intros Hne Hall. induction Hall as [|p parts Hp Hall IH]; [contradiction|].
  destruct parts as [|q parts].
  - cbn [String.concat]. apply Split_whole. exact Hp.
  - change (String.concat (String sep "") (p :: q :: parts))
      with (p ++ String sep (String.concat (String sep "") (q :: parts)))%string.
    rewrite (Split_app p _ sep Hp), IH by discriminate. reflexivity.
Qed.

Lemma append_assoc (a b c : string) : ((a ++ b) ++ c = a ++ b ++ c)%string.
Proof. induction a as [|x a IH]; [reflexivity|]. cbn. rewrite IH. reflexivity. Qed.

Lemma append_nil_r (s : string) : (s ++ "")%string = s.
Proof. induction s as [|c s IH]; [reflexivity|]. cbn. rewrite IH. reflexivity. Qed.

Lemma replace_no_brace (new a s : string) :
  strings.Contains a "{" = false ->
  strings.ReplaceAll (a ++ s) "{name}" new = (a ++ strings.ReplaceAll s "{name}" new)%string.
Proof.
  unfold strings.ReplaceAll. induction a as [|c a IH]; intros Hno; [reflexivity|].
  cbn [strings.Contains] in Hno. apply orb_false_iff in Hno. destruct Hno as [Hc Hno].
  cbn [append strings.replaceFrom]. cbn [prefix].
  destruct (ascii_dec "{" c) as [<- | Hne]; [discriminate|].
  rewrite (IH Hno). reflexivity.
Qed.

Lemma replace_placeholder (new s : string) :
  strings.ReplaceAll ("{name}" ++ s) "{name}" new
  = (new ++ strings.ReplaceAll s "{name}" new)%string.
Proof. unfold strings.ReplaceAll. cbn. destruct s; reflexivity. Qed.

(** ** pkg/connection: the note *)

(** X14.  [extractFirstName] returns the longest prefix of the name that
    has no space: the name is that prefix alone, or that prefix followed by
    a space and the rest (so a name that starts with a space has an empty
    first name, and a name without a space is returned whole). *)
Theorem extractFirstName_prefix (fullName : string) :
  exists rest : string,
    fullName = (extractFirstName fullName ++ rest)%string
    /\ strings.Contains (extractFirstName fullName) " " = false
    /\ (rest = EmptyString \/ exists r, rest = String " " r).
Proof.
  unfold extractFirstName.
  destruct (Split_first fullName " ") as (first & parts & rest & -> & Heq & Hno & Hrest).
  exists rest. repeat split; assumption.
Qed.

(** X15.  [generatePersonalizedNote] leaves a template without a brace as
    it is, and in a template that starts with a text without a brace
    followed by the placeholder it puts the first name of the profile in
    place of the placeholder and goes on with the rest of the template. *)
Theorem generatePersonalizedNote_placeholder (a b : string) (profile : database.Profile) :
  strings.Contains a "{" = false ->
  generatePersonalizedNote (a ++ "{name}" ++ b) profile
  = (a ++ extractFirstName (database.Name profile) ++ generatePersonalizedNote b profile)%string
  /\ generatePersonalizedNote a profile = a.
Proof.
  intros Hno. unfold generatePersonalizedNote. split.
  - rewrite (replace_no_brace _ a _ Hno), replace_placeholder. reflexivity.
  - rewrite <- (append_nil_r a) at 1. rewrite (replace_no_brace _ a _ Hno).
    cbn. apply append_nil_r.
Qed.

Lemma generatePersonalizedNote_placeholder_witness :
  generatePersonalizedNote ("Hi " ++ "{name}" ++ ", let us connect") johnSmith
  = ("Hi " ++ extractFirstName (database.Name johnSmith)
     ++ generatePersonalizedNote ", let us connect" johnSmith)%string
  /\ generatePersonalizedNote "Hi " johnSmith = "Hi "%string.
Proof.
  apply (generatePersonalizedNote_placeholder "Hi " ", let us connect" johnSmith).
  reflexivity.
Defined.

Example generatePersonalizedNote_sample :
  generatePersonalizedNote "Hi {name}, let us connect" johnSmith
  = "Hi John, let us connect"%string.
Proof. reflexivity. Qed.

(** ** SendConnectionRequests: what is written *)














(** X19.  When every profile of the table has been contacted,
    [SendConnectionRequests] returns no error, sends nothing and leaves the
    database as it is, the daily limit being reached or not: the limit is
    looked at only once there is a profile to contact. *)
Theorem SendConnectionRequests_nothing_to_do (cfg : Config) (env : Env) (db : DB) :
  Forall (fun p => contacted db p = true) (profiles db) ->
  SendConnectionRequests cfg env db = (None, 0, db).
Proof.
  intros Hall. unfold SendConnectionRequests, getUncontactedProfiles.
  rewrite filter_none; [reflexivity|].
  revert Hall. apply Forall_impl. intros p Hp. rewrite Hp. reflexivity.
Qed.

Lemma SendConnectionRequests_nothing_to_do_witness :
  SendConnectionRequests quotaConfig day1 dbContacted = (None, 0, dbContacted).
Proof.
  apply (SendConnectionRequests_nothing_to_do quotaConfig day1 dbContacted).
  repeat constructor.
Defined.

(** ** pkg/search: the search URL *)

Lemma Encode_searchValues (params : SearchParams.t) :
  url.Encode (searchValues params) = String.concat "&" (map pairText (searchPairs params)).
Proof.
  destruct params as [title location keywords].
  unfold searchValues, searchPairs, getLocationURN.
  cbn [SearchParams.JobTitle SearchParams.Location SearchParams.Keywords].
  destruct title as [|t0 title], location as [|l0 location], keywords as [|k0 keywords];
    reflexivity.
Qed.

(** X20.  The URL [buildSearchURL] returns is the base URL, the path
    [/search/results/people/], a [?] and the parameters joined with [&], in
    the order of their keys and not in the order they were set: [geoUrn]
    (for any location, always the same code), [keywords], [origin] (always)
    and [title]; a parameter whose text is empty is left out, and the texts
    are escaped. *)
Theorem buildSearchURL_shape (li : LinkedInConfig.t) (params : SearchParams.t) :
  buildSearchURL li params
  = (LinkedInConfig.BaseURL li ++ "/search/results/people/?"
     ++ String.concat "&" (map pairText (searchPairs params)))%string.
Proof.
  unfold buildSearchURL. rewrite Encode_searchValues, append_assoc. reflexivity.
Qed.

(** The URL of the search of [runSearch] in main.go. *)
Example buildSearchURL_sample :
  buildSearchURL sampleLinkedIn sampleParams
  = ("https://www.linkedin.com/search/results/people/?"
     ++ "geoUrn=urn%3Ali%3Ageo%3A103644278&keywords=Python+Go"
     ++ "&origin=SWITCH_SEARCH_VERTICAL&title=Software+Engineer")%string.
Proof. reflexivity. Qed.

Lemma querySafe_differs (h x : ascii) :
  querySafe h = true -> querySafe x = false -> Ascii.eqb h x = false.
Proof.
  intros Hh Hx. destruct (Ascii.eqb_spec h x) as [-> | Hne]; [congruence | reflexivity].
Qed.

Lemma upperhex_safe (c : ascii) :
  querySafe (url.upperhex (N.shiftr (N_of_ascii c) 4)) = true
  /\ querySafe (url.upperhex (N.land (N_of_ascii c) 15)) = true.
Proof.
  destruct c as [[] [] [] [] [] [] [] []]; split; vm_compute; reflexivity.
Qed.

(** An escaped text holds no byte but letters, digits, [-], [_], [.], [~],
    [+] and [%]. *)
Lemma QueryEscape_safe (s : string) (x : ascii) :
  querySafe x = false -> strings.Contains (url.QueryEscape s) x = false.
Proof.
  intros Hx. induction s as [|c s IH]; [reflexivity|].
  cbn [url.QueryEscape]. destruct (url.shouldEscape c) eqn:Hesc.
  - destruct (Ascii.eqb c " ").
    + cbn [strings.Contains]. rewrite IH, (querySafe_differs "+" x eq_refl Hx). reflexivity.
    + destruct (upperhex_safe c) as [Hhi Hlo].
      cbn [strings.Contains].
      rewrite IH, (querySafe_differs "%" x eq_refl Hx),
        (querySafe_differs _ x Hhi Hx), (querySafe_differs _ x Hlo Hx). reflexivity.
  - cbn [strings.Contains]. rewrite IH, orb_false_r.
    apply querySafe_differs; [|exact Hx].
    unfold querySafe. rewrite Hesc. reflexivity.
Qed.

Lemma searchPairs_safe (params : SearchParams.t) (x : ascii) :
  querySafe x = false ->
  Forall (fun kv => strings.Contains (fst kv) x = false
                    /\ strings.Contains (snd kv) x = false)
         (searchPairs params).
Proof.
  intros Hx. unfold searchPairs.
  assert (Hlit : forall s : string,
             Forall (fun c => querySafe c = true) (list_ascii_of_string s) ->
             strings.Contains s x = false).
  { intros s Hs. induction s as [|c s IH]; [reflexivity|].
    cbn [list_ascii_of_string] in Hs. inversion Hs; subst.
    cbn [strings.Contains]. rewrite IH by assumption.
    rewrite querySafe_differs by assumption. reflexivity. }
  destruct (String.eqb (SearchParams.Location params) ""),
    (String.eqb (SearchParams.Keywords params) ""),
    (String.eqb (SearchParams.JobTitle params) "");
    cbn [app]; repeat (apply Forall_cons || apply Forall_nil); cbn [fst snd];
    (split; first [ apply QueryEscape_safe; exact Hx | apply Hlit; repeat constructor ]).
Qed.

(** X21.  No text of a search can add a parameter to the query or change a
    key: splitting the query of the URL at every [&], and each part at
    every [=], gives back exactly the keys set, each with its one escaped
    value. *)
Theorem searchQuery_decodes (params : SearchParams.t) :
  map (fun part => strings.Split part "=")
      (strings.Split (url.Encode (searchValues params)) "&")
  = map (fun kv => [fst kv; snd kv]) (searchPairs params).
Proof.
  rewrite Encode_searchValues.
  pose proof (searchPairs_safe params "&" eq_refl) as Hamp.
  pose proof (searchPairs_safe params "=" eq_refl) as Heq.
  assert (Hne : searchPairs params <> []).
  { unfold searchPairs.
    destruct (String.eqb (SearchParams.Location params) ""),
      (String.eqb (SearchParams.Keywords params) ""); discriminate. }
  rewrite Split_concat.
  - rewrite map_map. apply map_ext_in. intros [k v] Hin.
    rewrite Forall_forall in Heq. destruct (Heq _ Hin) as [Hk Hv]. cbn [fst snd] in *.
    unfold pairText. cbn [fst snd].
    change (k ++ "=" ++ v)%string with (k ++ String "=" v)%string.
    rewrite (Split_app k v "=" Hk), (Split_whole v "=" Hv). reflexivity.
  - destruct (searchPairs params); [contradiction | discriminate].
  - apply Forall_map. revert Hamp. apply Forall_impl. intros [k v] [Hk Hv].
    unfold pairText. cbn [fst snd] in *. rewrite Contains_app, Hk. cbn. exact Hv.
Qed.

(** X22.  The URL kept for a card is the link up to its first [?]: the link
    is that URL alone, or that URL followed by a [?] and the rest, and the
    URL holds no [?]. *)
Theorem cleanURL_prefix (href : string) :
  exists rest : string,
    href = (cleanURL href ++ rest)%string
    /\ strings.Contains (cleanURL href) "?" = false
    /\ (rest = EmptyString \/ exists r, rest = String "?" r).
Proof.
  unfold cleanURL. destruct (strings.Contains href "?") eqn:Hc.
  - destruct (Split_first href "?") as (first & parts & rest & -> & Heq & Hno & Hrest).
    exists rest. repeat split; assumption.
  - exists EmptyString. split; [|split; [exact Hc | left; reflexivity]].
    symmetry. apply append_nil_r.
Qed.

(** ** pkg/search: the table of profiles and the search *)

Lemma profileExists_In (db : DB) (u : string) :
  profileExists db u = true <-> In u (map database.URL (profiles db)).
Proof.
  unfold profileExists. induction (profiles db) as [|p l IH].
  - cbn. split; [discriminate | contradiction].
  - cbn [filter map In]. destruct (String.eqb_spec (database.URL p) u) as [Heq | Hne].
    + split; [intros _; left; exact Heq | intros _]. cbn [List.length]. apply Z.ltb_lt. lia.
    + rewrite IH. split; [intros H; right; exact H | intros [H | H]; [contradiction | exact H]].
Qed.

Lemma profileExists_existsb (db : DB) (u : string) :
  existsb (fun p => String.eqb (database.URL p) u) (profiles db) = profileExists db u.
Proof.
  unfold profileExists. induction (profiles db) as [|p l IH]; [reflexivity|].
  cbn [existsb filter]. destruct (String.eqb (database.URL p) u).
  - cbn [orb List.length]. symmetry. apply Z.ltb_lt. lia.
  - cbn [orb]. exact IH.
Qed.

Lemma saveProfile_new (db : DB) (p : search.Profile) :
  profileExists db (search.URL p) = false ->
  saveProfile db p
  = {| profiles := profiles db
                   ++ [{| database.ID := nextID db; database.URL := search.URL p;
                          database.Name := search.Name p |}];
       connection_requests := connection_requests db |}.
Proof.
  intros Hnew. unfold saveProfile. rewrite profileExists_existsb, Hnew. reflexivity.
Qed.

Lemma saveProfile_old (db : DB) (p : search.Profile) :
  profileExists db (search.URL p) = true -> saveProfile db p = db.
Proof.
  intros Hold. unfold saveProfile. rewrite profileExists_existsb, Hold. reflexivity.
Qed.

Lemma nextID_fresh (db : DB) (p : database.Profile) :
  In p (profiles db) -> database.ID p < nextID db.
Proof.
  unfold nextID. induction (profiles db) as [|q l IH]; intros Hin; [contradiction|].
  cbn [map fold_right]. destruct Hin as [-> | Hin]; [lia|].
  specialize (IH Hin). lia.
Qed.

(** X23.  After [saveProfile] the URL of the profile is in the table
    ([profileExists] finds it) and what was there still is; saving a
    profile of the same URL again changes nothing (the first one saved is
    kept); and the URLs, and the ids, of the table stay distinct when they
    were. *)
Theorem saveProfile_round_trip (db : DB) (p q : search.Profile) :
  search.URL q = search.URL p ->
  profileExists (saveProfile db p) (search.URL p) = true
  /\ saveProfile (saveProfile db p) q = saveProfile db p
  /\ (NoDup (map database.URL (profiles db)) ->
      NoDup (map database.URL (profiles (saveProfile db p))))
  /\ (NoDup (map database.ID (profiles db)) ->
      NoDup (map database.ID (profiles (saveProfile db p))))
  /\ (forall u, profileExists db u = true -> profileExists (saveProfile db p) u = true).
Proof.
  intros Hq.
  assert (Hexists : profileExists (saveProfile db p) (search.URL p) = true).
  { destruct (profileExists db (search.URL p)) eqn:Hex.
    - rewrite (saveProfile_old db p Hex). exact Hex.
    - rewrite (saveProfile_new db p Hex). apply profileExists_In. cbn [profiles].
      rewrite map_app. apply in_or_app. right. left. reflexivity. }
  split; [exact Hexists|]. split; [|split; [|split]].
  - apply saveProfile_old. rewrite Hq. exact Hexists.
  - intros Hnd. destruct (profileExists db (search.URL p)) eqn:Hex.
    + rewrite (saveProfile_old db p Hex). exact Hnd.
    + rewrite (saveProfile_new db p Hex). cbn [profiles]. rewrite map_app.
      apply NoDup_app; [exact Hnd | repeat constructor; intros [] |].
      intros u Hin [Hu | []]. cbn [database.URL] in Hu. subst u.
      apply profileExists_In in Hin. congruence.
  - intros Hnd. destruct (profileExists db (search.URL p)) eqn:Hex.
    + rewrite (saveProfile_old db p Hex). exact Hnd.
    + rewrite (saveProfile_new db p Hex). cbn [profiles]. rewrite map_app.
      apply NoDup_app; [exact Hnd | repeat constructor; intros [] |].
      intros i Hin [Hi | []]. cbn [database.ID] in Hi. subst i.
      apply in_map_iff in Hin. destruct Hin as (row & Hid & Hin).
      pose proof (nextID_fresh db row Hin). lia.
  - intros u Hu. destruct (profileExists db (search.URL p)) eqn:Hex.
    + rewrite (saveProfile_old db p Hex). exact Hu.
    + rewrite (saveProfile_new db p Hex). apply profileExists_In. cbn [profiles].
      rewrite map_app. apply in_or_app. left. apply profileExists_In. exact Hu.
Qed.

Lemma saveProfile_round_trip_witness :
  profileExists (saveProfile sampleDB (card "/in/a" "A")) (search.URL (card "/in/a" "A")) = true
  /\ saveProfile (saveProfile sampleDB (card "/in/a" "A")) (card "/in/a" "Another")
     = saveProfile sampleDB (card "/in/a" "A")
  /\ (NoDup (map database.URL (profiles sampleDB)) ->
      NoDup (map database.URL (profiles (saveProfile sampleDB (card "/in/a" "A")))))
  /\ (NoDup (map database.ID (profiles sampleDB)) ->
      NoDup (map database.ID (profiles (saveProfile sampleDB (card "/in/a" "A")))))
  /\ (forall u, profileExists sampleDB u = true ->
                profileExists (saveProfile sampleDB (card "/in/a" "A")) u = true).
Proof.
  apply (saveProfile_round_trip sampleDB (card "/in/a" "A") (card "/in/a" "Another")).
  reflexivity.
Defined.

Lemma RandomDelay_returns (cfg : Config) (r : Rand) :
  timing_range_ok cfg -> exists (t : list event) (r' : Rand), RandomDelay cfg r = (t, Done tt r').
Proof.
  intros Hok. unfold RandomDelay.
  destruct (TimingConfig.Enabled (cfgTiming cfg)) eqn:Hon; cbn [negb];
    [|exists [], r; reflexivity].
  destruct Hok as [Hoff | Hfit]; [congruence|].
  set (lo := TimingConfig.MinThinkTime (cfgTiming cfg)) in *.
  set (hi := TimingConfig.MaxThinkTime (cfgTiming cfg)) in *.
  assert (Hpos : 0 < sub64 (if hi <=? lo then add64 lo 1 else hi) lo).
  { destruct (Z.leb_spec hi lo).
    - rewrite sub64_succ. lia.
    - unfold sub64. rewrite wrap64_id; lia. }
  draw_int. unfold Sleep, emit. eexists _, _. reflexivity.
Qed.

Lemma ScrollHumanLike_returns (cfg : Config) (distance : Z) (r : Rand) :
  4 <= distance < 2 ^ 63 ->
  exists (t : list event) (r' : Rand), ScrollHumanLike cfg distance r = (t, Done tt r').
Proof.
  intros Hd. destruct (ScrollingConfig.Enabled (cfgScrolling cfg)) eqn:Hon.
  - destruct (ScrollHumanLike_run cfg distance r Hon) as (steps & sl & r1 & _ & _ & _ & Hrun).
    rewrite Hrun.
    destruct (unit_draw r1 <? ScrollingConfig.ScrollBackProbability (cfgScrolling cfg))%float
      eqn:Hdraw.
    + destruct (scrollBack_some cfg distance r1 Hdraw Hd) as (b & p & -> & _).
      eexists _, _. reflexivity.
    + rewrite (scrollBack_none cfg distance r1 Hdraw). eexists _, _. reflexivity.
  - unfold ScrollHumanLike. rewrite Hon. eexists _, _. reflexivity.
Qed.

Section Search.
Variable cfg : Config.
Variable sc : SearchConfig.t.
Variable env : SearchEnv.
Variable db0 : DB.

Lemma collected_urls (found : list search.Profile) (db : DB) :
  collected sc db0 found db ->
  map database.URL (profiles db) = map database.URL (profiles db0) ++ map search.URL found.
Proof.
  intros [(rows & Hrows & Hsaved) _ _ _ _]. rewrite Hrows, map_app. f_equal.
  clear Hrows. induction Hsaved as [|row p rows found [Hu _] _ IH]; [reflexivity|].
  cbn [map]. rewrite Hu, IH. reflexivity.
Qed.

Lemma collected_start : collected sc db0 [] db0.
Proof.
  constructor.
  - exists []. split; [rewrite app_nil_r; reflexivity | constructor].
  - reflexivity.
  - constructor.
  - constructor.
  - cbn. lia.
Qed.

(** The inner loop keeps the state of the search. *)
Lemma collectProfiles_spec (page : list search.Profile) :
  forall (found : list search.Profile) (db : DB),
    collected sc db0 found db ->
    collected sc db0 (fst (collectProfiles sc env page found db))
              (snd (collectProfiles sc env page found db)).
Proof.
  induction page as [|p page IH]; intros found db Hc; [exact Hc|].
  cbn [collectProfiles].
  destruct (Z.geb_spec (Z.of_nat (List.length found)) (SearchConfig.MaxResults sc))
    as [Hfull | Hroom]; [exact Hc|].
  destruct (profileExists db (search.URL p)) eqn:Hex; [apply IH; exact Hc|].
  apply IH.
  set (p' := {| search.URL := search.URL p; search.Name := search.Name p;
                search.Headline := search.Headline p; search.Location := search.Location p;
                search.FoundAt := foundAt env |}).
  assert (Hnot : ~ In (search.URL p) (map database.URL (profiles db))).
  { intros Hin. apply profileExists_In in Hin. congruence. }
  rewrite (collected_urls _ _ Hc) in Hnot.
  destruct Hc as [(rows & Hrows & Hsaved) Hreq Hnd Hnew Hbound].
  constructor.
  - eexists (rows ++ [_]). split.
    + rewrite (saveProfile_new db p' Hex). cbn [profiles].
      rewrite Hrows, <- app_assoc. reflexivity.
    + apply Forall2_app; [exact Hsaved|]. constructor; [split; reflexivity | constructor].
  - rewrite (saveProfile_new db p' Hex). exact Hreq.
  - rewrite map_app. apply NoDup_app; [exact Hnd | repeat constructor; intros [] |].
    intros u Hin [Hu | []]. apply Hnot. apply in_or_app. right.
    cbn [search.URL p'] in Hu. rewrite Hu. exact Hin.
  - apply Forall_app. split; [exact Hnew|]. constructor; [|constructor].
    cbn [search.URL p']. destruct (profileExists db0 (search.URL p)) eqn:H0; [|reflexivity].
    exfalso. apply Hnot. apply in_or_app. left. apply profileExists_In. exact H0.
  - rewrite length_app. cbn [List.length]. lia.
Qed.

(** The outer loop returns and keeps the state of the search. *)
Lemma searchPages_spec (pages : results) :
  hover_range_ok cfg ->
  forall (found : list search.Profile) (db : DB) (r : Rand),
    collected sc db0 found db ->
    exists (t : list event) (found' : list search.Profile) (db' : DB) (r' : Rand),
      searchPages cfg sc env pages found db r = (t, Done (found', db') r')
      /\ collected sc db0 found' db'.
Proof.
  intros Hok. induction pages as [cards | cards button rest IH]; intros found db r Hc.
  - cbn [searchPages cardsOf].
    destruct (Z.of_nat (List.length found) <? SearchConfig.MaxResults sc).
    + pose proof (collectProfiles_spec cards found db Hc) as Hc'.
      destruct (collectProfiles sc env cards found db) as [found' db'].
      exists [], found', db', r. split; [reflexivity | exact Hc'].
    + exists [], found, db, r. split; [reflexivity | exact Hc].
  - cbn [searchPages cardsOf].
    destruct (Z.of_nat (List.length found) <? SearchConfig.MaxResults sc).
    + pose proof (collectProfiles_spec cards found db Hc) as Hc'.
      destruct (collectProfiles sc env cards found db) as [found' db'].
      cbn [fst snd] in Hc'.
      destruct (HumanClick_run cfg button (innerWidth env) (innerHeight env) r Hok)
        as (pre & r1 & Hclick & _).
      destruct (IH found' db' r1 Hc') as (t & found'' & db'' & r' & Hrun & Hc'').
      eexists _, found'', db'', r'. split; [|exact Hc''].
      rewrite run_bind, Hclick. cbn [fst snd].
      rewrite run_bind. unfold Sleep, emit. cbn [fst snd app].
      rewrite Hrun. cbn [fst snd]. reflexivity.
    + exists [], found, db, r. split; [reflexivity | exact Hc].
Qed.

End Search.

(** X24.  When the navigation succeeds and the hover and think time ranges
    are ones [rng.Intn] accepts, [SearchProfiles] returns with no error;
    the profiles it returns are at most [MaxResults] (none when
    [MaxResults] is not positive), their URLs are distinct and none was in
    the table of profiles before, and each is saved: the table holds its
    former rows and then one row per profile returned, in order; the table
    of requests is unchanged. *)
Theorem SearchProfiles_results (cfg : Config) (sc : SearchConfig.t) (env : SearchEnv)
        (db : DB) (r : Rand) :
  navigate_error env = None -> hover_range_ok cfg -> timing_range_ok cfg ->
  exists (t : list event) (found : list search.Profile) (rows : list database.Profile)
         (r' : Rand),
    SearchProfiles cfg sc env db r
    = (t, Done (None, found,
                {| profiles := profiles db ++ rows;
                   connection_requests := connection_requests db |}) r')
    /\ Forall2 savedAs rows found
    /\ Z.of_nat (List.length found) <= Z.max 0 (SearchConfig.MaxResults sc)
    /\ NoDup (map search.URL found)
    /\ Forall (fun p => profileExists db (search.URL p) = false) found.
Proof.
  intros Hnav Hhover Htiming. unfold SearchProfiles. rewrite Hnav.
  destruct (ScrollHumanLike_returns cfg 1000 r ltac:(split; [lia | reflexivity]))
    as (t1 & r1 & Hscroll).
  destruct (RandomDelay_returns cfg r1 Htiming) as (t2 & r2 & Hdelay).
  destruct (searchPages_spec cfg sc env db (site env) Hhover [] db r2
                             (collected_start sc db))
    as (t3 & found & db' & r' & Hrun & Hc).
  destruct Hc as [(rows & Hrows & Hsaved) Hreq Hnd Hnew Hbound].
  exists (t1 ++ t2 ++ t3), found, rows, r'.
  split; [|split; [exact Hsaved | split; [exact Hbound | split; [exact Hnd | exact Hnew]]]].
  rewrite run_bind, Hscroll. cbn [fst snd].
  rewrite run_bind, Hdelay. cbn [fst snd].
  rewrite run_bind, Hrun. cbn [fst snd ret app].
  rewrite app_nil_r. destruct db' as [ps rs]. cbn [profiles connection_requests] in *.
  subst ps rs. reflexivity.
Qed.

Lemma SearchProfiles_results_witness :
  exists (t : list event) (found : list search.Profile) (rows : list database.Profile)
         (r' : Rand),
    SearchProfiles (configTypo 0.05) (sampleSearchConfig 3) sampleSearchEnv sampleDB
                   (constantRand 7 0.5)
    = (t, Done (None, found,
                {| profiles := profiles sampleDB ++ rows;
                   connection_requests := connection_requests sampleDB |}) r')
    /\ Forall2 savedAs rows found
    /\ Z.of_nat (List.length found) <= Z.max 0 (SearchConfig.MaxResults (sampleSearchConfig 3))
    /\ NoDup (map search.URL found)
    /\ Forall (fun p => profileExists sampleDB (search.URL p) = false) found.
Proof.
  apply (SearchProfiles_results (configTypo 0.05) (sampleSearchConfig 3) sampleSearchEnv
                                sampleDB (constantRand 7 0.5)).
  - reflexivity.
  - right. vm_compute. reflexivity.
  - right. vm_compute. reflexivity.
Defined.

(** A search for three profiles over the two sample pages: the profile
    [/in/b], met again on the second page, is returned once. *)
Example SearchProfiles_sample :
  match SearchProfiles (configTypo 0.05) (sampleSearchConfig 3) sampleSearchEnv sampleDB
                       (constantRand 7 0.5) with
  | (_, Done (err, found, db') _) =>
      err = None
      /\ map search.URL found = ["/in/a"; "/in/b"; "/in/c"]%string
      /\ map database.ID (profiles db') = [1; 2; 3; 4; 5; 6; 7; 8]
  | (_, Panic _) => False
  end.
Proof. vm_compute. repeat split; reflexivity. Qed.
